(** * Transcript pruning engine of [ccc]: a shallow embedding and its properties

    The development follows the two source files of the engine:
    - [index.ts]: [pruneSessionLines] (keep from the N-th-to-last assistant turn);
    - [boundary-detector.ts]: [detectBoundaries] and [pruneToBoundary].

    A transcript is a list of lines, each a [string]; a character of a
    [string] stands for a code unit of a JavaScript string.  The engine looks
    at a line through [JSON.parse] and writes one line back with
    [JSON.stringify];
    both belong to the JavaScript runtime, not to the repository, and enter
    the development as the operations of the class [Runtime].  A reference
    instance for the integer fragment of JSON is given in [RefJSON].  The
    one computation in doubles, the retention percentage of a boundary, is
    done with the binary64 floats of the kernel. *)

From Stdlib Require Import List String Ascii ZArith Bool Arith Lia Sorted.
From Stdlib Require Import DecimalString DecimalZ DecimalPos.
From Stdlib Require Floats Uint63.
Import ListNotations.

Local Open Scope string_scope.
Local Open Scope list_scope.

(** ** JavaScript values as the engine sees them *)

Module JS.

(** The result of [JSON.parse].  Numbers are modelled as integers: the only
    numbers the engine inspects are token counters.  An object is the list of
    its members in text order; [JSON.parse] keeps the last of several members
    with one key, and so does [lookup]. *)
#[local] Unset Elimination Schemes.
Inductive json : Type :=
| JNull
| JBool (b : bool)
| JNum (n : Z)
| JStr (s : string)
| JArr (items : list json)
| JObj (members : list (string * json)).
#[local] Set Elimination Schemes.

Definition json_is_null (v : json) : bool :=
  match v with
  | JNull => true
  | _ => false
  end.

(** A JavaScript value that came out of a parsed record, or [undefined]. *)
Definition value := option json.
Definition undefined : value := None.

Fixpoint lookup (k : string) (members : list (string * json)) : value :=
  match members with
  | [] => undefined
  | (k', v) :: rest =>
      match lookup k rest with
      | Some later => Some later
      | None => if String.eqb k k' then Some v else undefined
      end
  end.

(** [o.k] on a receiver that is neither [null] nor [undefined].  None of the
    property names the engine reads exists on a string, number, boolean or
    array, so only objects answer. *)
Definition get (o : json) (k : string) : value :=
  match o with
  | JObj members => lookup k members
  | _ => undefined
  end.

(** [v.k]: a [TypeError] ([None]) on [null] and [undefined]. *)
Definition prop (v : value) (k : string) : option value :=
  match v with
  | None | Some JNull => None
  | Some o => Some (get o k)
  end.

(** [v?.k] *)
Definition optprop (v : value) (k : string) : value :=
  match v with
  | None | Some JNull => undefined
  | Some o => get o k
  end.

Definition truthy (v : value) : bool :=
  match v with
  | None | Some JNull => false
  | Some (JBool b) => b
  | Some (JNum n) => negb (n =? 0)%Z
  | Some (JStr s) => negb (s =? EmptyString)%string
  | Some (JArr _) | Some (JObj _) => true
  end.

(** [a || b] *)
Definition or_else (a b : value) : value := if truthy a then a else b.

(** [v === "s"] for a string literal [s]. *)
Definition strict_eq_str (v : value) (s : string) : bool :=
  match v with
  | Some (JStr s') => (s' =? s)%string
  | _ => false
  end.

Notation "v === s" := (strict_eq_str v s) (at level 70, no associativity).

(** [Array.prototype.join] on strings. *)
Fixpoint join (sep : string) (parts : list string) : string :=
  match parts with
  | [] => EmptyString
  | [p] => p
  | p :: rest => (p ++ sep ++ join sep rest)%string
  end.

(** [String.prototype.includes] *)
Fixpoint includes (s needle : string) : bool :=
  String.prefix needle s ||
  match s with
  | EmptyString => false
  | String _ rest => includes rest needle
  end.

(** What stands after [lit] in [s], if [s] starts with [lit]. *)
Fixpoint strip (lit s : string) : option string :=
  match lit, s with
  | EmptyString, _ => Some s
  | String a lit', String b s' =>
      if (a =? b)%char then strip lit' s' else None
  | String _ _, EmptyString => None
  end.

(** The longest prefix of [s] whose characters satisfy [p], and the rest. *)
Fixpoint span (p : ascii -> bool) (s : string) : string * string :=
  match s with
  | EmptyString => (EmptyString, EmptyString)
  | String c rest =>
      if p c then let '(taken, after) := span p rest in (String c taken, after)
      else (EmptyString, s)
  end.

(** The last character of [s] that satisfies [p]. *)
Fixpoint last_where (p : ascii -> bool) (s : string) : option ascii :=
  match s with
  | EmptyString => None
  | String c rest =>
      match last_where p rest with
      | Some later => Some later
      | None => if p c then Some c else None
      end
  end.

(** White space and line terminators, the characters [\s] matches and
    [String.prototype.trim] removes, among the first 256. *)
Definition is_space (c : ascii) : bool :=
  let n := nat_of_ascii c in
  ((9 <=? n)%nat && (n <=? 13)%nat) || (n =? 32)%nat || (n =? 160)%nat.

(** The characters [.] does not match. *)
Definition is_line_terminator (c : ascii) : bool :=
  let n := nat_of_ascii c in
  (n =? 10)%nat || (n =? 13)%nat.

Fixpoint trim_start (s : string) : string :=
  match s with
  | EmptyString => EmptyString
  | String c rest => if is_space c then trim_start rest else s
  end.

Fixpoint trim_end (s : string) : string :=
  match s with
  | EmptyString => EmptyString
  | String c rest =>
      match trim_end rest with
      | EmptyString => if is_space c then EmptyString else String c EmptyString
      | tail => String c tail
      end
  end.

(** [String.prototype.trim] *)
Definition trim (s : string) : string := trim_end (trim_start s).

(** [s.match(re)] for a regular expression without the [g] flag: the match
    at the leftmost position that has one. *)
Fixpoint leftmost {A : Type} (here : string -> option A) (s : string)
    : option A :=
  match here s with
  | Some groups => Some groups
  | None =>
      match s with
      | EmptyString => None
      | String _ rest => leftmost here rest
      end
  end.

(** [Number.prototype.toString] on an integer. *)
Definition Number_toString (n : Z) : string :=
  NilZero.string_of_int (Z.to_int n).

(** Where the engine divides, its numbers are doubles: the binary64 floats
    of the kernel.  [Number_of_Z] is the number that holds an integer of
    less than 63 bits, such as a length or a difference of lengths; below
    [2 ^ 53] it holds it exactly. *)
Definition Number_of_Z (z : Z) : PrimFloat.float :=
  if (z <? 0)%Z
  then PrimFloat.opp (PrimFloat.of_uint63 (Uint63.of_Z (- z)))
  else PrimFloat.of_uint63 (Uint63.of_Z z).

(** [Math.round]: a number that is not finite, or is an integer, is returned
    as it is; any other number [x] gives the integer nearest to it, the
    greater one on a tie, and the zero of the sign of [x] when that integer
    is zero.  A finite number is [m * 2 ^ e], an integer when [e >= 0];
    [half] is one half in units of [2 ^ e]. *)
Definition Math_round (x : PrimFloat.float) : PrimFloat.float :=
  match FloatOps.Prim2SF x with
  | SpecFloat.S754_finite s m e =>
      if (0 <=? e)%Z then x
      else
        let half := Z.shiftl 1 (- e - 1) in
        if s then
          let n := Z.shiftr (Z.pos m + half - 1) (- e) in
          if (n =? 0)%Z then PrimFloat.neg_zero else Number_of_Z (- n)
        else Number_of_Z (Z.shiftr (Z.pos m + half) (- e))
  | _ => x
  end.

(** [ToString], as used by the coercion of an array to a primitive:
    [Array.prototype.toString] joins with a comma and prints [null] as the
    empty string. *)
Fixpoint ToString (v : json) : string :=
  match v with
  | JNull => "null"
  | JBool true => "true"
  | JBool false => "false"
  | JNum n => Number_toString n
  | JStr s => s
  | JArr items =>
      join "," (map (fun x => match x with
                              | JNull => EmptyString
                              | _ => ToString x
                              end) items)
  | JObj _ => "[object Object]"
  end.

(** [SameValueZero], the equality of [Set.prototype.has].  Two arrays or two
    objects are the same value only when they are one reference, and every
    [JSON.parse] allocates afresh: structured values are never found. *)
Definition SameValueZero (a b : json) : bool :=
  match a, b with
  | JNull, JNull => true
  | JBool x, JBool y => Bool.eqb x y
  | JNum x, JNum y => (x =? y)%Z
  | JStr x, JStr y => (x =? y)%string
  | _, _ => false
  end.

(** A [Set], in insertion order. *)
Definition JSSet := list json.

Definition Set_has (s : JSSet) (v : value) : bool :=
  match v with
  | Some x => existsb (SameValueZero x) s
  | None => false
  end.

Definition Set_add (s : JSSet) (x : json) : JSSet :=
  if existsb (SameValueZero x) s then s else s ++ [x].

(** [Array.prototype.forEach] with the callback's effect on the enclosing
    variables made explicit as a state. *)
Fixpoint forEach_from {A St : Type} (f : St -> A -> nat -> St)
    (l : list A) (i : nat) (st : St) : St :=
  match l with
  | [] => st
  | x :: rest => forEach_from f rest (S i) (f st x i)
  end.

Definition forEach {A St : Type} (f : St -> A -> nat -> St)
    (l : list A) (st : St) : St :=
  forEach_from f l 0 st.

(** [Array.prototype.map] with the index. *)
Fixpoint map_from {A B : Type} (f : A -> nat -> B) (l : list A) (i : nat)
    : list B :=
  match l with
  | [] => []
  | x :: rest => f x i :: map_from f rest (S i)
  end.

Definition mapi {A B : Type} (f : A -> nat -> B) (l : list A) : list B :=
  map_from f l 0.

(** Statements that may throw, inside [try { ... } catch { ... }]. *)
Definition bind {A B : Type} (m : option A) (k : A -> option B) : option B :=
  match m with
  | Some a => k a
  | None => None
  end.

Definition try_catch {A : Type} (body : option A) (handler : A) : A :=
  match body with
  | Some a => a
  | None => handler
  end.

End JS.

Export JS.

Notation "x <- m ;; k" := (bind m (fun x => k))
  (at level 61, m at next level, right associativity).

(** The part of the JavaScript runtime the engine calls. *)
Class Runtime := {
  (** [JSON.parse]; [None] is the [SyntaxError]. *)
  JSON_parse : string -> option json;
  (** [JSON.stringify] *)
  JSON_stringify : json -> string;
  (** [StringToNumber]; [None] is [NaN]. *)
  StringToNumber : string -> option Z
}.


(** ** The two pruning operations *)

(** State of the output pass: [outLines], [kept] and [dropped]. *)
Record Pruned := {
  outLines : list string;
  kept : nat;
  dropped : nat
}.

Definition push_kept (st : Pruned) (ln : string) : Pruned :=
  {| outLines := outLines st ++ [ln];
     kept := S (kept st);
     dropped := dropped st |}.

Definition push (st : Pruned) (ln : string) : Pruned :=
  {| outLines := outLines st ++ [ln];
     kept := kept st;
     dropped := dropped st |}.

Definition drop (st : Pruned) : Pruned :=
  {| outLines := outLines st;
     kept := kept st;
     dropped := S (dropped st) |}.

(** The code that [index.ts] and [boundary-detector.ts] both carry, word for
    word: the message test, the orphan test, the walk over a [content] array
    and the rewrite of the usage counter. *)
Module Shared.
Section WithRuntime.
Context {R : Runtime}.

(** [MSG_TYPES.has(type)] with [MSG_TYPES = new Set(["user", "assistant", "system"])] *)
Definition MSG_TYPES_has (type : value) : bool :=
  (type === "user") || (type === "assistant") || (type === "system").

(** [MSG_TYPES.has((() => { try { return JSON.parse(ln).type; } catch { return ""; } })())] *)
Definition isMsg (ln : string) : bool :=
  MSG_TYPES_has
    (try_catch (obj <- JSON_parse ln ;; prop (Some obj) "type")
               (Some (JStr EmptyString))).

(** [let shouldKeep = true; try { const obj = JSON.parse(ln);
    if (obj.type === "tool_result" && obj.tool_use_id)
      shouldKeep = keptToolUseIds.has(obj.tool_use_id); } catch {}] *)
Definition shouldKeep (keptToolUseIds : JSSet) (ln : string) : bool :=
  try_catch
    (obj <- JSON_parse ln ;;
     type <- prop (Some obj) "type" ;;
     if type === "tool_result" then
       tool_use_id <- prop (Some obj) "tool_use_id" ;;
       Some (if truthy tool_use_id
             then Set_has keptToolUseIds tool_use_id
             else true)
     else Some true)
    true.

(** [if (item.type === "tool_use" && item.id) keptToolUseIds.add(item.id)]
    for an [item] other than [null]. *)
Definition add_tool_use (item : json) (keptToolUseIds : JSSet) : JSSet :=
  match get item "id" with
  | Some id =>
      if (get item "type" === "tool_use") && truthy (Some id)
      then Set_add keptToolUseIds id
      else keptToolUseIds
  | None => keptToolUseIds
  end.

(** [obj.content.forEach(item => { ... })].  [item.type] throws on a [null]
    item: the walk stops there, and the enclosing [catch] keeps what was
    added. *)
Fixpoint add_tool_uses (content : list json) (keptToolUseIds : JSSet) : JSSet :=
  match content with
  | [] => keptToolUseIds
  | JNull :: _ => keptToolUseIds
  | item :: rest => add_tool_uses rest (add_tool_use item keptToolUseIds)
  end.

(** [if (Array.isArray(obj.content)) obj.content.forEach(...)] for a record
    already known to be an object. *)
Definition add_content (obj : json) (keptToolUseIds : JSSet) : JSSet :=
  match get obj "content" with
  | Some (JArr content) => add_tool_uses content keptToolUseIds
  | _ => keptToolUseIds
  end.

(** [ToNumber]; [None] is [NaN]. *)
Definition ToNumber (v : value) : option Z :=
  match v with
  | None => None
  | Some JNull => Some 0%Z
  | Some (JBool b) => Some (if b then 1%Z else 0%Z)
  | Some (JNum n) => Some n
  | Some (JStr s) => StringToNumber s
  | Some (JArr items) => StringToNumber (ToString (JArr items))
  | Some (JObj members) => StringToNumber (ToString (JObj members))
  end.

(** [v > 0] *)
Definition gt_zero (v : value) : bool :=
  match ToNumber v with
  | Some n => (0 <? n)%Z
  | None => false
  end.

(** [const usageObj = obj.usage || obj.message?.usage] *)
Definition usageObj (obj : json) : option value :=
  usage <- prop (Some obj) "usage" ;;
  message <- prop (Some obj) "message" ;;
  Some (or_else usage (optprop message "usage")).

(** The body of the [try] in the scan for the last cache-bearing line:
    [usageObj?.cache_read_input_tokens && usageObj.cache_read_input_tokens > 0]. *)
Definition cacheBearing (ln : string) : bool :=
  try_catch
    (obj <- JSON_parse ln ;;
     u <- usageObj obj ;;
     let tokens := optprop u "cache_read_input_tokens" in
     Some (truthy tokens && gt_zero tokens))
    false.

(** [let lastNonZeroCacheLineIndex = -1; lines.forEach((ln, i) => { ... })] *)
Definition lastNonZeroCacheLineIndex (lines : list string) : Z :=
  forEach (fun last ln i => if cacheBearing ln then Z.of_nat i else last)
          lines (-1)%Z.

(** [o[k] = v] on an object: an own member keeps its place. *)
Definition set_member (k : string) (v : json) (members : list (string * json))
    : list (string * json) :=
  match lookup k members with
  | Some _ =>
      map (fun m => if String.eqb (fst m) k then (fst m, v) else m) members
  | None => members ++ [(k, v)]
  end.

Definition assign (o : json) (k : string) (v : json) : json :=
  match o with
  | JObj members => JObj (set_member k v members)
  | _ => o
  end.

(** [usageObj.cache_read_input_tokens = 0] on the object [usageObj] aliases.
    The store goes through the alias into [obj]; here the path to it is
    rebuilt.  A property set on an array is not serialized; on [undefined],
    [null] or a primitive the store throws (module code is strict). *)
Definition zeroed (usage : json) : option json :=
  match usage with
  | JObj members =>
      Some (JObj (set_member "cache_read_input_tokens" (JNum 0) members))
  | JArr items => Some (JArr items)
  | _ => None
  end.

Definition zeroCache (obj : json) : option json :=
  usage <- prop (Some obj) "usage" ;;
  if truthy usage then
    u <- usage ;;
    u' <- zeroed u ;;
    Some (assign obj "usage" u')
  else
    message <- prop (Some obj) "message" ;;
    m <- message ;;
    u <- optprop message "usage" ;;
    u' <- zeroed u ;;
    Some (assign obj "message" (assign m "usage" u')).

(** [lines.map((ln, i) => { if (i === lastNonZeroCacheLineIndex) { try {
    ...; return JSON.stringify(obj); } catch {} } return ln; })] *)
Definition processLine (last : Z) (ln : string) (i : nat) : string :=
  if (Z.of_nat i =? last)%Z then
    try_catch
      (obj <- JSON_parse ln ;;
       obj' <- zeroCache obj ;;
       Some (JSON_stringify obj'))
      ln
  else ln.

Definition processedLines (lines : list string) : list string :=
  mapi (processLine (lastNonZeroCacheLineIndex lines)) lines.

(** [if (lines.length > 0) outLines.push(lines[0])] *)
Definition head (lines : list string) : Pruned :=
  {| outLines := firstn 1 lines; kept := 0; dropped := 0 |}.

End WithRuntime.
End Shared.

Export Shared.

(** What the proofs use of [JSON]: a parsed record whose usage counter was
    reset parses back from its serialization, and the empty text is not
    JSON. *)
Class RuntimeLaws (R : Runtime) : Prop := {
  parse_stringify :
    forall ln obj obj',
      JSON_parse ln = Some obj -> zeroCache obj = Some obj' ->
      JSON_parse (JSON_stringify obj') = Some obj';
  parse_empty : JSON_parse EmptyString = None
}.

(** *** [index.ts]: keep by assistant count *)

Module Index.

(** The value [pruneSessionLines] returns. *)
Record Result := {
  pruned : Pruned;
  assistantCount : nat
}.

Section WithRuntime.
Context {R : Runtime}.

(** Pass 1: [msgIndexes] and [assistantIndexes]. *)
Definition locate (st : list nat * list nat) (ln : string) (i : nat)
    : list nat * list nat :=
  if (i =? 0)%nat then st
  else
    try_catch
      (obj <- JSON_parse ln ;;
       type <- prop (Some obj) "type" ;;
       Some (if MSG_TYPES_has type
             then (fst st ++ [i],
                   if type === "assistant" then snd st ++ [i] else snd st)
             else st))
      st.

(** [let cutFrom = 0; if (assistantIndexes.length > keepNSafe)
    cutFrom = assistantIndexes[assistantIndexes.length - keepNSafe];]
    A read past the end of the array is [undefined], here [None]. *)
Definition cutFrom (assistantIndexes : list nat) (keepN : Z) : option nat :=
  let keepNSafe := Z.max 0 keepN in
  if (keepNSafe <? Z.of_nat (List.length assistantIndexes))%Z
  then nth_error assistantIndexes
         (Z.to_nat (Z.of_nat (List.length assistantIndexes) - keepNSafe))
  else Some 0.

(** [idx >= cutFrom]; a comparison with [undefined] is false. *)
Definition ge_cut (idx : nat) (cut : option nat) : bool :=
  match cut with
  | Some c => (c <=? idx)%nat
  | None => false
  end.

(** Pass 2: the [tool_use] ids of the assistant records that stay. *)
Definition collect (cut : option nat) (keptToolUseIds : JSSet)
    (ln : string) (idx : nat) : JSSet :=
  if (idx =? 0)%nat then keptToolUseIds
  else
    try_catch
      (obj <- JSON_parse ln ;;
       type <- prop (Some obj) "type" ;;
       Some (if (type === "assistant") && ge_cut idx cut
             then add_content obj keptToolUseIds
             else keptToolUseIds))
      keptToolUseIds.

(** Pass 3: the output and the counters. *)
Definition emit (cut : option nat) (keptToolUseIds : JSSet)
    (st : Pruned) (ln : string) (idx : nat) : Pruned :=
  if (idx =? 0)%nat then st
  else if isMsg ln then
    if ge_cut idx cut then push_kept st ln else drop st
  else
    if shouldKeep keptToolUseIds ln then push st ln else st.

(** The local variables of [pruneSessionLines], each from the passes above. *)
Definition assistantIndexes (lines : list string) : list nat :=
  snd (forEach locate lines ([], [])).

Definition cut (lines : list string) (keepN : Z) : option nat :=
  cutFrom (assistantIndexes lines) keepN.

Definition keptToolUseIds (lines : list string) (keepN : Z) : JSSet :=
  forEach (collect (cut lines keepN)) lines [].

Definition pruneSessionLines (lines : list string) (keepN : Z) : Result :=
  {| pruned :=
       forEach (emit (cut lines keepN) (keptToolUseIds lines keepN))
         (processedLines lines) (head lines);
     assistantCount := List.length (assistantIndexes lines) |}.

End WithRuntime.
End Index.

Coercion Index.pruned : Index.Result >-> Pruned.

(** *** [boundary-detector.ts]: keep from a boundary line *)

Module BoundaryDetector.

(** ['intent' | 'git_commit'] *)
Inductive BoundaryType := Intent | GitCommit.

(** A boundary.  [retentionPercentage] is a double, the result of a
    division; [characterCount] is a difference of two lengths. *)
Record Boundary := {
  lineNumber : nat;
  type : BoundaryType;
  description : string;
  timestamp : option string;
  retentionPercentage : PrimFloat.float;
  characterCount : Z;
  intent : option string
}.

Record BoundaryAnalysis := {
  boundaries : list Boundary;
  totalCharacters : nat
}.

Definition newline : string := String "010"%char EmptyString.

(** [Array.prototype.sort] with a comparator: a stable sort, here by
    insertion.  An element goes before the first one it does not have to
    follow, so equal elements keep their order. *)
Fixpoint insert_sorted {A : Type} (compare : A -> A -> Z) (x : A)
    (sorted : list A) : list A :=
  match sorted with
  | [] => [x]
  | y :: rest =>
      if (compare x y <=? 0)%Z then x :: y :: rest
      else y :: insert_sorted compare x rest
  end.

Definition Array_sort {A : Type} (compare : A -> A -> Z) (l : list A)
    : list A :=
  fold_right (insert_sorted compare) [] l.

Section WithRuntime.
Context {R : Runtime}.

(** [linePositions.push(currentPosition); currentPosition += line.length + 1;]
    on the state [(currentPosition, linePositions)]. *)
Definition track (st : nat * list nat) (line : string) (index : nat)
    : nat * list nat :=
  (fst st + (String.length line + 1), snd st ++ [fst st]).

(** [totalCharacters - linePositions[index]].  The read is always within
    the array, which has one entry per line. *)
Definition charactersFrom (totalCharacters : nat) (linePositions : list nat)
    (index : nat) : Z :=
  let charactersFromStart := nth index linePositions 0 in
  (Z.of_nat totalCharacters - Z.of_nat charactersFromStart)%Z.

(** [Math.round(((totalCharacters - charactersFromStart) / totalCharacters)
    * 100)]: the difference of the two lengths, divided and multiplied as
    doubles.  The read of [linePositions] is within the array, as in
    [charactersFrom]. *)
Definition retention (totalCharacters : nat) (linePositions : list nat)
    (index : nat) : PrimFloat.float :=
  let charactersFromStart := nth index linePositions 0 in
  Math_round
    (PrimFloat.mul
       (PrimFloat.div
          (Number_of_Z (Z.of_nat totalCharacters - Z.of_nat charactersFromStart))
          (Number_of_Z (Z.of_nat totalCharacters)))
       (Number_of_Z 100)).

(** The second group of
    [/===INTENT_BOUNDARY=== ([^|]+)(?:\s*\|\s*(.+))?/], matched on what
    follows the first group: a bar, white space, and the text up to the end
    of the line.  When only white space follows the bar, [\s*] gives back
    its last character that [.] matches. *)
Definition intent_group (after : string) : option string :=
  match after with
  | String "|"%char t =>
      let '(space, text) := span is_space t in
      match text with
      | String _ _ =>
          Some (fst (span (fun c => negb (is_line_terminator c)) text))
      | EmptyString =>
          match last_where (fun c => negb (is_line_terminator c)) space with
          | Some c => Some (String c EmptyString)
          | None => None
          end
      end
  | _ => None
  end.

(** The groups of that expression for a match that starts at the front of
    [s]: the first group is the longest run without a bar and is not
    empty. *)
Definition boundary_groups (s : string) : option (string * option string) :=
  match strip "===INTENT_BOUNDARY=== " s with
  | Some t =>
      let '(first, after) := span (fun c => negb (c =? "|")%char) t in
      match first with
      | EmptyString => None
      | String _ _ => Some (first, intent_group after)
      end
  | None => None
  end.

(** [let description = 'Boundary marker'; let intent; let timestamp;
    const boundaryMatch = line.match(...); if (boundaryMatch) { ... }]:
    the description, the timestamp and the intent of a marker line. *)
Definition marker_labels (line : string)
    : string * option string * option string :=
  match leftmost boundary_groups line with
  | Some (first, second) =>
      match second with
      | Some text =>
          if negb (text =? EmptyString)%string
          then (trim text, Some (trim first), Some (trim text))
          else ("Boundary marker", Some (trim first), None)
      | None => ("Boundary marker", Some (trim first), None)
      end
  | None => ("Boundary marker", None, None)
  end.

(** [if (line.includes('===INTENT_BOUNDARY===')) { ... boundaries.push(...) }] *)
Definition marker_boundary (totalCharacters : nat) (linePositions : list nat)
    (line : string) (index : nat) : Boundary :=
  {| lineNumber := index;
     type := Intent;
     description := fst (fst (marker_labels line));
     timestamp := snd (fst (marker_labels line));
     retentionPercentage := retention totalCharacters linePositions index;
     characterCount := charactersFrom totalCharacters linePositions index;
     intent := snd (marker_labels line) |}.

Definition detect_marker (totalCharacters : nat) (linePositions : list nat)
    (boundaries : list Boundary) (line : string) (index : nat)
    : list Boundary :=
  if includes line "===INTENT_BOUNDARY===" then
    boundaries ++ [marker_boundary totalCharacters linePositions line index]
  else boundaries.

(** [content.includes('files changed') || content.includes('insertions') ||
    content.includes('deletions')]: a substring test on a string, a member
    test on an array, and a [TypeError] on anything else. *)
Definition commit_success (content : json) : option bool :=
  match content with
  | JStr s =>
      Some (includes s "files changed" || includes s "insertions"
            || includes s "deletions")
  | JArr items =>
      Some (existsb (SameValueZero (JStr "files changed")) items
            || existsb (SameValueZero (JStr "insertions")) items
            || existsb (SameValueZero (JStr "deletions")) items)
  | _ => None
  end.

Definition is_quote (c : ascii) : bool :=
  (c =? "034")%char || (c =? "'")%char.

(** The group of the expression [git commit -m Q([^Q]+)Q], where [Q] stands
    for the class of the double and the single quote, for a match that
    starts at the front of [s]: the longest run without a quote, between two
    quotes, and not empty. *)
Definition commit_group (s : string) : option string :=
  match strip "git commit -m " s with
  | Some (String q t) =>
      if is_quote q then
        let '(message, after) := span (fun c => negb (is_quote c)) t in
        match message, after with
        | String _ _, String _ _ => Some message
        | _, _ => None
        end
      else None
  | _ => None
  end.

(** The body of the [try] in the backward walk: the commit message a line
    gives, if it is a [bash] tool call of [git commit -m].  A [command] that
    is not a string has no [match] method: a [TypeError], caught. *)
Definition commit_of (ln : string) : option string :=
  prevObj <- JSON_parse ln ;;
  type <- prop (Some prevObj) "type" ;;
  if (type === "tool_call") && (get prevObj "tool_name" === "bash") then
    match or_else (optprop (get prevObj "parameters") "command")
                  (Some (JStr EmptyString)) with
    | Some (JStr command) => leftmost commit_group command
    | _ => None
    end
  else None.

(** [let commitMessage = 'Successful commit';
    for (let i = index - 1; i >= 0; i--) { ... break; }] over the earlier
    lines, the nearest first. *)
Fixpoint commitMessage (earlier : list string) : string :=
  match earlier with
  | [] => "Successful commit"
  | ln :: rest =>
      match commit_of ln with
      | Some message => ("Git commit: " ++ message)%string
      | None => commitMessage rest
      end
  end.

Definition commit_boundary (lines : list string) (totalCharacters : nat)
    (linePositions : list nat) (index : nat) : Boundary :=
  {| lineNumber := index;
     type := GitCommit;
     description := commitMessage (rev (firstn index lines));
     timestamp := None;
     retentionPercentage := retention totalCharacters linePositions index;
     characterCount := charactersFrom totalCharacters linePositions index;
     intent := None |}.

(** The third loop: a successful [git commit] seen in a [bash] tool result. *)
Definition detect_commit (lines : list string) (totalCharacters : nat)
    (linePositions : list nat)
    (boundaries : list Boundary) (line : string) (index : nat)
    : list Boundary :=
  try_catch
    (obj <- JSON_parse line ;;
     type <- prop (Some obj) "type" ;;
     if (type === "tool_result") && (get obj "tool_name" === "bash")
        && truthy (get obj "content")
     then
       content <- get obj "content" ;;
       success <- commit_success content ;;
       Some (if success
             then boundaries ++
                  [commit_boundary lines totalCharacters linePositions index]
             else boundaries)
     else Some boundaries)
    boundaries.

Definition linePositions (lines : list string) : list nat :=
  snd (forEach track lines (0, [])).

(** The boundaries in the order the two loops push them. *)
Definition pushed (lines : list string) : list Boundary :=
  let totalCharacters := String.length (join newline lines) in
  forEach (detect_commit lines totalCharacters (linePositions lines)) lines
    (forEach (detect_marker totalCharacters (linePositions lines)) lines []).

(** [(a, b) => b.lineNumber - a.lineNumber] *)
Definition newest_first (a b : Boundary) : Z :=
  (Z.of_nat (lineNumber b) - Z.of_nat (lineNumber a))%Z.

Definition detectBoundaries (lines : list string) : BoundaryAnalysis :=
  {| boundaries := Array_sort newest_first (pushed lines);
     totalCharacters := String.length (join newline lines) |}.

(** First pass: the [tool_use] ids of the assistant records from the
    boundary on. *)
Definition collect (boundaryLineNumber : Z) (keptToolUseIds : JSSet)
    (ln : string) (idx : nat) : JSSet :=
  if (idx =? 0)%nat then keptToolUseIds
  else if (boundaryLineNumber <=? Z.of_nat idx)%Z then
    try_catch
      (obj <- JSON_parse ln ;;
       type <- prop (Some obj) "type" ;;
       Some (if type === "assistant"
             then add_content obj keptToolUseIds
             else keptToolUseIds))
      keptToolUseIds
  else keptToolUseIds.

(** Last pass: lines from the boundary forward, without orphaned results. *)
Definition emit (boundaryLineNumber : Z) (keptToolUseIds : JSSet)
    (st : Pruned) (ln : string) (idx : nat) : Pruned :=
  if (idx =? 0)%nat then st
  else if (boundaryLineNumber <=? Z.of_nat idx)%Z then
    if isMsg ln then push_kept st ln
    else if shouldKeep keptToolUseIds ln then push st ln else st
  else
    if isMsg ln then drop st else st.

Definition keptToolUseIds (lines : list string) (boundaryLineNumber : Z)
    : JSSet :=
  forEach (collect boundaryLineNumber) lines [].

Definition pruneToBoundary (lines : list string) (boundaryLineNumber : Z)
    : Pruned :=
  forEach (emit boundaryLineNumber (keptToolUseIds lines boundaryLineNumber))
    (processedLines lines) (head lines).

End WithRuntime.
End BoundaryDetector.

(** ** A reference instance of the runtime

    A printer and a recursive-descent parser for JSON with integer numbers
    and strings over the first 256 characters.  The printer writes the
    compact form of [JSON.stringify].  The parser takes a text with a
    fraction, an exponent or an escape above code 255 for a text that is not
    JSON, and keeps several members with one key side by side. *)

Module RefJSON.

Notation "' p <- m ;; k" := (bind m (fun x => match x with p => k end))
  (at level 61, p pattern, m at next level, right associativity).

Definition dquote : ascii := "034"%char.
Definition backslash : ascii := "092"%char.

Definition is_ws (c : ascii) : bool :=
  (c =? " ")%char || (c =? "009")%char || (c =? "010")%char
  || (c =? "013")%char.

Fixpoint skip_ws (s : string) : string :=
  match s with
  | String c rest => if is_ws c then skip_ws rest else s
  | EmptyString => s
  end.

(** *** Strings *)

Definition hex_digit (n : nat) : ascii :=
  if (n <? 10)%nat then ascii_of_nat (48 + n) else ascii_of_nat (87 + n).

Definition hex_value (c : ascii) : option nat :=
  let n := nat_of_ascii c in
  if (48 <=? n)%nat && (n <=? 57)%nat then Some (n - 48)
  else if (97 <=? n)%nat && (n <=? 102)%nat then Some (n - 87)
  else if (65 <=? n)%nat && (n <=? 70)%nat then Some (n - 55)
  else None.

Definition escape_char (c : ascii) : string :=
  let n := nat_of_ascii c in
  if (c =? dquote)%char then String backslash (String dquote EmptyString)
  else if (c =? backslash)%char then
    String backslash (String backslash EmptyString)
  else if (n =? 8)%nat then String backslash "b"
  else if (n =? 9)%nat then String backslash "t"
  else if (n =? 10)%nat then String backslash "n"
  else if (n =? 12)%nat then String backslash "f"
  else if (n =? 13)%nat then String backslash "r"
  else if (n <? 32)%nat then
    String backslash
      (String "u" (String "0" (String "0"
        (String (hex_digit (n / 16))
          (String (hex_digit (n mod 16)) EmptyString)))))
  else String c EmptyString.

Fixpoint escape (s : string) : string :=
  match s with
  | EmptyString => EmptyString
  | String c rest => (escape_char c ++ escape rest)%string
  end.

Definition print_string (s : string) : string :=
  String dquote (escape s ++ String dquote EmptyString)%string.

Definition unescape (e : ascii) : option ascii :=
  if (e =? dquote)%char then Some dquote
  else if (e =? backslash)%char then Some backslash
  else if (e =? "/")%char then Some "/"%char
  else if (e =? "b")%char then Some "008"%char
  else if (e =? "t")%char then Some "009"%char
  else if (e =? "n")%char then Some "010"%char
  else if (e =? "f")%char then Some "012"%char
  else if (e =? "r")%char then Some "013"%char
  else None.

Definition hex4 (h1 h2 h3 h4 : ascii) : option nat :=
  a <- hex_value h1 ;;
  b <- hex_value h2 ;;
  c <- hex_value h3 ;;
  d <- hex_value h4 ;;
  Some (((a * 16 + b) * 16 + c) * 16 + d).

(** The characters of a string literal after its opening quote, and what
    follows the closing quote.  An escape above code 255 is outside the
    byte strings of the model. *)
Fixpoint parse_chars (s : string) : option (string * string) :=
  match s with
  | EmptyString => None
  | String c r =>
      if (c =? dquote)%char then Some (EmptyString, r)
      else if (c =? backslash)%char then
        match r with
        | String e r1 =>
            if (e =? "u")%char then
              match r1 with
              | String h1 (String h2 (String h3 (String h4 r2))) =>
                  code <- hex4 h1 h2 h3 h4 ;;
                  if (code <? 256)%nat then
                    '(str, rest) <- parse_chars r2 ;;
                    Some (String (ascii_of_nat code) str, rest)
                  else None
              | _ => None
              end
            else
              ch <- unescape e ;;
              '(str, rest) <- parse_chars r1 ;;
              Some (String ch str, rest)
        | EmptyString => None
        end
      else if (nat_of_ascii c <? 32)%nat then None
      else
        '(str, rest) <- parse_chars r ;;
        Some (String c str, rest)
  end.

(** *** Numbers *)

Definition digit_of (c : ascii) : option (Decimal.uint -> Decimal.uint) :=
  match c with
  | "0"%char => Some Decimal.D0
  | "1"%char => Some Decimal.D1
  | "2"%char => Some Decimal.D2
  | "3"%char => Some Decimal.D3
  | "4"%char => Some Decimal.D4
  | "5"%char => Some Decimal.D5
  | "6"%char => Some Decimal.D6
  | "7"%char => Some Decimal.D7
  | "8"%char => Some Decimal.D8
  | "9"%char => Some Decimal.D9
  | _ => None
  end.

Fixpoint parse_digits (s : string) : Decimal.uint * string :=
  match s with
  | EmptyString => (Decimal.Nil, s)
  | String c rest =>
      match digit_of c with
      | Some d => let '(u, rest') := parse_digits rest in (d u, rest')
      | None => (Decimal.Nil, s)
      end
  end.

(** The digits of a JSON number: at least one, and no zero in front of
    another digit. *)
Definition json_digits (s : string) : option (Decimal.uint * string) :=
  let '(u, rest) := parse_digits s in
  match u with
  | Decimal.Nil => None
  | Decimal.D0 Decimal.Nil => Some (u, rest)
  | Decimal.D0 _ => None
  | _ => Some (u, rest)
  end.

Definition parse_number (s : string) : option (Z * string) :=
  match s with
  | String "-"%char r =>
      '(u, rest) <- json_digits r ;;
      Some (Z.of_int (Decimal.Neg u), rest)
  | _ =>
      '(u, rest) <- json_digits s ;;
      Some (Z.of_int (Decimal.Pos u), rest)
  end.

(** *** Values *)

(** One or more items separated by commas, up to [close]. *)
Fixpoint parse_seq {A : Type} (item : string -> option (A * string))
    (close : ascii) (fuel : nat) (s : string) : option (list A * string) :=
  match fuel with
  | 0 => None
  | S fuel =>
      '(x, r) <- item s ;;
      match skip_ws r with
      | String c r' =>
          if (c =? ",")%char then
            '(xs, rest) <- parse_seq item close fuel r' ;;
            Some (x :: xs, rest)
          else if (c =? close)%char then Some ([x], r')
          else None
      | EmptyString => None
      end
  end.

Definition parse_member (parse_value : string -> option (json * string))
    (s : string) : option ((string * json) * string) :=
  match skip_ws s with
  | String c r =>
      if (c =? dquote)%char then
        '(k, r1) <- parse_chars r ;;
        match skip_ws r1 with
        | String c1 r2 =>
            if (c1 =? ":")%char then
              '(v, r3) <- parse_value r2 ;;
              Some ((k, v), r3)
            else None
        | EmptyString => None
        end
      else None
  | EmptyString => None
  end.

Fixpoint parse_value (fuel : nat) (s : string) : option (json * string) :=
  match fuel with
  | 0 => None
  | S fuel =>
      match skip_ws s with
      | EmptyString => None
      | String c r =>
          if (c =? dquote)%char then
            '(str, rest) <- parse_chars r ;;
            Some (JStr str, rest)
          else if (c =? "[")%char then
            match skip_ws r with
            | EmptyString => None
            | String c' rest' =>
                if (c' =? "]")%char then Some (JArr [], rest')
                else
                  '(items, rest) <- parse_seq (parse_value fuel) "]" fuel r ;;
                  Some (JArr items, rest)
            end
          else if (c =? "{")%char then
            match skip_ws r with
            | EmptyString => None
            | String c' rest' =>
                if (c' =? "}")%char then Some (JObj [], rest')
                else
                  '(members, rest) <-
                    parse_seq (parse_member (parse_value fuel)) "}" fuel r ;;
                  Some (JObj members, rest)
            end
          else if (c =? "t")%char then
            rest <- strip "rue" r ;; Some (JBool true, rest)
          else if (c =? "f")%char then
            rest <- strip "alse" r ;; Some (JBool false, rest)
          else if (c =? "n")%char then
            rest <- strip "ull" r ;; Some (JNull, rest)
          else
            '(n, rest) <- parse_number (String c r) ;;
            Some (JNum n, rest)
      end
  end.

Definition parse (s : string) : option json :=
  '(v, rest) <- parse_value (S (String.length s)) s ;;
  match skip_ws rest with
  | EmptyString => Some v
  | String _ _ => None
  end.

Fixpoint stringify (v : json) : string :=
  match v with
  | JNull => "null"
  | JBool true => "true"
  | JBool false => "false"
  | JNum n => Number_toString n
  | JStr s => print_string s
  | JArr items => ("[" ++ join "," (map stringify items) ++ "]")%string
  | JObj members =>
      ("{" ++ join ","
                (map (fun '(k, v) => print_string k ++ ":" ++ stringify v)
                     members)
           ++ "}")%string
  end.

(** Decimal integers between optional white space; the empty string is [0]. *)
Definition to_number (s : string) : option Z :=
  match skip_ws s with
  | EmptyString => Some 0%Z
  | String c r =>
      let '(u, rest) :=
        parse_digits (if (c =? "-")%char || (c =? "+")%char
                      then r else String c r) in
      match u, skip_ws rest with
      | Decimal.Nil, _ => None
      | _, EmptyString =>
          Some (if (c =? "-")%char then Z.of_int (Decimal.Neg u)
                else Z.of_int (Decimal.Pos u))
      | _, String _ _ => None
      end
  end.

(** A continuation after which a number ends: not a digit. *)
Definition tail_ok (rest : string) : Prop :=
  match rest with
  | EmptyString => True
  | String c _ => digit_of c = None
  end.

(** A first character with which a number starts. *)
Definition number_start (c : ascii) : bool :=
  (c =? "-")%char ||
  match digit_of c with
  | Some _ => true
  | None => false
  end.

(** A first character that is neither white space nor a closing bracket. *)
Definition value_start (s : string) : Prop :=
  match s with
  | EmptyString => False
  | String c _ =>
      is_ws c = false /\ (c =? "]")%char = false /\ (c =? "}")%char = false
  end.

(** No zero in front of another digit, and at least one digit. *)
Definition canonical (u : Decimal.uint) : Prop :=
  u <> Decimal.Nil /\ forall d, u = Decimal.D0 d -> d = Decimal.Nil.

#[export] Instance runtime : Runtime := {|
  JSON_parse := parse;
  JSON_stringify := stringify;
  StringToNumber := to_number
|}.

End RefJSON.

(** ** Notions the statements are written with *)

(** The elements of [l] that satisfy [p] at their index, the first element
    having index [i]. *)
Fixpoint filter_from {A : Type} (p : A -> nat -> bool) (l : list A) (i : nat)
    : list A :=
  match l with
  | [] => []
  | x :: rest =>
      if p x i then x :: filter_from p rest (S i)
      else filter_from p rest (S i)
  end.

(** The elements of [l] that satisfy [p], each with its index, the first
    element having index [i]. *)
Fixpoint matches_from {A : Type} (p : A -> bool) (l : list A) (i : nat)
    : list (nat * A) :=
  match l with
  | [] => []
  | x :: rest =>
      if p x then (i, x) :: matches_from p rest (S i)
      else matches_from p rest (S i)
  end.

(** Of two boundaries the first is on a later line, or both are on one line,
    the first from its marker and the second from its commit result. *)
Definition newer_or_twin (a b : BoundaryDetector.Boundary) : Prop :=
  BoundaryDetector.lineNumber b < BoundaryDetector.lineNumber a \/
  (BoundaryDetector.lineNumber a = BoundaryDetector.lineNumber b /\
   BoundaryDetector.type a = BoundaryDetector.Intent /\
   BoundaryDetector.type b = BoundaryDetector.GitCommit).

(** The offset of line [i]: [offset 0 = 0] and
    [offset (i + 1) = offset i + length (lines i) + 1]. *)
Fixpoint offset (lines : list string) (i : nat) {struct i} : nat :=
  match i, lines with
  | S i', line :: rest => String.length line + 1 + offset rest i'
  | _, _ => 0
  end.

(** The integer nearest to the exact quotient [a / b], for [b > 0]: on a
    tie the greater one, or the even one. *)
Definition round_half_up (a b : Z) : Z := ((2 * a + b) / (2 * b))%Z.

Definition round_half_even (a b : Z) : Z :=
  let q := (a / b)%Z in
  let r := (a mod b)%Z in
  if (2 * r <? b)%Z then q
  else if (b <? 2 * r)%Z then (q + 1)%Z
  else if Z.even q then q else (q + 1)%Z.

(** The rounding of a double, as [SpecFloat] specifies it, first shifts the
    mantissa to the right and records whether bits were lost: [inexact]
    tells that some were, and [shifted k a b] that [b] is [a] after [k]
    shifts. *)
Definition inexact (mrs : SpecFloat.shr_record) : bool :=
  SpecFloat.shr_r mrs || SpecFloat.shr_s mrs.

Definition shifted (k : Z) (a b : SpecFloat.shr_record) : Prop :=
  (SpecFloat.shr_m b = SpecFloat.shr_m a / 2 ^ k)%Z /\
  (inexact b = true ->
   inexact a = true \/ (SpecFloat.shr_m a mod 2 ^ k)%Z <> 0%Z).

(** What the order of the pushes gives: two boundaries on one line are a
    marker boundary followed by a commit boundary. *)
Definition pushed_order (a b : BoundaryDetector.Boundary) : Prop :=
  BoundaryDetector.lineNumber a = BoundaryDetector.lineNumber b ->
  BoundaryDetector.type a = BoundaryDetector.Intent /\
  BoundaryDetector.type b = BoundaryDetector.GitCommit.

Section Views.
Context {R : Runtime}.

(** A line for which the third loop of [detectBoundaries] pushes a
    boundary. *)
Definition commit_line (line : string) : bool :=
  try_catch
    (obj <- JSON_parse line ;;
     type <- prop (Some obj) "type" ;;
     if (type === "tool_result") && (get obj "tool_name" === "bash")
        && truthy (get obj "content")
     then
       content <- get obj "content" ;;
       BoundaryDetector.commit_success content
     else Some false)
    false.

(** A line that parses as a record of type [tool_result] with a
    [tool_use_id] that is set. *)
Definition tool_result_for (ln : string) (id : json) : Prop :=
  exists obj,
    JSON_parse ln = Some obj /\
    (get obj "type" === "tool_result") = true /\
    get obj "tool_use_id" = Some id /\
    truthy (Some id) = true.

(** A line that parses as an assistant record whose [content] array holds a
    [tool_use] item with identifier [id]. *)
Definition tool_use_in (ln : string) (id : json) : Prop :=
  exists obj content item,
    JSON_parse ln = Some obj /\
    (get obj "type" === "assistant") = true /\
    get obj "content" = Some (JArr content) /\
    In item content /\
    (get item "type" === "tool_use") = true /\
    get item "id" = Some id.

(** Every tool result among [results] points at a tool use among [uses]. *)
Definition referential_integrity (results uses : list string) : Prop :=
  forall ln id,
    In ln results -> tool_result_for ln id ->
    exists a, In a uses /\ tool_use_in a id.

(** An id that [Set.prototype.has] finds again: a string, a number, a
    boolean or [null].  An array or an object is a new value each time a
    line is parsed, and is never found. *)
Definition findable (id : json) : bool :=
  match id with
  | JArr _ | JObj _ => false
  | _ => true
  end.

(** A line from which the collecting pass reads the identifier [id]: the
    line parses as an assistant record whose [content] is an array, and in
    that array a [tool_use] item with the identifier [id], which is set,
    stands before any [null] item. *)
Definition tool_use_read (ln : string) (id : json) : Prop :=
  exists obj before item after,
    JSON_parse ln = Some obj /\
    (get obj "type" === "assistant") = true /\
    get obj "content" = Some (JArr (before ++ item :: after)) /\
    ~ In JNull before /\
    (get item "type" === "tool_use") = true /\
    get item "id" = Some id /\
    truthy (Some id) = true.

(** A tool result whose [tool_use_id] is set and was read from none of
    [uses], or cannot be found again. *)
Definition unread_result (uses : list string) (ln : string) : Prop :=
  exists id,
    tool_result_for ln id /\
    (findable id = true -> forall a, In a uses -> ~ tool_use_read a id).

(** A tool result whose [tool_use_id] is set and is carried by none of
    [uses], or cannot be found again. *)
Definition uncarried_result (uses : list string) (ln : string) : Prop :=
  exists id,
    tool_result_for ln id /\
    (findable id = true -> forall a, In a uses -> ~ tool_use_in a id).

(** A line that is no record with a [null] item in a [content] array. *)
Definition no_null_item (ln : string) : Prop :=
  forall obj content,
    JSON_parse ln = Some obj -> get obj "content" = Some (JArr content) ->
    ~ In JNull content.

(** A record of type [tool_result] without a [tool_use_id], or with a falsy
    one. *)
Definition bare_tool_result (ln : string) : bool :=
  match JSON_parse ln with
  | Some obj =>
      (get obj "type" === "tool_result")
      && negb (truthy (get obj "tool_use_id"))
  | None => false
  end.

(** A record of type [tool_result] whose [tool_use_id] is set and is not
    among [ids]. *)
Definition orphan (ids : JSSet) (ln : string) : bool :=
  match JSON_parse ln with
  | Some obj =>
      (get obj "type" === "tool_result")
      && truthy (get obj "tool_use_id")
      && negb (Set_has ids (get obj "tool_use_id"))
  | None => false
  end.

(** The value at [usage.cache_read_input_tokens], or else at
    [message.usage.cache_read_input_tokens]. *)
Definition cacheTokens (obj : json) : value :=
  match usageObj obj with
  | Some u => optprop u "cache_read_input_tokens"
  | None => undefined
  end.

(** The usage object the scan reads off a record: its [usage] when that is
    truthy, and else the [usage] of its [message]. *)
Definition usage_read (obj u : json) : Prop :=
  (get obj "usage" = Some u /\ truthy (Some u) = true) \/
  (truthy (get obj "usage") = false /\
   exists m, get obj "message" = Some m /\ get m "usage" = Some u).

(** A line the scan takes as cache-bearing: a record whose usage object, as
    the scan reads it, has a [cache_read_input_tokens] that is set and
    greater than 0.  A counter at [message.usage] is not looked at when the
    record has a truthy [usage] of its own. *)
Definition cache_bearing (ln : string) : Prop :=
  exists obj u,
    JSON_parse ln = Some obj /\
    usage_read obj u /\
    truthy (get u "cache_read_input_tokens") = true /\
    gt_zero (get u "cache_read_input_tokens") = true.

(** [o'] is [o] with its member [k] set to [v] and no other member
    changed. *)
Definition updated (o : json) (k : string) (v o' : json) : Prop :=
  get o' k = Some v /\ forall k', k' <> k -> get o' k' = get o k'.

(** [obj'] is [obj] with the [cache_read_input_tokens] of the usage object
    the scan reads set to 0, and nothing else changed. *)
Definition counter_reset (obj obj' : json) : Prop :=
  (exists u u',
     get obj "usage" = Some u /\ truthy (Some u) = true /\
     updated u "cache_read_input_tokens" (JNum 0) u' /\
     updated obj "usage" u' obj') \/
  (truthy (get obj "usage") = false /\
   exists m u u' m',
     get obj "message" = Some m /\ get m "usage" = Some u /\
     updated u "cache_read_input_tokens" (JNum 0) u' /\
     updated m "usage" u' m' /\
     updated obj "message" m' obj').

(** The lines after the head. *)
Definition body (lines : list string) : list string := skipn 1 lines.

(** The field [k] of the record on a line; [None] when the line is not JSON
    or the read throws. *)
Definition field (ln k : string) : option value :=
  obj <- JSON_parse ln ;; prop (Some obj) k.

(** The set [ids] after the [tool_use] items of line [ln], if [ln] is an
    assistant record, were added: the body of both collecting passes once
    their test on the index has passed. *)
Definition assistant_ids (ids : JSSet) (ln : string) : JSSet :=
  try_catch
    (obj <- JSON_parse ln ;;
     type <- prop (Some obj) "type" ;;
     Some (if type === "assistant" then add_content obj ids else ids))
    ids.

(** What the output pass decides for a line from the cut on: a message is
    kept, another line is kept unless it is an orphaned tool result. *)
Definition kept_after (ids : JSSet) (ln : string) : bool :=
  isMsg ln || shouldKeep ids ln.

(** What [Index.emit] decides for a line before the cut: a message is
    dropped, another line is kept unless it is an orphaned tool result. *)
Definition kept_before (ids : JSSet) (ln : string) : bool :=
  negb (isMsg ln) && shouldKeep ids ln.

(** What [Index.emit] decides for a line after the head. *)
Definition session_keeps (cut : option nat) (ids : JSSet)
    (ln : string) (idx : nat) : bool :=
  if isMsg ln then Index.ge_cut idx cut else shouldKeep ids ln.

(** What [BoundaryDetector.emit] decides for a line after the head. *)
Definition boundary_keeps (b : Z) (ids : JSSet) (ln : string) (idx : nat)
    : bool :=
  (b <=? Z.of_nat idx)%Z && (isMsg ln || shouldKeep ids ln).

End Views.

(** ** Sample transcripts

    The inputs of the repository's tests, built as the tests build them, with
    the serializer of the reference runtime. *)

Module Samples.

Definition record (members : list (string * json)) : string :=
  RefJSON.stringify (JObj members).

(** [createMessage(type, uuid)] *)
Definition message (type uuid : string) : string :=
  record [("type", JStr type); ("uuid", JStr uuid);
          ("message", JObj [("content", JStr "test")])].

Definition summary : string := record [("type", JStr "summary")].

(** 'should handle keepN = 0' *)
Definition two_turns : list string :=
  [summary; message "user" "1"; message "assistant" "2";
   message "user" "3"; message "assistant" "4"].

(** 'should keep messages from last N assistant messages' *)
Definition three_turns : list string :=
  two_turns ++ [message "user" "5"; message "assistant" "6"].

(** 'should handle boundary past end of array' *)
Definition one_turn : list string :=
  [summary; message "user" "1"; message "assistant" "2"].

Definition assistant_with (uuid id : string) : string :=
  record [("type", JStr "assistant"); ("uuid", JStr uuid);
          ("content", JArr [JObj [("type", JStr "tool_use");
                                  ("id", JStr id)]])].

Definition result_of (id content : string) : string :=
  record [("type", JStr "tool_result"); ("tool_use_id", JStr id);
          ("content", JStr content)].

(** 'should filter orphaned tool_results when pruning' *)
Definition orphans : list string :=
  [summary;
   assistant_with "1" "tool-old-1"; result_of "tool-old-1" "old result";
   assistant_with "2" "tool-new-1"; result_of "tool-new-1" "new result"].

(** An assistant record with a [null] item between two [tool_use] items,
    followed by the results of both. *)
Definition assistant_with_null (uuid id1 id2 : string) : string :=
  record [("type", JStr "assistant"); ("uuid", JStr uuid);
          ("content",
           JArr [JObj [("type", JStr "tool_use"); ("id", JStr id1)];
                 JNull;
                 JObj [("type", JStr "tool_use"); ("id", JStr id2)]])].

Definition null_item : list string :=
  [summary; assistant_with_null "1" "tool-a" "tool-b";
   result_of "tool-a" "first result"; result_of "tool-b" "second result"].

(** A transcript that opens with a tool result. *)
Definition result_first : list string :=
  [result_of "tool-old-1" "old result"; message "user" "1"].

Definition bare_result : string :=
  record [("type", JStr "tool_result"); ("content", JStr "tool output")].

(** 'should preserve non-message lines (tool results, etc)' *)
Definition mixed : list string :=
  [summary; message "user" "1"; bare_result; message "assistant" "2";
   "non-json line"; message "user" "3"].

(** A diagnostic line in front of two assistant turns. *)
Definition diagnostic_first : list string :=
  [summary; "non-json line"; message "assistant" "2";
   message "assistant" "4"].

Definition with_cache (type uuid : string) (tokens : Z) : string :=
  record [("type", JStr type); ("uuid", JStr uuid);
          ("usage", JObj [("cache_read_input_tokens", JNum tokens)])].

(** 'should zero out the last non-zero cache_read_input_tokens' *)
Definition cached : list string :=
  [summary; with_cache "user" "1" 500; with_cache "assistant" "2" 1000;
   with_cache "user" "3" 1500; with_cache "assistant" "4" 0].

(** A transcript whose only cache-bearing record is its head. *)
Definition cached_head : list string :=
  [with_cache "summary" "0" 5; message "user" "1"; message "assistant" "2"].

(** A record with a counter at [message.usage] behind a [usage] of its own
    that has none, and a record with a counter at both places. *)
Definition shadowed : string :=
  record [("type", JStr "user");
          ("usage", JObj [("input_tokens", JNum 3)]);
          ("message",
           JObj [("usage", JObj [("cache_read_input_tokens", JNum 7)])])].

Definition both_counters (own nested : Z) : string :=
  record [("type", JStr "user");
          ("usage", JObj [("cache_read_input_tokens", JNum own)]);
          ("message",
           JObj [("usage", JObj [("cache_read_input_tokens", JNum nested)])])].

(** 'should zero out cache_read_input_tokens' of [pruneToBoundary] *)
Definition cached_twice : list string :=
  [summary; with_cache "user" "1" 1000; with_cache "assistant" "2" 2000].

(** A [bash] tool call of [git commit -m] with the message in double
    quotes, and a [bash] tool result. *)
Definition commit_call (message : string) : string :=
  record [("type", JStr "tool_call"); ("tool_name", JStr "bash");
          ("parameters",
           JObj [("command",
                  JStr ("git commit -m "
                        ++ String "034" (message ++ String "034" EmptyString))%string)])].

Definition bash_result (content : string) : string :=
  record [("type", JStr "tool_result"); ("tool_name", JStr "bash");
          ("content", JStr content)].

(** 'should handle multiple git commits in sequence' *)
Definition two_commits : list string :=
  [summary;
   commit_call "feat: First commit";
   bash_result "1 file changed, 5 insertions(+)";
   commit_call "feat: Second commit";
   bash_result "2 files changed, 10 insertions(+)"].

(** 'should detect boundaries with both intent markers and git commits' *)
Definition markers_and_commit : list string :=
  [summary;
   "===INTENT_BOUNDARY=== 2024-01-15T10:00:00 | Start feature";
   message "user" "1";
   commit_call "feat: Add auth";
   bash_result "1 file changed, 50 insertions(+)";
   "===INTENT_BOUNDARY=== 2024-01-15T11:00:00 | Continue work"].

(** A line of [n] characters. *)
Fixpoint filler (n : nat) : string :=
  match n with
  | 0 => EmptyString
  | S n' => String "x" (filler n')
  end.

(** A text of 200 characters with two markers, 115 and 29 characters before
    its end. *)
Definition two_hundred : list string :=
  [filler 84;
   ("===INTENT_BOUNDARY===" ++ filler 64)%string;
   ("===INTENT_BOUNDARY===" ++ filler 8)%string].

(** The result of a commit whose message quotes the boundary marker. *)
Definition commit_with_marker : string :=
  record [("type", JStr "tool_result"); ("tool_name", JStr "bash");
          ("content", JStr "1 files changed ===INTENT_BOUNDARY===")].

End Samples.

(** ** The rest of [index.ts] and of [boundary-detector.ts] *)

(** *** [findLatestBackup] *)

Module Restore.

(** A number as [parseInt] returns it: [NaN], an infinity or an integer.
    Nothing in [findLatestBackup] tells [-0] from [0]; both are [Finite 0]. *)
Inductive number : Type :=
| NaN
| Infinity (negative : bool)
| Finite (z : Z).

(** [parseInt] with one argument belongs to the runtime. *)
Class NumberRuntime := {
  parseInt : string -> number
}.

(** [isNaN] *)
Definition isNaN (n : number) : bool :=
  match n with
  | NaN => true
  | _ => false
  end.

(** The sign of [b - a] as [Array.prototype.sort] reads the result of a
    comparator: [-1], [0] or [1].  The difference of two infinities of one
    sign is [NaN], and so is a difference with [NaN]; the sort takes [NaN]
    for zero. *)
Definition sign_of_difference (b a : number) : Z :=
  match b, a with
  | Finite x, Finite y => Z.sgn (x - y)
  | Finite _, Infinity na => if na then 1%Z else (-1)%Z
  | Infinity nb, Finite _ => if nb then (-1)%Z else 1%Z
  | Infinity nb, Infinity na =>
      if Bool.eqb nb na then 0%Z else if nb then (-1)%Z else 1%Z
  | NaN, _ => 0%Z
  | _, NaN => 0%Z
  end.

(** [s.split(sep)] for a separator of one character. *)
Fixpoint split (sep : ascii) (s : string) : list string :=
  match s with
  | EmptyString => [EmptyString]
  | String c rest =>
      if (c =? sep)%char then EmptyString :: split sep rest
      else
        match split sep rest with
        | piece :: pieces => String c piece :: pieces
        | [] => [String c EmptyString]
        end
  end.

(** What [Array.prototype.pop] returns: the last element, [undefined] on an
    empty array. *)
Fixpoint pop {A : Type} (l : list A) : option A :=
  match l with
  | [] => None
  | [x] => Some x
  | _ :: rest => pop rest
  end.

(** [a || b] for [a] a string or [undefined]. *)
Definition or_string (a : option string) (b : string) : string :=
  match a with
  | None => b
  | Some EmptyString => b
  | Some s => s
  end.

(** An element of [sessionBackups]. *)
Record Backup := {
  name : string;
  timestamp : number
}.

Section WithRuntime.
Context {N : NumberRuntime}.

(** [f => ({ name: f, timestamp: parseInt(f.split('.').pop() || '0') })] *)
Definition backup_of (f : string) : Backup :=
  {| name := f;
     timestamp := parseInt (or_string (pop (split "."%char f)) "0") |}.

(** [(a, b) => b.timestamp - a.timestamp] *)
Definition latest_first (a b : Backup) : Z :=
  sign_of_difference (timestamp b) (timestamp a).

(** [f => f.startsWith(`${sessionId}.jsonl.`)] *)
Definition of_session (sessionId f : string) : bool :=
  String.prefix (sessionId ++ ".jsonl.") f.

Definition sessionBackups (backupFiles : list string) (sessionId : string)
    : list Backup :=
  BoundaryDetector.Array_sort latest_first
    (filter (fun backup => negb (isNaN (timestamp backup)))
       (map backup_of (filter (of_session sessionId) backupFiles))).

(** [return sessionBackups.length > 0 ? sessionBackups[0] : null] *)
Definition findLatestBackup (backupFiles : list string) (sessionId : string)
    : option Backup :=
  match sessionBackups backupFiles sessionId with
  | [] => None
  | latest :: _ => Some latest
  end.

End WithRuntime.

(** The name [main] and [boundaryPrune] give the backup they write at time
    [now], [Date.now()] being an integer:
    [`${sessionId}.jsonl.${Date.now()}`]. *)
Definition backupName (sessionId : string) (now : Z) : string :=
  sessionId ++ ".jsonl." ++ Number_toString now.

(** What the proofs use of [parseInt]: the decimal digits of a safe integer
    that is not negative are read back as that integer. *)
Class NumberLaws (N : NumberRuntime) : Prop := {
  parseInt_toString :
    forall n, (0 <= n < 2 ^ 53)%Z -> parseInt (Number_toString n) = Finite n
}.

(** [a - b] is negative, and [a - b] is negative or zero, for two numbers
    other than [NaN]. *)
Definition older (a b : number) : Prop := (sign_of_difference a b < 0)%Z.
Definition no_newer (a b : number) : Prop := (sign_of_difference a b <= 0)%Z.

End Restore.

(** *** [findMostRecentSession] *)

Module Sessions.

(** What the file system answers while [findMostRecentSession] runs: whether
    the project directory exists, its entries ([None] when [readdir]
    throws), and for the file of a name in it the time of its last change
    in milliseconds, [stats.mtime.getTime()] ([None] when [stat] throws). *)
Record ProjectDir := {
  pathExists : bool;
  readdir : option (list string);
  stat : string -> option Z
}.

(** [s.endsWith(suffix)] *)
Fixpoint endsWith (s suffix : string) : bool :=
  (s =? suffix)%string ||
  match s with
  | EmptyString => false
  | String _ rest => endsWith rest suffix
  end.

(** [s.replace(pattern, '')] for a pattern that is a string: the first
    occurrence is taken out. *)
Fixpoint remove_first (pattern s : string) : string :=
  match strip pattern s with
  | Some rest => rest
  | None =>
      match s with
      | EmptyString => EmptyString
      | String c rest => String c (remove_first pattern rest)
      end
  end.

(** An element of [sessionStats] that is not [null]. *)
Record SessionStat := {
  sessionId : string;
  mtime : Z
}.

(** [files.filter(f => f.endsWith('.jsonl') && !f.includes('.jsonl.'))
    .map(f => f.replace('.jsonl', ''))] *)
Definition sessionFiles (files : list string) : list string :=
  map (remove_first ".jsonl")
    (filter (fun f => endsWith f ".jsonl" && negb (includes f ".jsonl."))
       files).

(** [async (sessionId) => { try { const stats = await statAsync(filePath);
    return { sessionId, mtime: stats.mtime }; } catch { return null; } }] *)
Definition session_stat (d : ProjectDir) (id : string) : option SessionStat :=
  match stat d (id ++ ".jsonl") with
  | Some t => Some {| sessionId := id; mtime := t |}
  | None => None
  end.

(** [.filter(stat => stat !== null)] *)
Fixpoint not_null {A : Type} (l : list (option A)) : list A :=
  match l with
  | [] => []
  | Some x :: rest => x :: not_null rest
  | None :: rest => not_null rest
  end.

(** [(a, b) => b.mtime.getTime() - a.mtime.getTime()] *)
Definition latest_first (a b : SessionStat) : Z := (mtime b - mtime a)%Z.

Definition validSessions (d : ProjectDir) (files : list string)
    : list SessionStat :=
  BoundaryDetector.Array_sort latest_first
    (not_null (map (session_stat d) (sessionFiles files))).

Definition findMostRecentSession (d : ProjectDir) : option string :=
  if negb (pathExists d) then None
  else
    match readdir d with
    | None => None
    | Some files =>
        match sessionFiles files with
        | [] => None
        | _ :: _ =>
            match validSessions d files with
            | [] => None
            | latest :: _ => Some (sessionId latest)
            end
        end
    end.

End Sessions.

(** *** The transcript file, as [main] and [boundaryPrune] read and write it *)

Module Transcript.

Definition LF : ascii := "010"%char.
Definition CR : ascii := "013"%char.

(** [raw.split(/\r?\n/)]: the pieces between the line ends, a line end being
    a line feed, or a carriage return and the line feed after it. *)
Fixpoint split_lines (raw : string) : list string :=
  match raw with
  | EmptyString => [EmptyString]
  | String c rest =>
      let within :=
        match split_lines rest with
        | piece :: pieces => String c piece :: pieces
        | [] => [String c EmptyString]
        end in
      if (c =? LF)%char then EmptyString :: split_lines rest
      else
        match rest with
        | String c' rest' =>
            if (c =? CR)%char && (c' =? LF)%char
            then EmptyString :: split_lines rest'
            else within
        | EmptyString => within
        end
  end.

(** [raw.split(/\r?\n/).filter(Boolean)] *)
Definition readLines (raw : string) : list string :=
  filter (fun ln => negb (ln =? EmptyString)%string) (split_lines raw).

(** [outLines.join("\n") + "\n"] *)
Definition written (outLines : list string) : string :=
  (join (String LF EmptyString) outLines ++ String LF EmptyString)%string.

Section WithRuntime.
Context {R : Runtime}.

(** What [main] writes over a transcript whose text is [raw], when it
    writes; [keep] is an integer, as [keepN] is in [pruneSessionLines]. *)
Definition main_writes (raw : string) (keep : Z) : string :=
  written (outLines (Index.pruneSessionLines (readLines raw) keep)).

(** What [boundaryPrune] writes once a boundary on line [lineNumber] is
    selected. *)
Definition boundaryPrune_writes (raw : string) (lineNumber : nat) : string :=
  written (outLines (BoundaryDetector.pruneToBoundary (readLines raw)
                       (Z.of_nat lineNumber))).

End WithRuntime.

End Transcript.

(** *** [boundary-detector.ts]: [extractTimestamp] *)

Module Display.

(** [new Date(value).toLocaleString()] depends on the locale and the time
    zone of the process; it belongs to the runtime.  On a value that
    [JSON.parse] returned it does not throw. *)
Class DateRuntime := {
  toLocaleString : json -> string
}.

Section WithRuntime.
Context {R : Runtime} {D : DateRuntime}.

(** [try { const obj = JSON.parse(line);
    if (obj.timestamp) return new Date(obj.timestamp).toLocaleString();
    if (obj.created_at) return new Date(obj.created_at).toLocaleString();
    } catch {} return undefined;] *)
Definition extractTimestamp (line : string) : option string :=
  try_catch
    (obj <- JSON_parse line ;;
     timestamp <- prop (Some obj) "timestamp" ;;
     if truthy timestamp then
       t <- timestamp ;;
       Some (Some (toLocaleString t))
     else
       created_at <- prop (Some obj) "created_at" ;;
       if truthy created_at then
         t <- created_at ;;
         Some (Some (toLocaleString t))
       else Some None)
    None.

End WithRuntime.

End Display.

(** *** The commands [main], [restore] and [boundaryPrune]

    A command asks the process and the file system, and changes files.  What
    it is answered is a [World]; what it does to the file system, and
    whether it ends the process, is the list of its [Effect]s in their
    order.  What a command prints is left out. *)

Module Commands.

(** A path, by the segments that [path.join] is given. *)
Definition Path := list string.

(** The answers.  A call of the file system that throws is [None] for a
    read and [false] for a change; [confirm] and [selected] are what the two
    prompts resolve to, [confirm] as the condition it is used as. *)
Record World := {
  homedir : string;
  cwd : string;
  isTTY : bool;
  now : Z;
  pathExists : Path -> bool;
  readFile : Path -> option string;
  readdir : Path -> option (list string);
  ensureDir : Path -> bool;
  copyFile : Path -> Path -> bool;
  confirm : bool;
  selected : option BoundaryDetector.Boundary
}.

Inductive Effect : Type :=
| EnsureDir (dir : Path)
| CopyFile (src dest : Path)
| WriteFile (file : Path) (text : string)
| Exit (code : Z).

(** [s.replace(/\//g, '-')] *)
Fixpoint dashes (s : string) : string :=
  match s with
  | EmptyString => EmptyString
  | String c rest =>
      String (if (c =? "/")%char then "-"%char else c) (dashes rest)
  end.

(** [const cwdProject = process.cwd().replace(/\//g, '-')] *)
Definition cwdProject (w : World) : string := dashes (cwd w).

(** [join(homedir(), ".claude", "projects", cwdProject, `${sessionId}.jsonl`)] *)
Definition file (w : World) (sessionId : string) : Path :=
  [homedir w; ".claude"; "projects"; cwdProject w;
   (sessionId ++ ".jsonl")%string].

(** [join(homedir(), ".claude", "projects", cwdProject, "prune-backup")] *)
Definition backupDir (w : World) : Path :=
  [homedir w; ".claude"; "projects"; cwdProject w; "prune-backup"].

(** [await fs.ensureDir(backupDir);
    const backup = join(backupDir, `${sessionId}.jsonl.${Date.now()}`);
    await fs.copyFile(file, backup);
    await fs.writeFile(file, outLines.join("\n") + "\n");]
    A call that throws ends the command. *)
Definition backup_and_write (w : World) (sessionId text : string)
    : list Effect :=
  let backup := backupDir w ++ [Restore.backupName sessionId (now w)] in
  EnsureDir (backupDir w) ::
  if ensureDir w (backupDir w) then
    CopyFile (file w sessionId) backup ::
    if copyFile w (file w sessionId) backup
    then [WriteFile (file w sessionId) text]
    else []
  else [].

Section WithRuntime.
Context {R : Runtime} {N : Restore.NumberRuntime}.

Definition main (w : World) (sessionId : string) (keep : Z) (dryRun : bool)
    : list Effect :=
  if negb (pathExists w (file w sessionId)) then [Exit 1]
  else if negb dryRun && isTTY w && negb (confirm w) then [Exit 0]
  else
    match readFile w (file w sessionId) with
    | None => []
    | Some raw =>
        if dryRun then []
        else backup_and_write w sessionId (Transcript.main_writes raw keep)
    end.

(** Inside the [try] a call that throws ends in [process.exit(1)]. *)
Definition restore (w : World) (sessionId : string) (dryRun : bool)
    : list Effect :=
  if negb (pathExists w (backupDir w)) then [Exit 1]
  else
    match readdir w (backupDir w) with
    | None => [Exit 1]
    | Some backupFiles =>
        match Restore.findLatestBackup backupFiles sessionId with
        | None => [Exit 1]
        | Some latestBackup =>
            let backupPath := backupDir w ++ [Restore.name latestBackup] in
            if dryRun then []
            else if isTTY w && negb (confirm w) then [Exit 0]
            else
              CopyFile backupPath (file w sessionId) ::
              if copyFile w backupPath (file w sessionId) then []
              else [Exit 1]
        end
    end.

Definition boundaryPrune (w : World) (sessionId : string) (dryRun : bool)
    : list Effect :=
  if negb (pathExists w (file w sessionId)) then [Exit 1]
  else
    match readFile w (file w sessionId) with
    | None => []
    | Some raw =>
        match BoundaryDetector.boundaries
                (BoundaryDetector.detectBoundaries (Transcript.readLines raw))
        with
        | [] => []
        | _ :: _ =>
            match selected w with
            | None => []
            | Some selectedBoundary =>
                if negb dryRun && isTTY w && negb (confirm w) then []
                else if dryRun then []
                else
                  backup_and_write w sessionId
                    (Transcript.boundaryPrune_writes raw
                       (BoundaryDetector.lineNumber selectedBoundary))
            end
        end
    end.

End WithRuntime.

(** An effect that changes the file system. *)
Definition changes_files (e : Effect) : bool :=
  match e with
  | Exit _ => false
  | _ => true
  end.

End Commands.

(** *** A reference [parseInt]

    Leading white space, a sign, [0x] or [0X] for hexadecimal digits, and
    the longest run of digits; [NaN] without a digit.  It is the runtime's
    [parseInt] on a text whose digits stand for an integer below [2 ^ 53]:
    a greater one the runtime rounds to a double. *)

Module RefNumber.
Import Restore.

Fixpoint hex_digits (acc : option Z) (s : string) : option Z :=
  match s with
  | EmptyString => acc
  | String c rest =>
      match RefJSON.hex_value c with
      | Some d =>
          hex_digits
            (Some (match acc with
                   | Some n => n * 16 + Z.of_nat d
                   | None => Z.of_nat d
                   end)%Z) rest
      | None => acc
      end
  end.

(** What stands after [0x] or [0X]. *)
Definition hex_prefix (s : string) : option string :=
  match strip "0x" s with
  | Some rest => Some rest
  | None => strip "0X" s
  end.

Definition unsigned (s : string) : option Z :=
  match hex_prefix s with
  | Some rest => hex_digits None rest
  | None =>
      let '(u, _) := RefJSON.parse_digits s in
      match u with
      | Decimal.Nil => None
      | _ => Some (Z.of_int (Decimal.Pos u))
      end
  end.

Definition parseInt (s : string) : number :=
  let s := trim_start s in
  let '(negative, digits) :=
    match s with
    | String c rest =>
        if (c =? "-")%char then (true, rest)
        else if (c =? "+")%char then (false, rest)
        else (false, s)
    | EmptyString => (false, s)
    end in
  match unsigned digits with
  | Some n => Finite (if negative then - n else n)
  | None => NaN
  end.

#[export] Instance runtime : NumberRuntime := {|
  Restore.parseInt := parseInt
|}.

End RefNumber.

(** ** More notions for the statements *)

(** [sub] is [l] with some of its elements left out, the others in their
    order. *)
Inductive subsequence {A : Type} : list A -> list A -> Prop :=
| subsequence_nil : subsequence [] []
| subsequence_skip (x : A) (sub l : list A) :
    subsequence sub l -> subsequence sub (x :: l)
| subsequence_keep (x : A) (sub l : list A) :
    subsequence sub l -> subsequence (x :: sub) (x :: l).

(** A text without a line feed that does not end in a carriage return. *)
Fixpoint no_line_end (s : string) : bool :=
  match s with
  | EmptyString => true
  | String c rest =>
      negb (c =? Transcript.LF)%char
      && (match rest with
          | EmptyString => negb (c =? Transcript.CR)%char
          | String _ _ => true
          end)
      && no_line_end rest
  end.

(** A text without a line feed and without a carriage return. *)
Fixpoint no_break (s : string) : bool :=
  match s with
  | EmptyString => true
  | String c rest =>
      negb (c =? Transcript.LF)%char && negb (c =? Transcript.CR)%char
      && no_break rest
  end.

(** A text that can be a line of a transcript file and be read back as it
    is: not empty, without a line feed, and not ending in a carriage
    return. *)
Definition line_like (s : string) : bool :=
  negb (s =? EmptyString)%string && no_line_end s.

(** A line that holds the boundary marker. *)
Definition has_marker (line : string) : bool :=
  includes line "===INTENT_BOUNDARY===".

(** The line feeds and the characters of the lines from line [i] on, one
    line feed between two lines. *)
Definition text_from (lines : list string) (i : nat) : nat :=
  String.length (join BoundaryDetector.newline (skipn i lines)).

(** A line that parses as a record of type [assistant]. *)
Definition is_assistant {R : Runtime} (ln : string) : bool :=
  try_catch (type <- field ln "type" ;; Some (type === "assistant")) false.

(** The lines as the output pass of both operations meets them: the head as
    it was read, the other lines after the rewrite of the usage counter. *)
Definition candidates {R : Runtime} (lines : list string) : list string :=
  firstn 1 lines ++ body (processedLines lines).

(** The line from which [pruneSessionLines] keeps message records:
    [cutFrom], or the end of the transcript when [cutFrom] is [undefined]
    and no index is at or after it. *)
Definition cut_line {R : Runtime} (lines : list string) (keepN : Z) : nat :=
  match Index.cut lines keepN with
  | Some c => c
  | None => List.length lines
  end.

(** *** A stand-in for the date format

    The text of the value in place of the date it stands for: enough to tell
    which field of a record is shown. *)

Module RefDate.

#[export] Instance runtime : Display.DateRuntime := {|
  Display.toLocaleString := ToString
|}.

End RefDate.

(** ** More sample inputs *)

Module MoreSamples.
Import Samples.

(** 'should find the latest backup by timestamp' *)
Definition backups : list string :=
  ["abc123.jsonl.1640995200000"; "abc123.jsonl.1641081600000";
   "abc123.jsonl.1640908800000"; "def456.jsonl.1641000000000"].

(** 'should handle malformed timestamps gracefully' *)
Definition malformed_backups : list string :=
  ["abc123.jsonl.invalid"; "abc123.jsonl.1640995200000"; "abc123.jsonl.abc"].

(** 'should filter out files that do not match session pattern' *)
Definition other_files : list string :=
  ["abc123.jsonl.1640995200000"; "abc123.txt.1641081600000"; "abc123.jsonl";
   "abc123-other.jsonl.1641000000000"].

(** 'should return null when no backups found for session' *)
Definition other_sessions : list string :=
  ["def456.jsonl.1640995200000"; "xyz789.jsonl.1641081600000"].

(** Two markers without a label, on lines 1 and 3. *)
Definition marked : list string :=
  ["line1"; "===INTENT_BOUNDARY==="; "line2"; "===INTENT_BOUNDARY==="].

(** The boundary of a marker without a label. *)
Definition marker_on (lineNumber : nat) (retentionPercentage : Z)
    (characterCount : Z) : BoundaryDetector.Boundary :=
  {| BoundaryDetector.lineNumber := lineNumber;
     BoundaryDetector.type := BoundaryDetector.Intent;
     BoundaryDetector.description := "Boundary marker";
     BoundaryDetector.timestamp := None;
     BoundaryDetector.retentionPercentage := Number_of_Z retentionPercentage;
     BoundaryDetector.characterCount := characterCount;
     BoundaryDetector.intent := None |}.

(** 'should handle malformed JSON gracefully' *)
Definition malformed : list string :=
  [summary; "invalid json"; message "user" "1"; message "assistant" "2";
   "{ invalid json"].

(** A transcript like that of 'should handle boundary detection and pruning
    together'. *)
Definition phases : list string :=
  [summary; message "user" "1";
   "===INTENT_BOUNDARY=== 2024-01-15T10:00:00 | Initial work";
   message "assistant" "2"; message "user" "3";
   "===INTENT_BOUNDARY=== 2024-01-15T11:00:00 | Second phase";
   message "assistant" "4"].

(** A record with a [timestamp], a [created_at] and a usage counter. *)
Definition timed : string :=
  record [("type", JStr "assistant");
          ("timestamp", JStr "2024-01-15T10:30:00Z");
          ("created_at", JStr "2023-01-01T00:00:00Z");
          ("usage", JObj [("cache_read_input_tokens", JNum 5)])].

(** A project directory with two sessions and a backup. *)
Definition project : Sessions.ProjectDir :=
  {| Sessions.pathExists := true;
     Sessions.readdir :=
       Some ["abc123.jsonl"; "notes.txt"; "def456.jsonl";
             "abc123.jsonl.1640995200000"];
     Sessions.stat := fun name =>
       if (name =? "abc123.jsonl")%string then Some 1640995200000%Z
       else if (name =? "def456.jsonl")%string then Some 1641081600000%Z
       else None |}.

(** A process that is not a terminal, in a project with a transcript and
    two backups of the session [abc123]; every call succeeds. *)
Definition world : Commands.World :=
  {| Commands.homedir := "/home/u";
     Commands.cwd := "/work/app";
     Commands.isTTY := false;
     Commands.now := 1641081600000%Z;
     Commands.pathExists := fun _ => true;
     Commands.readFile := fun _ =>
       Some (join (String Transcript.LF EmptyString) phases);
     Commands.readdir := fun _ =>
       Some ["abc123.jsonl.1640995200000";
             Restore.backupName "abc123" 1641081600000;
             "def456.jsonl.1641999999999"];
     Commands.ensureDir := fun _ => true;
     Commands.copyFile := fun _ _ => true;
     Commands.confirm := false;
     Commands.selected := Some (marker_on 5 0 0) |}.

(** The text of a transcript file with a blank line and with line ends of
    both kinds. *)
Definition file_text : string :=
  (summary ++ String Transcript.LF (String Transcript.LF EmptyString)
   ++ message "user" "1"
   ++ String Transcript.CR (String Transcript.LF EmptyString)
   ++ message "assistant" "2" ++ String Transcript.LF EmptyString)%string.

End MoreSamples.

(** * Properties *)

(** ** Lists read with their indexes *)

Section Indexed.
Context {A : Type}.

Lemma forEach_from_app {St : Type} (f : St -> A -> nat -> St)
    (l1 l2 : list A) (i : nat) (st : St) :
  forEach_from f (l1 ++ l2) i st =
  forEach_from f l2 (i + List.length l1) (forEach_from f l1 i st).
Proof.
  revert i st; induction l1 as [|x l1 IH]; intros i st; simpl.
  - now rewrite Nat.add_0_r.
  - rewrite IH. now rewrite Nat.add_succ_r.
Qed.

Lemma map_from_length {B : Type} (f : A -> nat -> B) (l : list A) (i : nat) :
  List.length (map_from f l i) = List.length l.
Proof.
  revert i; induction l as [|x l IH]; intros i; simpl; [reflexivity|].
  now rewrite IH.
Qed.

Lemma map_from_nth_error {B : Type} (f : A -> nat -> B) (l : list A)
    (i n : nat) :
  nth_error (map_from f l i) n = option_map (fun x => f x (i + n)) (nth_error l n).
Proof.
  revert i n; induction l as [|x l IH]; intros i [|n]; simpl; try reflexivity.
  - now rewrite Nat.add_0_r.
  - rewrite IH. now rewrite Nat.add_succ_r.
Qed.

Lemma filter_from_In (p : A -> nat -> bool) (l : list A) (i : nat) (x : A) :
  In x (filter_from p l i) <->
  exists n, nth_error l n = Some x /\ p x (i + n) = true.
Proof.
  revert i; induction l as [|y l IH]; intros i; simpl.
  - split; [intros []|intros [[|n] [H _]]; discriminate].
  - split.
    + destruct (p y i) eqn:Hp.
      * intros [->|H].
        -- exists 0. now rewrite Nat.add_0_r.
        -- apply IH in H as [n [H1 H2]]. exists (S n).
           now rewrite Nat.add_succ_r.
      * intros H. apply IH in H as [n [H1 H2]]. exists (S n).
        now rewrite Nat.add_succ_r.
    + intros [[|n] [H1 H2]]; simpl in H1.
      * injection H1 as ->. rewrite Nat.add_0_r in H2. rewrite H2. now left.
      * rewrite Nat.add_succ_r in H2.
        assert (In x (filter_from p l (S i))) by (apply IH; eauto).
        destruct (p y i); [now right|assumption].
Qed.

Lemma filter_from_ext (p q : A -> nat -> bool) (l : list A) (i : nat) :
  (forall x n, nth_error l n = Some x -> p x (i + n) = q x (i + n)) ->
  filter_from p l i = filter_from q l i.
Proof.
  revert i; induction l as [|y l IH]; intros i H; simpl; [reflexivity|].
  rewrite (IH (S i)).
  - specialize (H y 0 eq_refl). rewrite Nat.add_0_r in H. now rewrite H.
  - intros x n Hn. specialize (H x (S n) Hn).
    now rewrite Nat.add_succ_r in H.
Qed.

Lemma filter_from_filter (q : A -> bool) (l : list A) (i : nat) :
  filter_from (fun x _ => q x) l i = filter q l.
Proof.
  revert i; induction l as [|y l IH]; intros i; simpl; [reflexivity|].
  now rewrite IH.
Qed.

Lemma filter_from_app (p : A -> nat -> bool) (l1 l2 : list A) (i : nat) :
  filter_from p (l1 ++ l2) i =
  filter_from p l1 i ++ filter_from p l2 (i + List.length l1).
Proof.
  revert i; induction l1 as [|y l1 IH]; intros i; simpl.
  - now rewrite Nat.add_0_r.
  - rewrite IH, Nat.add_succ_r. now destruct (p y i).
Qed.

(** A filter whose answer changes once, at index [c]. *)
Lemma filter_from_split (p : A -> nat -> bool) (before after : A -> bool)
    (c : nat) (l : list A) (i : nat) :
  (forall x n, n < c -> p x n = before x) ->
  (forall x n, c <= n -> p x n = after x) ->
  filter_from p l i =
  filter before (firstn (c - i) l) ++ filter after (skipn (c - i) l).
Proof.
  intros Hb Ha.
  rewrite <- (firstn_skipn (c - i) l) at 1.
  rewrite filter_from_app. f_equal.
  - rewrite <- (filter_from_filter before _ i). apply filter_from_ext.
    intros x n Hn. apply Hb.
    assert (n < List.length (firstn (c - i) l))
      by (apply nth_error_Some; congruence).
    rewrite length_firstn in H. lia.
  - rewrite <- (filter_from_filter after _ (i + List.length (firstn (c - i) l))).
    apply filter_from_ext. intros x n Hn. apply Ha.
    rewrite length_firstn.
    assert (n < List.length (skipn (c - i) l))
      by (apply nth_error_Some; congruence).
    rewrite length_skipn in H. lia.
Qed.

Lemma filter_from_nil (p : A -> nat -> bool) (l : list A) (i : nat) :
  (forall x n, nth_error l n = Some x -> p x (i + n) = false) ->
  filter_from p l i = [].
Proof.
  intros H. rewrite (filter_from_ext p (fun _ _ => false)) by exact H.
  rewrite filter_from_filter. clear H. induction l; simpl; auto.
Qed.

Lemma filter_from_all (p : A -> nat -> bool) (l : list A) (i : nat) :
  (forall x n, nth_error l n = Some x -> p x (i + n) = true) ->
  filter_from p l i = l.
Proof.
  intros H. rewrite (filter_from_ext p (fun _ _ => true)) by exact H.
  rewrite filter_from_filter. clear H. induction l; simpl; congruence.
Qed.

Lemma firstn_map_from {B : Type} (f : A -> nat -> B) (l : list A)
    (i k : nat) :
  firstn k (map_from f l i) = map_from f (firstn k l) i.
Proof.
  revert i k; induction l as [|x l IH]; intros i [|k]; simpl;
    try reflexivity.
  now rewrite IH.
Qed.

Lemma filter_filter_from (q : A -> bool) (p : A -> nat -> bool) (l : list A)
    (i : nat) :
  filter q (filter_from p l i) = filter_from (fun x n => p x n && q x) l i.
Proof.
  revert i; induction l as [|x l IH]; intros i; simpl; [reflexivity|].
  destruct (p x i); simpl; [|apply IH].
  destruct (q x); now rewrite IH.
Qed.

Lemma map_from_id (f : A -> nat -> A) (l : list A) (i : nat) :
  (forall x n, nth_error l n = Some x -> f x (i + n) = x) ->
  map_from f l i = l.
Proof.
  revert i; induction l as [|y l IH]; intros i H; simpl; [reflexivity|].
  rewrite IH.
  - specialize (H y 0 eq_refl). rewrite Nat.add_0_r in H. now rewrite H.
  - intros x n Hn. specialize (H x (S n) Hn).
    now rewrite Nat.add_succ_r in H.
Qed.

Lemma filter_false (l : list A) : filter (fun _ => false) l = [].
Proof. induction l; simpl; auto. Qed.

End Indexed.

(** ** The output pass as a filter *)

Section OutputPass.
Context {R : Runtime}.

Lemma processedLines_length (lines : list string) :
  List.length (processedLines lines) = List.length lines.
Proof. apply map_from_length. Qed.

Lemma processedLines_nth_error (lines : list string) (i : nat) :
  nth_error (processedLines lines) i =
  option_map (fun ln => processLine (lastNonZeroCacheLineIndex lines) ln i)
             (nth_error lines i).
Proof. unfold processedLines, mapi. now rewrite map_from_nth_error. Qed.

Lemma processedLines_cons (l : string) (ls : list string) :
  processedLines (l :: ls) =
  processLine (lastNonZeroCacheLineIndex (l :: ls)) l 0
  :: map_from (processLine (lastNonZeroCacheLineIndex (l :: ls))) ls 1.
Proof. reflexivity. Qed.

Lemma session_emit_from (cut : option nat) (ids : JSSet)
    (l : list string) (i : nat) (st : Pruned) :
  1 <= i ->
  forEach_from (Index.emit cut ids) l i st =
  {| outLines := outLines st ++ filter_from (session_keeps cut ids) l i;
     kept := kept st +
       List.length (filter_from
         (fun ln idx => isMsg ln && Index.ge_cut idx cut) l i);
     dropped := dropped st +
       List.length (filter_from
         (fun ln idx => isMsg ln && negb (Index.ge_cut idx cut)) l i) |}.
Proof.
  revert i st; induction l as [|ln l IH]; intros i st Hi; simpl.
  - destruct st; simpl. now rewrite app_nil_r, !Nat.add_0_r.
  - rewrite IH by lia. unfold Index.emit, session_keeps.
    destruct i as [|i]; [lia|]. simpl (S i =? 0)%nat. cbv iota.
    destruct (isMsg ln); simpl.
    + destruct (Index.ge_cut (S i) cut); simpl;
        rewrite <- ?app_assoc; simpl; f_equal; lia.
    + destruct (shouldKeep ids ln); simpl;
        rewrite <- ?app_assoc; simpl; f_equal; lia.
Qed.

Lemma boundary_emit_from (b : Z) (ids : JSSet)
    (l : list string) (i : nat) (st : Pruned) :
  1 <= i ->
  forEach_from (BoundaryDetector.emit b ids) l i st =
  {| outLines := outLines st ++ filter_from (boundary_keeps b ids) l i;
     kept := kept st +
       List.length (filter_from
         (fun ln idx => isMsg ln && (b <=? Z.of_nat idx)%Z) l i);
     dropped := dropped st +
       List.length (filter_from
         (fun ln idx => isMsg ln && negb (b <=? Z.of_nat idx)%Z) l i) |}.
Proof.
  revert i st; induction l as [|ln l IH]; intros i st Hi; simpl.
  - destruct st; simpl. now rewrite app_nil_r, !Nat.add_0_r.
  - rewrite IH by lia. unfold BoundaryDetector.emit, boundary_keeps.
    destruct i as [|i]; [lia|]. simpl (S i =? 0)%nat. cbv iota.
    destruct (b <=? Z.of_nat (S i))%Z; simpl.
    + destruct (isMsg ln); simpl;
        [|destruct (shouldKeep ids ln); simpl];
        rewrite <- ?app_assoc; simpl; f_equal; lia.
    + destruct (isMsg ln); simpl; f_equal; lia.
Qed.

(** The head is skipped by the pass and was pushed before it. *)
Lemma forEach_skip_head {St : Type} (f : St -> string -> nat -> St)
    (l : list string) (st : St) :
  (forall st ln, f st ln 0 = st) ->
  forEach f l st = forEach_from f (skipn 1 l) 1 st.
Proof.
  intros H. destruct l as [|x l]; [reflexivity|].
  unfold forEach; simpl. now rewrite H.
Qed.

Lemma session_run (lines : list string) (keepN : Z) :
  let cut := Index.cut lines keepN in
  let ids := Index.keptToolUseIds lines keepN in
  let after := body (processedLines lines) in
  Index.pruned (Index.pruneSessionLines lines keepN) =
  {| outLines := firstn 1 lines ++ filter_from (session_keeps cut ids) after 1;
     kept := List.length (filter_from
               (fun ln idx => isMsg ln && Index.ge_cut idx cut) after 1);
     dropped := List.length (filter_from
               (fun ln idx => isMsg ln && negb (Index.ge_cut idx cut)) after 1) |}.
Proof.
  intros cut ids after. unfold Index.pruneSessionLines; simpl.
  rewrite forEach_skip_head by reflexivity.
  rewrite session_emit_from by lia. reflexivity.
Qed.

Lemma boundary_run (lines : list string) (b : Z) :
  let ids := BoundaryDetector.keptToolUseIds lines b in
  let after := body (processedLines lines) in
  BoundaryDetector.pruneToBoundary lines b =
  {| outLines := firstn 1 lines ++ filter_from (boundary_keeps b ids) after 1;
     kept := List.length (filter_from
               (fun ln idx => isMsg ln && (b <=? Z.of_nat idx)%Z) after 1);
     dropped := List.length (filter_from
               (fun ln idx => isMsg ln && negb (b <=? Z.of_nat idx)%Z) after 1) |}.
Proof.
  intros ids after. unfold BoundaryDetector.pruneToBoundary.
  rewrite forEach_skip_head by reflexivity.
  rewrite boundary_emit_from by lia. reflexivity.
Qed.

End OutputPass.

(** ** Head preservation *)

(** C2. For a non-empty transcript [l :: ls], the first output line of
    [pruneSessionLines] (for every [keepN]) and of [pruneToBoundary] (for
    every boundary line) is [l] itself, whatever [l] holds: the head is
    pushed before the usage counter is rewritten, so it stays as it is even
    when it is the last cache-bearing record. *)
Theorem head_preservation {R : Runtime}
    (l : string) (ls : list string) (keepN boundaryLineNumber : Z) :
  nth_error (outLines (Index.pruneSessionLines (l :: ls) keepN)) 0 = Some l /\
  nth_error
    (outLines (BoundaryDetector.pruneToBoundary (l :: ls) boundaryLineNumber)) 0
  = Some l.
Proof.
  split.
  - now rewrite session_run.
  - now rewrite boundary_run.
Qed.

(** ** Object members *)

Lemma lookup_app (k : string) (a b : list (string * json)) :
  lookup k (a ++ b) =
  match lookup k b with
  | Some x => Some x
  | None => lookup k a
  end.
Proof.
  induction a as [|[k' v] a IH]; simpl.
  - now destruct (lookup k b).
  - rewrite IH. now destruct (lookup k b).
Qed.

Lemma lookup_map_other (k k' : string) (v : json) (ms : list (string * json)) :
  k' <> k ->
  lookup k' (map (fun m => if String.eqb (fst m) k then (fst m, v) else m) ms)
  = lookup k' ms.
Proof.
  intros Hk. induction ms as [|[k0 v0] ms IH]; simpl; [reflexivity|].
  rewrite IH. destruct (lookup k' ms); [now destruct (String.eqb k0 k)|].
  destruct (String.eqb k0 k) eqn:E; simpl; [|reflexivity].
  apply String.eqb_eq in E; subst k0.
  destruct (String.eqb k' k) eqn:E'; [|reflexivity].
  apply String.eqb_eq in E'. contradiction.
Qed.

Lemma lookup_map_same (k : string) (v : json) (ms : list (string * json)) :
  lookup k (map (fun m => if String.eqb (fst m) k then (fst m, v) else m) ms)
  = match lookup k ms with
    | Some _ => Some v
    | None => None
    end.
Proof.
  induction ms as [|[k0 v0] ms IH]; simpl; [reflexivity|].
  rewrite IH. destruct (lookup k ms); [now destruct (String.eqb k0 k)|].
  rewrite (String.eqb_sym k k0).
  destruct (String.eqb k0 k) eqn:E; simpl; now rewrite String.eqb_sym, E.
Qed.

Lemma lookup_set_member_same (k : string) (v : json)
    (ms : list (string * json)) :
  lookup k (set_member k v ms) = Some v.
Proof.
  unfold set_member. destruct (lookup k ms) eqn:E.
  - now rewrite lookup_map_same, E.
  - rewrite lookup_app; simpl. now rewrite String.eqb_refl.
Qed.

Lemma lookup_set_member_other (k k' : string) (v : json)
    (ms : list (string * json)) :
  k' <> k -> lookup k' (set_member k v ms) = lookup k' ms.
Proof.
  intros Hk. unfold set_member. destruct (lookup k ms).
  - now apply lookup_map_other.
  - rewrite lookup_app; simpl.
    destruct (String.eqb k' k) eqn:E; [|reflexivity].
    apply String.eqb_eq in E. contradiction.
Qed.

Lemma get_assign_other (o : json) (k k' : string) (v : json) :
  k' <> k -> get (assign o k v) k' = get o k'.
Proof.
  intros Hk. destruct o; simpl; try reflexivity.
  now apply lookup_set_member_other.
Qed.

Lemma get_assign_same (ms : list (string * json)) (k : string) (v : json) :
  get (assign (JObj ms) k v) k = Some v.
Proof. simpl. apply lookup_set_member_same. Qed.

Lemma prop_assign_other (o : json) (k k' : string) (v : json) :
  k' <> k -> prop (Some (assign o k v)) k' = prop (Some o) k'.
Proof.
  intros Hk. destruct o; simpl; try reflexivity.
  now rewrite lookup_set_member_other.
Qed.

(** ** The usage-counter rewrite *)

(** The rewrite touches [usage] and [message] only. *)
Lemma zeroCache_prop (obj obj' : json) (k : string) :
  zeroCache obj = Some obj' ->
  k <> "usage" -> k <> "message" ->
  prop (Some obj') k = prop (Some obj) k.
Proof.
  unfold zeroCache, bind. intros H Hu Hm.
  destruct (prop (Some obj) "usage") as [usage|]; [|discriminate].
  destruct (truthy usage).
  - destruct usage as [u|]; [|discriminate].
    destruct (zeroed u); [|discriminate].
    injection H as <-. now apply prop_assign_other.
  - destruct (prop (Some obj) "message") as [message|]; [|discriminate].
    destruct message as [m|]; [|discriminate].
    destruct (optprop (Some m) "usage") as [u|]; [|discriminate].
    destruct (zeroed u); [|discriminate].
    injection H as <-. now apply prop_assign_other.
Qed.

(** On a cache-bearing record the rewrite succeeds and leaves a zero. *)
Lemma zeroCache_zero {R : Runtime} (obj : json) :
  truthy (cacheTokens obj) = true ->
  exists obj', zeroCache obj = Some obj' /\ cacheTokens obj' = Some (JNum 0).
Proof.
  unfold cacheTokens, usageObj, zeroCache, bind, or_else.
  destruct obj as [ | | | | |ms]; try discriminate; simpl.
  destruct (truthy (lookup "usage" ms)) eqn:Hu.
  - destruct (lookup "usage" ms) as [[ | | | | |um]|]; try discriminate;
      simpl; try discriminate.
    intros _. eexists; split; [reflexivity|]. simpl.
    rewrite lookup_set_member_same; simpl.
    now rewrite lookup_set_member_same.
  - destruct (lookup "message" ms) as [[ | | | | |mm]|]; try discriminate;
      simpl; try discriminate.
    destruct (lookup "usage" mm) as [[ | | | | |um]|]; try discriminate;
      simpl; try discriminate.
    intros _. eexists; split; [reflexivity|]. simpl.
    rewrite lookup_set_member_other by discriminate. rewrite Hu.
    rewrite lookup_set_member_same; simpl.
    rewrite lookup_set_member_same; simpl.
    now rewrite lookup_set_member_same.
Qed.

Section Rewrite.
Context {R : Runtime} {L : RuntimeLaws R}.

(** A rewritten line shows the same fields, [usage] and [message] apart. *)
Lemma processLine_field (last : Z) (ln : string) (i : nat) (k : string) :
  k <> "usage" -> k <> "message" ->
  field (processLine last ln i) k = field ln k.
Proof.
  intros Hu Hm. unfold processLine.
  destruct (Z.of_nat i =? last)%Z; [|reflexivity].
  unfold try_catch, bind.
  destruct (JSON_parse ln) as [obj|] eqn:Hp; [|reflexivity].
  destruct (zeroCache obj) as [obj'|] eqn:Hz; [|reflexivity].
  unfold field, bind. rewrite (parse_stringify ln obj obj' Hp Hz), Hp.
  now apply zeroCache_prop.
Qed.

Lemma isMsg_field (ln : string) :
  isMsg ln = MSG_TYPES_has (try_catch (field ln "type") (Some (JStr EmptyString))).
Proof. reflexivity. Qed.

Lemma shouldKeep_field (ids : JSSet) (ln : string) :
  shouldKeep ids ln =
  match field ln "type", field ln "tool_use_id" with
  | Some type, Some id =>
      if (type === "tool_result") && truthy id then Set_has ids id else true
  | _, _ => true
  end.
Proof.
  unfold shouldKeep, field, try_catch, bind.
  destruct (JSON_parse ln) as [obj|]; [|reflexivity].
  destruct (prop (Some obj) "type") as [type|] eqn:Ht.
  - destruct (prop (Some obj) "tool_use_id") as [id|] eqn:Hi.
    + destruct (type === "tool_result"), (truthy id); reflexivity.
    + destruct obj; discriminate.
  - reflexivity.
Qed.

Lemma isMsg_processLine (last : Z) (ln : string) (i : nat) :
  isMsg (processLine last ln i) = isMsg ln.
Proof. rewrite !isMsg_field, processLine_field; [reflexivity|discriminate..]. Qed.

Lemma shouldKeep_processLine (ids : JSSet) (last : Z) (ln : string) (i : nat) :
  shouldKeep ids (processLine last ln i) = shouldKeep ids ln.
Proof.
  rewrite !shouldKeep_field, !processLine_field; [reflexivity|discriminate..].
Qed.

(** Counting through the rewrite. *)
Lemma filter_from_processLine_length (p : string -> nat -> bool) (last : Z)
    (l : list string) (i : nat) :
  (forall ln n, p (processLine last ln n) n = p ln n) ->
  List.length (filter_from p (map_from (processLine last) l i) i) =
  List.length (filter_from p l i).
Proof.
  intros H. revert i; induction l as [|ln l IH]; intros i; simpl;
    [reflexivity|].
  rewrite H. destruct (p ln i); simpl; now rewrite IH.
Qed.

Lemma body_processedLines (lines : list string) :
  body (processedLines lines) =
  map_from (processLine (lastNonZeroCacheLineIndex lines)) (body lines) 1.
Proof. destruct lines; reflexivity. Qed.

End Rewrite.

(** ** A boundary past the end *)

Lemma isMsg_count_processed {R : Runtime} {L : RuntimeLaws R}
    (lines : list string) :
  List.length (filter isMsg (body (processedLines lines))) =
  List.length (filter isMsg (body lines)).
Proof.
  rewrite body_processedLines.
  rewrite <- !(filter_from_filter isMsg _ 1).
  apply filter_from_processLine_length. intros; apply isMsg_processLine.
Qed.

(** C9. When the boundary line lies beyond the last index of a non-empty
    transcript [l :: ls], [pruneToBoundary] returns the head alone, keeps no
    message and counts every message record after the head as dropped. *)
Theorem boundary_past_end {R : Runtime} {L : RuntimeLaws R}
    (l : string) (ls : list string) (boundaryLineNumber : Z) :
  (Z.of_nat (List.length ls) < boundaryLineNumber)%Z ->
  let r := BoundaryDetector.pruneToBoundary (l :: ls) boundaryLineNumber in
  outLines r = [l] /\
  kept r = 0 /\
  dropped r = List.length (filter isMsg ls).
Proof.
  intros Hb r. subst r. rewrite boundary_run.
  assert (Hlen : List.length (body (processedLines (l :: ls))) = List.length ls).
  { unfold body. rewrite length_skipn, processedLines_length. simpl. lia. }
  assert (Hidx : forall (x : string) n,
             nth_error (body (processedLines (l :: ls))) n = Some x ->
             (boundaryLineNumber <=? Z.of_nat (1 + n))%Z = false).
  { intros x n Hn. apply Z.leb_gt.
    assert (n < List.length ls)
      by (rewrite <- Hlen; apply nth_error_Some; congruence).
    lia. }
  cbn [outLines kept dropped]. repeat split.
  - rewrite filter_from_nil; [reflexivity|].
    intros x n Hn. unfold boundary_keeps. now rewrite (Hidx x n Hn).
  - rewrite filter_from_nil; [reflexivity|].
    intros x n Hn. rewrite (Hidx x n Hn). apply andb_false_r.
  - rewrite (filter_from_ext _ (fun ln _ => isMsg ln)).
    + rewrite filter_from_filter. apply (isMsg_count_processed (l :: ls)).
    + intros x n Hn. rewrite (Hidx x n Hn). apply andb_true_r.
Qed.

(** ** The set of surviving invocation ids *)

Lemma SameValueZero_eq (a b : json) : SameValueZero a b = true -> a = b.
Proof.
  destruct a, b; simpl; try discriminate; intros H.
  - reflexivity.
  - apply Bool.eqb_prop in H; now subst.
  - apply Z.eqb_eq in H; now subst.
  - apply String.eqb_eq in H; now subst.
Qed.

Lemma Set_has_In (s : JSSet) (id : json) :
  Set_has s (Some id) = true -> In id s.
Proof.
  simpl. intros H. apply existsb_exists in H as [x [Hx Heq]].
  apply SameValueZero_eq in Heq. now subst.
Qed.

Lemma Set_has_app (s t : JSSet) (v : value) :
  Set_has (s ++ t) v = Set_has s v || Set_has t v.
Proof. destruct v; simpl; [apply existsb_app|reflexivity]. Qed.

Lemma Set_has_add (s : JSSet) (x : json) (v : value) :
  Set_has (Set_add s x) v = Set_has s v || Set_has [x] v.
Proof.
  unfold Set_add. destruct (existsb (SameValueZero x) s) eqn:E.
  - destruct v as [y|]; simpl; [|reflexivity].
    destruct (SameValueZero y x) eqn:Eyx; simpl;
      [|now rewrite !orb_false_r].
    apply SameValueZero_eq in Eyx; subst y. now rewrite E.
  - apply Set_has_app.
Qed.

Lemma Set_add_In (s : JSSet) (x y : json) :
  In y (Set_add s x) -> In y s \/ y = x.
Proof.
  unfold Set_add. destruct (existsb (SameValueZero x) s); [now left|].
  intros H. apply in_app_or in H as [H|[H|[]]]; auto.
Qed.

Lemma add_tool_use_has (item : json) (s : JSSet) (v : value) :
  Set_has (add_tool_use item s) v =
  Set_has s v || Set_has (add_tool_use item []) v.
Proof.
  unfold add_tool_use. destruct (get item "id") as [id|].
  - destruct ((get item "type" === "tool_use") && truthy (Some id)).
    + now rewrite Set_has_add.
    + destruct v; simpl; now rewrite ?orb_false_r.
  - destruct v; simpl; now rewrite ?orb_false_r.
Qed.

Lemma add_tool_uses_cons (item : json) (rest : list json) (s : JSSet) :
  item <> JNull ->
  add_tool_uses (item :: rest) s = add_tool_uses rest (add_tool_use item s).
Proof. destruct item; [contradiction|reflexivity..]. Qed.

Lemma add_tool_uses_has (content : list json) (s : JSSet) (v : value) :
  Set_has (add_tool_uses content s) v =
  Set_has s v || Set_has (add_tool_uses content []) v.
Proof.
  revert s; induction content as [|item content IH]; intros s.
  - destruct v; simpl; now rewrite ?orb_false_r.
  - destruct (json_is_null item) eqn:E.
    + destruct item; try discriminate.
      destruct v; simpl; now rewrite ?orb_false_r.
    + assert (item <> JNull) by (intros ->; discriminate).
      rewrite !add_tool_uses_cons by assumption.
      rewrite IH, (IH (add_tool_use item [])), add_tool_use_has.
      now rewrite orb_assoc.
Qed.

Lemma add_tool_use_In (item : json) (s : JSSet) (x : json) :
  In x (add_tool_use item s) ->
  In x s \/
  (get item "type" === "tool_use") = true /\
  get item "id" = Some x /\ truthy (Some x) = true.
Proof.
  unfold add_tool_use. destruct (get item "id") as [id|]; [|now left].
  destruct ((get item "type" === "tool_use") && truthy (Some id)) eqn:E;
    [|now left].
  apply andb_prop in E as [Ht Hr].
  intros H. apply Set_add_In in H as [H| ->]; [now left|now right].
Qed.

Lemma add_tool_uses_In (content : list json) (s : JSSet) (x : json) :
  In x (add_tool_uses content s) ->
  In x s \/
  exists item, In item content /\
    (get item "type" === "tool_use") = true /\
    get item "id" = Some x /\ truthy (Some x) = true.
Proof.
  revert s; induction content as [|item content IH]; intros s.
  - now left.
  - destruct (json_is_null item) eqn:E.
    + destruct item; try discriminate. now left.
    + assert (item <> JNull) by (intros ->; discriminate).
      rewrite add_tool_uses_cons by assumption. intros Hin.
      apply IH in Hin as [Hin|[it [Hi Hrest]]].
      * apply add_tool_use_In in Hin as [Hin|Hin]; [now left|].
        right. exists item. split; [now left|assumption].
      * right. exists it. split; [now right|assumption].
Qed.

Section Collect.
Context {R : Runtime}.

Lemma add_content_has (obj : json) (s : JSSet) (v : value) :
  Set_has (add_content obj s) v =
  Set_has s v || Set_has (add_content obj []) v.
Proof.
  unfold add_content.
  destruct (get obj "content") as [[ | | | |content| ]|];
    try (destruct v; simpl; now rewrite ?orb_false_r).
  apply add_tool_uses_has.
Qed.

Lemma assistant_ids_has (s : JSSet) (ln : string) (v : value) :
  Set_has (assistant_ids s ln) v =
  Set_has s v || Set_has (assistant_ids [] ln) v.
Proof.
  unfold assistant_ids, try_catch, bind.
  destruct (JSON_parse ln) as [obj|];
    [|destruct v; simpl; now rewrite ?orb_false_r].
  destruct (prop (Some obj) "type") as [type|];
    [|destruct v; simpl; now rewrite ?orb_false_r].
  destruct (type === "assistant");
    [|destruct v; simpl; now rewrite ?orb_false_r].
  apply add_content_has.
Qed.

Lemma prop_get (obj : json) (k : string) (v : value) :
  prop (Some obj) k = Some v -> get obj k = v.
Proof. destruct obj; simpl; congruence. Qed.

(** An id a line contributes is the id of one of its [tool_use] items. *)
Lemma assistant_ids_tool_use (ln : string) (id : json) :
  Set_has (assistant_ids [] ln) (Some id) = true ->
  tool_use_in ln id /\ truthy (Some id) = true.
Proof.
  intros H. apply Set_has_In in H. revert H.
  unfold assistant_ids, try_catch, bind, tool_use_in.
  destruct (JSON_parse ln) as [obj|]; [|intros []].
  destruct (prop (Some obj) "type") as [type|] eqn:Ht; [|intros []].
  destruct (type === "assistant") eqn:Ha; [|intros []].
  unfold add_content.
  destruct (get obj "content") as [[ | | | |content| ]|] eqn:Hc;
    try (intros []).
  intros H. apply add_tool_uses_In in H as [[]|[item [Hi [Hty [Hid Htr]]]]].
  split; [|assumption].
  exists obj, content, item. apply prop_get in Ht. subst type.
  repeat split; assumption.
Qed.

Lemma assistant_ids_isMsg (ln : string) (v : value) :
  Set_has (assistant_ids [] ln) v = true -> isMsg ln = true.
Proof.
  unfold assistant_ids, isMsg, MSG_TYPES_has, try_catch, bind.
  destruct (JSON_parse ln) as [obj|]; [|destruct v; discriminate].
  destruct (prop (Some obj) "type") as [type|]; [|destruct v; discriminate].
  destruct (type === "assistant"); [|destruct v; discriminate].
  intros _. now rewrite orb_true_r.
Qed.

(** The two collecting passes are [assistant_ids] behind a test on the
    index. *)
Lemma session_collect (cut : option nat) (s : JSSet) (ln : string) (idx : nat) :
  Index.collect cut s ln idx =
  if negb (idx =? 0)%nat && Index.ge_cut idx cut
  then assistant_ids s ln else s.
Proof.
  unfold Index.collect, assistant_ids, try_catch, bind.
  destruct (idx =? 0)%nat; [reflexivity|]. cbn [negb andb].
  destruct (JSON_parse ln) as [obj|]; [|now destruct (Index.ge_cut idx cut)].
  destruct (prop (Some obj) "type") as [type|];
    [|now destruct (Index.ge_cut idx cut)].
  destruct (type === "assistant"), (Index.ge_cut idx cut); reflexivity.
Qed.

Lemma boundary_collect (b : Z) (s : JSSet) (ln : string) (idx : nat) :
  BoundaryDetector.collect b s ln idx =
  if negb (idx =? 0)%nat && (b <=? Z.of_nat idx)%Z
  then assistant_ids s ln else s.
Proof.
  unfold BoundaryDetector.collect.
  destruct (idx =? 0)%nat; [reflexivity|]. cbn [negb andb].
  now destruct (b <=? Z.of_nat idx)%Z.
Qed.

(** Membership in the set a collecting pass builds. *)
Lemma collected_has (cond : nat -> bool) (l : list string) (i : nat)
    (s : JSSet) (v : value) :
  Set_has (forEach_from
             (fun s ln idx => if cond idx then assistant_ids s ln else s)
             l i s) v = true <->
  Set_has s v = true \/
  exists n ln, nth_error l n = Some ln /\ cond (i + n) = true /\
               Set_has (assistant_ids [] ln) v = true.
Proof.
  revert i s; induction l as [|x l IH]; intros i s; simpl.
  - split; [now left|]. intros [H|[[|n] [ln [H _]]]]; [assumption|discriminate..].
  - rewrite IH. split.
    + intros [H|[n [ln [H1 [H2 H3]]]]].
      * destruct (cond i) eqn:Hc; [|now left].
        rewrite assistant_ids_has in H. apply orb_prop in H as [H|H];
          [now left|].
        right. exists 0, x. rewrite Nat.add_0_r. auto.
      * right. exists (S n), ln. rewrite Nat.add_succ_r. auto.
    + intros [H|[[|n] [ln [H1 [H2 H3]]]]].
      * left. destruct (cond i); [|assumption].
        rewrite assistant_ids_has, H. reflexivity.
      * injection H1 as ->. rewrite Nat.add_0_r in H2. left.
        rewrite H2, assistant_ids_has, H3. apply orb_true_r.
      * right. exists n, ln. rewrite Nat.add_succ_r in H2. auto.
Qed.

Lemma forEach_from_ext {A St : Type} (f g : St -> A -> nat -> St)
    (l : list A) (i : nat) (st : St) :
  (forall st x n, f st x n = g st x n) ->
  forEach_from f l i st = forEach_from g l i st.
Proof.
  intros H. revert i st; induction l as [|x l IH]; intros i st; simpl;
    [reflexivity|].
  now rewrite H, IH.
Qed.

Lemma session_ids_has (lines : list string) (keepN : Z) (v : value) :
  Set_has (Index.keptToolUseIds lines keepN) v = true <->
  exists idx ln, nth_error lines idx = Some ln /\ 1 <= idx /\
    Index.ge_cut idx (Index.cut lines keepN) = true /\
    Set_has (assistant_ids [] ln) v = true.
Proof.
  unfold Index.keptToolUseIds, forEach.
  rewrite (forEach_from_ext _
    (fun s ln idx =>
       if negb (idx =? 0)%nat && Index.ge_cut idx (Index.cut lines keepN)
       then assistant_ids s ln else s))
    by (intros; apply session_collect).
  rewrite (collected_has
    (fun idx => negb (idx =? 0)%nat
                && Index.ge_cut idx (Index.cut lines keepN))).
  simpl. split.
  - intros [H|[n [ln [H1 [H2 H3]]]]]; [destruct v; discriminate|].
    apply andb_prop in H2 as [H2 H4].
    exists n, ln. repeat split; try assumption.
    destruct n; [discriminate|lia].
  - intros [idx [ln [H1 [H2 [H3 H4]]]]]. right. exists idx, ln.
    repeat split; try assumption.
    rewrite H3. destruct idx; [lia|reflexivity].
Qed.

Lemma boundary_ids_has (lines : list string) (b : Z) (v : value) :
  Set_has (BoundaryDetector.keptToolUseIds lines b) v = true <->
  exists idx ln, nth_error lines idx = Some ln /\ 1 <= idx /\
    (b <=? Z.of_nat idx)%Z = true /\
    Set_has (assistant_ids [] ln) v = true.
Proof.
  unfold BoundaryDetector.keptToolUseIds, forEach.
  rewrite (forEach_from_ext _
    (fun s ln idx =>
       if negb (idx =? 0)%nat && (b <=? Z.of_nat idx)%Z
       then assistant_ids s ln else s))
    by (intros; apply boundary_collect).
  rewrite (collected_has
    (fun idx => negb (idx =? 0)%nat && (b <=? Z.of_nat idx)%Z)).
  simpl. split.
  - intros [H|[n [ln [H1 [H2 H3]]]]]; [destruct v; discriminate|].
    apply andb_prop in H2 as [H2 H4].
    exists n, ln. repeat split; try assumption.
    destruct n; [discriminate|lia].
  - intros [idx [ln [H1 [H2 [H3 H4]]]]]. right. exists idx, ln.
    repeat split; try assumption.
    rewrite H3. destruct idx; [lia|reflexivity].
Qed.

End Collect.

(** ** Referential integrity *)

Section Integrity.
Context {R : Runtime}.

Lemma strict_eq_str_inv (v : value) (s : string) :
  (v === s) = true -> v = Some (JStr s).
Proof.
  destruct v as [[ | | |s'| | ]|]; simpl; try discriminate.
  intros H. apply String.eqb_eq in H. now subst.
Qed.

Lemma tool_result_for_isMsg (ln : string) (id : json) :
  tool_result_for ln id -> isMsg ln = false.
Proof.
  intros [obj [Hp [Ht _]]]. unfold isMsg, try_catch, bind. rewrite Hp.
  apply strict_eq_str_inv in Ht.
  destruct obj; simpl in *; try discriminate. now rewrite Ht.
Qed.

Lemma tool_result_for_shouldKeep (ids : JSSet) (ln : string) (id : json) :
  tool_result_for ln id -> shouldKeep ids ln = Set_has ids (Some id).
Proof.
  intros [obj [Hp [Ht [Hi Htr]]]]. unfold shouldKeep, try_catch, bind.
  rewrite Hp. unfold prop.
  destruct obj; try (cbn in Ht; discriminate).
  now rewrite Ht, Hi, Htr.
Qed.

Lemma body_out (lines : list string) (rest : list string) :
  (lines = [] -> rest = []) ->
  body (firstn 1 lines ++ rest) = rest.
Proof.
  destruct lines; simpl; [|reflexivity]. intros H. now rewrite H.
Qed.

Lemma body_nth_error (lines : list string) (n : nat) :
  nth_error (body lines) n = nth_error lines (S n).
Proof. unfold body. now rewrite nth_error_skipn. Qed.

Lemma filter_from_body_empty (p : string -> nat -> bool)
    (lines : list string) :
  lines = [] -> filter_from p (body (processedLines lines)) 1 = [].
Proof. now intros ->. Qed.

Context {L : RuntimeLaws R}.

Lemma assistant_ids_field (s : JSSet) (ln : string) :
  assistant_ids s ln =
  match field ln "type", field ln "content" with
  | Some type, Some (Some (JArr content)) =>
      if type === "assistant" then add_tool_uses content s else s
  | _, _ => s
  end.
Proof.
  unfold assistant_ids, field, try_catch, bind, add_content.
  destruct (JSON_parse ln) as [obj|]; [|reflexivity].
  destruct obj; simpl; try reflexivity.
  destruct (lookup "type" members === "assistant");
    destruct (lookup "content" members) as [[]|]; reflexivity.
Qed.

Lemma assistant_ids_processLine (s : JSSet) (last : Z) (ln : string) (i : nat) :
  assistant_ids s (processLine last ln i) = assistant_ids s ln.
Proof.
  rewrite !assistant_ids_field, !processLine_field;
    [reflexivity|discriminate..].
Qed.

(** The shape both operations share: after the head, a line stays when
    [keeps] says so; messages stay from the cut on, other lines pass the
    orphan test; and the ids come from the assistant lines from the cut on. *)
Lemma integrity_of_filter (lines : list string) (ids : JSSet)
    (cond : nat -> bool) (keeps : string -> nat -> bool) :
  (forall ln idx, isMsg ln = true -> cond idx = true -> keeps ln idx = true) ->
  (forall ln idx, isMsg ln = false -> keeps ln idx = true ->
                  shouldKeep ids ln = true) ->
  (forall v, Set_has ids v = true ->
     exists idx ln, nth_error lines idx = Some ln /\ 1 <= idx /\
       cond idx = true /\ Set_has (assistant_ids [] ln) v = true) ->
  let out := filter_from keeps (body (processedLines lines)) 1 in
  referential_integrity out out.
Proof.
  intros Hmsg Hother Hids out ln id Hin Hres. subst out.
  apply filter_from_In in Hin as [n [Hn Hk]].
  apply Hother in Hk; [|now apply (tool_result_for_isMsg ln id)].
  rewrite (tool_result_for_shouldKeep ids ln id Hres) in Hk.
  apply Hids in Hk as [idx [a [Ha [Hidx [Hc Hhas]]]]].
  exists (processLine (lastNonZeroCacheLineIndex lines) a idx). split.
  - apply filter_from_In. exists (idx - 1). split.
    + rewrite body_nth_error, processedLines_nth_error.
      replace (S (idx - 1)) with idx by lia. now rewrite Ha.
    + replace (1 + (idx - 1)) with idx by lia. apply Hmsg; [|assumption].
      rewrite isMsg_processLine. now apply (assistant_ids_isMsg a (Some id)).
  - apply assistant_ids_tool_use. now rewrite assistant_ids_processLine.
Qed.

End Integrity.

(** C1, amended. In the output of both operations, every line after the head
    that is a [tool_result] record with a [tool_use_id] set points at a
    [tool_use] item in the [content] array of an assistant record that is
    itself in the output after the head.  The head is emitted unseen and is
    outside the guarantee. *)
Theorem referential_integrity_after_head {R : Runtime} {L : RuntimeLaws R}
    (lines : list string) (keepN boundaryLineNumber : Z) :
  (let out := body (outLines (Index.pruneSessionLines lines keepN)) in
   referential_integrity out out) /\
  (let out := body (outLines (BoundaryDetector.pruneToBoundary lines
                                boundaryLineNumber)) in
   referential_integrity out out).
Proof.
  split.
  - rewrite session_run. cbn [outLines].
    rewrite body_out by apply filter_from_body_empty.
    apply integrity_of_filter
      with (ids := Index.keptToolUseIds lines keepN)
           (cond := fun idx => Index.ge_cut idx (Index.cut lines keepN)).
    + intros ln idx Hm Hc. unfold session_keeps. now rewrite Hm.
    + intros ln idx Hm. unfold session_keeps. now rewrite Hm.
    + intros v. apply session_ids_has.
  - rewrite boundary_run. cbn [outLines].
    rewrite body_out by apply filter_from_body_empty.
    apply integrity_of_filter
      with (ids := BoundaryDetector.keptToolUseIds lines boundaryLineNumber)
           (cond := fun idx => (boundaryLineNumber <=? Z.of_nat idx)%Z).
    + intros ln idx Hm Hc. unfold boundary_keeps. now rewrite Hm, Hc.
    + intros ln idx Hm. unfold boundary_keeps. rewrite Hm. simpl.
      intros H. now apply andb_prop in H as [_ H].
    + intros v. apply boundary_ids_has.
Qed.

(** ** The scope of the orphan filter *)

Section OrphanFilter.
Context {R : Runtime}.

Lemma shouldKeep_orphan (ids : JSSet) (ln : string) :
  shouldKeep ids ln = negb (orphan ids ln).
Proof.
  unfold shouldKeep, orphan, try_catch, bind.
  destruct (JSON_parse ln) as [obj|]; [|reflexivity].
  destruct obj; try reflexivity. cbn [prop get].
  destruct (lookup "type" members === "tool_result"); [|reflexivity].
  destruct (truthy (lookup "tool_use_id" members)); [|reflexivity].
  cbn [andb]. now rewrite negb_involutive.
Qed.

Lemma bare_tool_result_orphan (ids : JSSet) (ln : string) :
  bare_tool_result ln = true -> orphan ids ln = false.
Proof.
  unfold bare_tool_result, orphan.
  destruct (JSON_parse ln) as [obj|]; [|reflexivity].
  intros H. apply andb_prop in H as [-> H].
  apply negb_true_iff in H. now rewrite H.
Qed.

Lemma bare_tool_result_isMsg (ln : string) :
  bare_tool_result ln = true -> isMsg ln = false.
Proof.
  unfold bare_tool_result, isMsg, try_catch, bind.
  destruct (JSON_parse ln) as [obj|]; [|discriminate].
  intros H. apply andb_prop in H as [H _].
  apply strict_eq_str_inv in H.
  destruct obj; try discriminate. cbn [prop]. now rewrite H.
Qed.

Context {L : RuntimeLaws R}.

Lemma session_keeps_processLine (cut : option nat) (ids : JSSet) (last : Z)
    (ln : string) (i idx : nat) :
  session_keeps cut ids (processLine last ln i) idx = session_keeps cut ids ln idx.
Proof.
  unfold session_keeps. now rewrite isMsg_processLine, shouldKeep_processLine.
Qed.

Lemma boundary_keeps_processLine (b : Z) (ids : JSSet) (last : Z)
    (ln : string) (i idx : nat) :
  boundary_keeps b ids (processLine last ln i) idx = boundary_keeps b ids ln idx.
Proof.
  unfold boundary_keeps. now rewrite isMsg_processLine, shouldKeep_processLine.
Qed.

(** A line after the head is emitted, in its rewritten form, as soon as the
    output pass keeps it. *)
Lemma session_emitted (lines : list string) (keepN : Z) (i : nat)
    (ln : string) :
  1 <= i -> nth_error lines i = Some ln ->
  session_keeps (Index.cut lines keepN) (Index.keptToolUseIds lines keepN)
    ln i = true ->
  In (processLine (lastNonZeroCacheLineIndex lines) ln i)
     (outLines (Index.pruneSessionLines lines keepN)).
Proof.
  intros Hi Hn Hk. rewrite session_run. cbn [outLines].
  apply in_or_app; right. apply filter_from_In. exists (i - 1). split.
  - rewrite body_nth_error, processedLines_nth_error.
    replace (S (i - 1)) with i by lia. now rewrite Hn.
  - replace (1 + (i - 1)) with i by lia. now rewrite session_keeps_processLine.
Qed.

Lemma boundary_emitted (lines : list string) (b : Z) (i : nat) (ln : string) :
  1 <= i -> nth_error lines i = Some ln ->
  boundary_keeps b (BoundaryDetector.keptToolUseIds lines b) ln i = true ->
  In (processLine (lastNonZeroCacheLineIndex lines) ln i)
     (outLines (BoundaryDetector.pruneToBoundary lines b)).
Proof.
  intros Hi Hn Hk. rewrite boundary_run. cbn [outLines].
  apply in_or_app; right. apply filter_from_In. exists (i - 1). split.
  - rewrite body_nth_error, processedLines_nth_error.
    replace (S (i - 1)) with i by lia. now rewrite Hn.
  - replace (1 + (i - 1)) with i by lia. now rewrite boundary_keeps_processLine.
Qed.

End OrphanFilter.

(** ** What the collecting pass reads *)

Lemma SameValueZero_findable (a b : json) :
  SameValueZero a b = true -> findable a = true.
Proof. destruct a, b; simpl; try discriminate; reflexivity. Qed.

Lemma SameValueZero_refl (a : json) :
  findable a = true -> SameValueZero a a = true.
Proof.
  destruct a; simpl; try discriminate; intros _.
  - reflexivity.
  - apply Bool.eqb_reflx.
  - apply Z.eqb_refl.
  - apply String.eqb_refl.
Qed.

Lemma Set_has_findable (s : JSSet) (id : json) :
  Set_has s (Some id) = true -> findable id = true.
Proof.
  simpl. intros H. apply existsb_exists in H as [x [_ H]].
  now apply SameValueZero_findable in H.
Qed.

Lemma In_Set_has (s : JSSet) (id : json) :
  findable id = true -> In id s -> Set_has s (Some id) = true.
Proof.
  intros Hf Hin. simpl. apply existsb_exists. exists id.
  split; [assumption|now apply SameValueZero_refl].
Qed.

Lemma tool_use_not_null (item : json) :
  (get item "type" === "tool_use") = true -> item <> JNull.
Proof. intros H ->. discriminate H. Qed.

(** An id in the set after a walk was in it before, or is the id of a
    [tool_use] item that no [null] item precedes. *)
Lemma add_tool_uses_read (content : list json) (s : JSSet) (x : json) :
  In x (add_tool_uses content s) ->
  In x s \/
  exists before item after,
    content = before ++ item :: after /\ ~ In JNull before /\
    (get item "type" === "tool_use") = true /\
    get item "id" = Some x /\ truthy (Some x) = true.
Proof.
  revert s; induction content as [|item content IH]; intros s.
  - now left.
  - destruct (json_is_null item) eqn:E.
    + destruct item; try discriminate. now left.
    + assert (Hnn : item <> JNull) by (intros ->; discriminate).
      rewrite add_tool_uses_cons by assumption. intros Hin.
      apply IH in Hin as [Hin|(before & it & after & -> & Hb & Hrest)].
      * apply add_tool_use_In in Hin as [Hin|Hin]; [now left|].
        right. exists [], item, content. split; [reflexivity|].
        split; [intros []|assumption].
      * right. exists (item :: before), it, after. split; [reflexivity|].
        split; [|assumption].
        intros [H|H]; [now apply Hnn|now apply Hb].
Qed.

(** A [tool_use] item that no [null] item precedes has its id in the set
    after the walk. *)
Lemma add_tool_uses_reads (before : list json) (item : json)
    (after : list json) (s : JSSet) (id : json) :
  ~ In JNull before ->
  (get item "type" === "tool_use") = true ->
  get item "id" = Some id -> truthy (Some id) = true ->
  findable id = true ->
  Set_has (add_tool_uses (before ++ item :: after) s) (Some id) = true.
Proof.
  intros Hb Ht Hi Htr Hf. revert s.
  induction before as [|x before IH]; intros s.
  - cbn [app]. rewrite add_tool_uses_cons by now apply tool_use_not_null.
    rewrite add_tool_uses_has. apply orb_true_iff. left.
    rewrite add_tool_use_has. apply orb_true_iff. right.
    unfold add_tool_use. rewrite Hi, Ht, Htr. cbn [andb].
    apply In_Set_has; [assumption|]. now left.
  - cbn [app]. rewrite add_tool_uses_cons
      by (intros ->; apply Hb; now left).
    apply IH. intros H. apply Hb. now right.
Qed.

Section Reading.
Context {R : Runtime}.

(** A line gives an id to the set exactly when the id is read from it and
    can be found again. *)
Lemma assistant_ids_read (ln : string) (id : json) :
  Set_has (assistant_ids [] ln) (Some id) = true <->
  findable id = true /\ tool_use_read ln id.
Proof.
  split.
  - intros H. split; [now apply (Set_has_findable _ id H)|].
    apply Set_has_In in H. revert H.
    unfold assistant_ids, try_catch, bind, tool_use_read.
    destruct (JSON_parse ln) as [obj|]; [|intros []].
    destruct (prop (Some obj) "type") as [type|] eqn:Ht; [|intros []].
    destruct (type === "assistant") eqn:Ha; [|intros []].
    unfold add_content.
    destruct (get obj "content") as [[ | | | |content| ]|] eqn:Hc;
      try (intros []).
    intros H.
    apply add_tool_uses_read in H
      as [[]|(before & item & after & -> & Hb & Hty & Hid & Htr)].
    exists obj, before, item, after. apply prop_get in Ht. subst type.
    repeat split; assumption.
  - intros [Hf (obj & before & item & after & Hp & Ht & Hc & Hb & Hty & Hid & Htr)].
    unfold assistant_ids, try_catch, bind. rewrite Hp.
    destruct obj; try discriminate Ht. cbn [prop]. rewrite Ht.
    unfold add_content. rewrite Hc.
    now apply add_tool_uses_reads.
Qed.

(** A line with no [null] item gives every id it carries. *)
Lemma read_of_carried (a : string) (id : json) :
  no_null_item a -> tool_use_in a id -> truthy (Some id) = true ->
  tool_use_read a id.
Proof.
  intros Hnn (obj & content & item & Hp & Ht & Hc & Hin & Hty & Hid) Htr.
  apply in_split in Hin as (before & after & ->).
  exists obj, before, item, after. repeat split; try assumption.
  intros Hb. apply (Hnn obj _ Hp Hc). apply in_or_app. now left.
Qed.

Lemma uncarried_of_unread (uses : list string) (ln : string) :
  (forall a, In a uses -> no_null_item a) ->
  unread_result uses ln -> uncarried_result uses ln.
Proof.
  intros Hnn (id & Hres & Hun). exists id. split; [assumption|].
  intros Hf a Ha Hcarried. apply (Hun Hf a Ha).
  apply read_of_carried; [now apply Hnn|assumption|].
  now destruct Hres as (obj & _ & _ & _ & Htr).
Qed.

(** What the orphan test finds is a tool result whose id is not in the
    set. *)
Lemma orphan_tool_result (ids : JSSet) (ln : string) :
  orphan ids ln = true <->
  exists id, tool_result_for ln id /\ Set_has ids (Some id) = false.
Proof.
  unfold orphan, tool_result_for. split.
  - destruct (JSON_parse ln) as [obj|]; [|discriminate].
    intros H. apply andb_prop in H as [H Hs]. apply andb_prop in H as [Ht Htr].
    destruct (get obj "tool_use_id") as [id|] eqn:Hi; [|discriminate].
    exists id. split; [|now apply negb_true_iff in Hs].
    exists obj. repeat split; assumption.
  - intros (id & (obj & Hp & Ht & Hi & Htr) & Hs).
    now rewrite Hp, Ht, Hi, Htr, Hs.
Qed.

Context {L : RuntimeLaws R}.

(** The shape both operations share, read the other way: a result the
    orphan test finds was read from no assistant line of the output. *)
Lemma unread_of_filter (lines : list string) (ids : JSSet)
    (cond : nat -> bool) (keeps : string -> nat -> bool) :
  (forall ln idx, isMsg ln = true -> keeps ln idx = true -> cond idx = true) ->
  (forall v idx ln, nth_error lines idx = Some ln -> 1 <= idx ->
     cond idx = true -> Set_has (assistant_ids [] ln) v = true ->
     Set_has ids v = true) ->
  forall ln, orphan ids ln = true ->
  unread_result (filter_from keeps (body (processedLines lines)) 1) ln.
Proof.
  intros Hmsg Hids ln Ho.
  apply orphan_tool_result in Ho as (id & Hres & Hs).
  exists id. split; [assumption|]. intros Hf a Hin Hread.
  apply filter_from_In in Hin as [n [Hn Hk]].
  rewrite body_nth_error, processedLines_nth_error in Hn.
  destruct (nth_error lines (S n)) as [a0|] eqn:Ha0; [|discriminate].
  injection Hn as <-.
  assert (Hout : Set_has (assistant_ids []
                            (processLine (lastNonZeroCacheLineIndex lines)
                               a0 (S n))) (Some id) = true)
    by (apply assistant_ids_read; now split).
  pose proof Hout as Hhas. rewrite assistant_ids_processLine in Hhas.
  assert (Hc : cond (1 + n) = true).
  { apply (Hmsg _ _ (assistant_ids_isMsg _ (Some id) Hout) Hk). }
  rewrite (Hids (Some id) (S n) a0 Ha0 ltac:(lia) Hc Hhas) in Hs.
  discriminate.
Qed.

(** When every assistant line after the head is read, the output pass
    leaves out exactly the results that were read from none of them. *)
Lemma kept_after_unread (lines : list string) (ids : JSSet) :
  (forall v, Set_has ids v = true <->
     exists idx ln, nth_error lines idx = Some ln /\ 1 <= idx /\
       Set_has (assistant_ids [] ln) v = true) ->
  forall ln, kept_after ids ln = false <-> unread_result (body lines) ln.
Proof.
  intros Hids ln. unfold kept_after. split.
  - intros H. apply orb_false_iff in H as [_ H].
    rewrite shouldKeep_orphan in H. apply negb_false_iff in H.
    apply orphan_tool_result in H as (id & Hres & Hs).
    exists id. split; [assumption|]. intros Hf a Hin Hread.
    apply In_nth_error in Hin as [n Hn]. rewrite body_nth_error in Hn.
    assert (Set_has ids (Some id) = true); [|congruence].
    apply Hids. exists (S n), a. split; [assumption|]. split; [lia|].
    apply assistant_ids_read. now split.
  - intros (id & Hres & Hun).
    rewrite (tool_result_for_isMsg ln id Hres).
    rewrite (tool_result_for_shouldKeep ids ln id Hres). cbn [orb].
    destruct (Set_has ids (Some id)) eqn:Hs; [exfalso|reflexivity].
    pose proof (Set_has_findable _ _ Hs) as Hf.
    apply Hids in Hs as (idx & a & Hn & Hidx & Hhas).
    apply assistant_ids_read in Hhas as [_ Hread].
    apply (Hun Hf a); [|assumption].
    destruct idx as [|idx]; [lia|].
    rewrite <- body_nth_error in Hn. now apply nth_error_In in Hn.
Qed.

End Reading.

Lemma head_emitted {R : Runtime} (lines : list string) (ln : string)
    (rest : list string) :
  nth_error lines 0 = Some ln -> In ln (firstn 1 lines ++ rest).
Proof.
  destruct lines as [|l ls]; [discriminate|].
  intros H. injection H as ->. now left.
Qed.

Section Unread.
Context {R : Runtime} {L : RuntimeLaws R}.

(** A result that the orphan test of either operation finds was read from
    no assistant record of that operation's output. *)
Lemma session_orphan_unread (lines : list string) (keepN : Z) (ln : string) :
  orphan (Index.keptToolUseIds lines keepN) ln = true ->
  unread_result (body (outLines (Index.pruneSessionLines lines keepN))) ln.
Proof.
  rewrite session_run. cbn [outLines].
  rewrite body_out by apply filter_from_body_empty.
  apply unread_of_filter
    with (cond := fun idx => Index.ge_cut idx (Index.cut lines keepN)).
  - intros x idx Hm. unfold session_keeps. now rewrite Hm.
  - intros v idx x Hx Hidx Hc Hhas. apply session_ids_has.
    exists idx, x. auto.
Qed.

Lemma boundary_orphan_unread (lines : list string) (b : Z) (ln : string) :
  orphan (BoundaryDetector.keptToolUseIds lines b) ln = true ->
  unread_result (body (outLines (BoundaryDetector.pruneToBoundary lines b))) ln.
Proof.
  rewrite boundary_run. cbn [outLines].
  rewrite body_out by apply filter_from_body_empty.
  apply unread_of_filter
    with (cond := fun idx => (b <=? Z.of_nat idx)%Z).
  - intros x idx Hm. unfold boundary_keeps. rewrite Hm.
    intros H. now apply andb_prop in H as [H _].
  - intros v idx x Hx Hidx Hc Hhas. apply boundary_ids_has.
    exists idx, x. auto.
Qed.

End Unread.


(** ** The usage counter *)

Section UsageCounter.
Context {R : Runtime}.

(** The scan returns the index of the last cache-bearing line. *)
Lemma last_from_spec (l : list string) (i : nat) (last : Z) :
  let r := forEach_from
             (fun last ln i => if cacheBearing ln then Z.of_nat i else last)
             l i last in
  (r = last /\
   forall n ln, nth_error l n = Some ln -> cacheBearing ln = false) \/
  (exists n ln, r = Z.of_nat (i + n) /\ nth_error l n = Some ln /\
                cacheBearing ln = true).
Proof.
  revert i last; induction l as [|x l IH]; intros i last; cbn [forEach_from].
  - left. split; [reflexivity|]. intros [|n] ln H; discriminate.
  - destruct (IH (S i) (if cacheBearing x then Z.of_nat i else last))
      as [[Hr Hnone]|[n [ln [Hr [Hn Hc]]]]].
    + destruct (cacheBearing x) eqn:Hx.
      * right. exists 0, x. rewrite Nat.add_0_r. auto.
      * left. split; [assumption|].
        intros [|n] ln H; [injection H as <-; assumption|].
        now apply (Hnone n).
    + right. exists (S n), ln. rewrite Nat.add_succ_r. auto.
Qed.

Lemma last_cache_line (lines : list string) (j : nat) (ln : string) :
  lastNonZeroCacheLineIndex lines = Z.of_nat j ->
  nth_error lines j = Some ln ->
  cacheBearing ln = true.
Proof.
  unfold lastNonZeroCacheLineIndex, forEach. intros Hj Hn.
  destruct (last_from_spec lines 0 (-1)%Z) as [[Hr _]|[n [l' [Hr [Hn' Hc]]]]].
  - rewrite Hr in Hj. lia.
  - rewrite Hr in Hj. simpl in Hj. apply Nat2Z.inj in Hj. subst n.
    congruence.
Qed.

Lemma last_from_none (l : list string) (i : nat) (last : Z) :
  (forall n ln, nth_error l n = Some ln -> cacheBearing ln = false) ->
  forEach_from (fun last ln i => if cacheBearing ln then Z.of_nat i else last)
    l i last = last.
Proof.
  revert i last; induction l as [|x l IH]; intros i last H; cbn [forEach_from];
    [reflexivity|].
  rewrite (H 0 x eq_refl). apply IH. intros n ln Hn. now apply (H (S n)).
Qed.

Lemma last_from_found (l : list string) (i : nat) (last : Z) (j : nat)
    (ln : string) :
  nth_error l j = Some ln -> cacheBearing ln = true ->
  (forall m lm, j < m -> nth_error l m = Some lm -> cacheBearing lm = false) ->
  forEach_from (fun last ln i => if cacheBearing ln then Z.of_nat i else last)
    l i last = Z.of_nat (i + j).
Proof.
  revert i last j; induction l as [|x l IH]; intros i last [|j] Hn Hc Hafter;
    try discriminate; cbn [forEach_from].
  - injection Hn as ->. rewrite Hc, Nat.add_0_r. apply last_from_none.
    intros n l' Hn'. apply (Hafter (S n)); [lia|assumption].
  - rewrite (IH (S i) _ j); [f_equal; lia|assumption..|].
    intros m lm Hm Hl. apply (Hafter (S m)); [lia|assumption].
Qed.

(** The scan finds the last cache-bearing line. *)
Lemma last_cache_index (lines : list string) (j : nat) (ln : string) :
  nth_error lines j = Some ln -> cacheBearing ln = true ->
  (forall m lm, j < m -> nth_error lines m = Some lm ->
                cacheBearing lm = false) ->
  lastNonZeroCacheLineIndex lines = Z.of_nat j.
Proof.
  intros. unfold lastNonZeroCacheLineIndex, forEach.
  now rewrite (last_from_found lines 0 (-1)%Z j ln).
Qed.

Lemma cacheBearing_parse (ln : string) :
  cacheBearing ln = true -> exists obj, JSON_parse ln = Some obj.
Proof.
  unfold cacheBearing, try_catch, bind.
  destruct (JSON_parse ln) as [obj|]; [eauto|discriminate].
Qed.

Lemma cacheBearing_tokens (ln : string) (obj : json) :
  cacheBearing ln = true -> JSON_parse ln = Some obj ->
  truthy (cacheTokens obj) = true.
Proof.
  unfold cacheBearing, cacheTokens, try_catch, bind. intros H Hp.
  rewrite Hp in H. destruct (usageObj obj); [|discriminate].
  now apply andb_prop in H as [H _].
Qed.

(** The line the scan found is rewritten with a zero at its counter. *)
Lemma processLine_last (lines : list string) (j : nat) (ln : string) (obj : json) :
  lastNonZeroCacheLineIndex lines = Z.of_nat j ->
  nth_error lines j = Some ln ->
  JSON_parse ln = Some obj ->
  exists obj',
    zeroCache obj = Some obj' /\
    cacheTokens obj' = Some (JNum 0) /\
    processLine (lastNonZeroCacheLineIndex lines) ln j = JSON_stringify obj'.
Proof.
  intros Hj Hn Hp.
  pose proof (cacheBearing_tokens ln obj (last_cache_line lines j ln Hj Hn) Hp)
    as Ht.
  destruct (zeroCache_zero obj Ht) as [obj' [Hz H0]].
  exists obj'. repeat split; try assumption.
  unfold processLine, try_catch, bind. now rewrite Hj, Z.eqb_refl, Hp, Hz.
Qed.

End UsageCounter.

Section Recognised.
Context {R : Runtime}.

(** The scan's test, in the words of the statements. *)
Lemma cacheBearing_iff (ln : string) :
  cacheBearing ln = true <-> cache_bearing ln.
Proof.
  unfold cacheBearing, cache_bearing, usageObj, usage_read, try_catch, bind,
    or_else.
  destruct (JSON_parse ln) as [obj|];
    [|split; [discriminate|intros (? & ? & H & _); discriminate H]].
  split.
  - destruct obj as [ | | | | |ms]; try discriminate. cbn [prop get optprop].
    destruct (truthy (lookup "usage" ms)) eqn:Hu.
    + destruct (lookup "usage" ms) as [u|] eqn:Hl; [|discriminate].
      destruct u; try discriminate; cbn [optprop get];
        try (cbn; discriminate); intros H; apply andb_prop in H as [Ht Hg];
        eexists _, _; (split; [reflexivity|]);
        (split; [left; split; [exact Hl|exact Hu]|]); split; assumption.
    + destruct (lookup "message" ms) as [m|] eqn:Hm; [|cbn; discriminate].
      destruct m as [ | | | | |mm]; cbn [optprop get]; try (cbn; discriminate).
      destruct (lookup "usage" mm) as [u|] eqn:Hl; [|cbn; discriminate].
      destruct u; cbn [optprop get]; try (cbn; discriminate);
        intros H; apply andb_prop in H as [Ht Hg];
        eexists _, _; (split; [reflexivity|]);
        (split; [right; split; [exact Hu|];
                 eexists; split; [exact Hm|exact Hl]|]); split; assumption.
  - intros (obj' & u & Hp & Hr & Ht & Hg). injection Hp as <-.
    assert (Hu : exists um, u = JObj um).
    { destruct u; try discriminate Ht. eauto. }
    destruct Hu as [um ->].
    destruct Hr as [[Hl Hu]|[Hu (m & Hm & Hl)]].
    + destruct obj as [ | | | | |ms]; try discriminate Hl.
      cbn [prop get optprop] in *. rewrite Hl. cbn [truthy optprop get].
      cbn [get] in Ht, Hg. now rewrite Ht, Hg.
    + destruct obj as [ | | | | |ms]; try discriminate Hm.
      cbn [prop get optprop] in *. rewrite Hu, Hm.
      destruct m as [ | | | | |mm]; try discriminate Hl.
      cbn [optprop get] in *. rewrite Hl. cbn [optprop get].
      cbn [get] in Ht, Hg. now rewrite Ht, Hg.
Qed.

Lemma updated_assign (ms : list (string * json)) (k : string) (v : json) :
  updated (JObj ms) k v (assign (JObj ms) k v).
Proof.
  split; [apply get_assign_same|].
  intros k' Hk. now apply get_assign_other.
Qed.

(** On a record the scan takes as cache-bearing the rewrite succeeds, and
    changes the counter it read and nothing else. *)
Lemma zeroCache_reset (obj u : json) :
  usage_read obj u -> truthy (get u "cache_read_input_tokens") = true ->
  exists obj', zeroCache obj = Some obj' /\ counter_reset obj obj'.
Proof.
  intros Hr Ht.
  assert (Hu : exists um, u = JObj um)
    by (destruct u; try discriminate Ht; eauto).
  destruct Hu as [um ->].
  destruct Hr as [[Hl Hu]|[Hu (m & Hm & Hl)]].
  - destruct obj as [ | | | | |ms]; try discriminate Hl.
    exists (assign (JObj ms) "usage"
              (assign (JObj um) "cache_read_input_tokens" (JNum 0))).
    split.
    + unfold zeroCache, bind. cbn [prop]. now rewrite Hl, Hu.
    + left. eexists _, _. split; [exact Hl|]. split; [exact Hu|].
      split; apply updated_assign.
  - destruct obj as [ | | | | |ms]; try discriminate Hm.
    destruct m as [ | | | | |mm]; try discriminate Hl.
    exists (assign (JObj ms) "message"
              (assign (JObj mm) "usage"
                 (assign (JObj um) "cache_read_input_tokens" (JNum 0)))).
    split.
    + unfold zeroCache, bind. cbn [prop]. rewrite Hu, Hm.
      cbn [optprop]. now rewrite Hl.
    + right. split; [exact Hu|].
      eexists _, _, _, _. split; [exact Hm|]. split; [exact Hl|].
      split; [apply updated_assign|]. split; apply updated_assign.
Qed.

End Recognised.

(** C4, amended. The scan reads one usage object off a record, its [usage]
    when that is truthy and else the [usage] of its [message], and takes the
    record as cache-bearing when that object has a [cache_read_input_tokens]
    that is set and greater than 0.  Let line [j], [j >= 1], be the last
    line of the input that is cache-bearing in this sense.  In both
    operations, if that record is a message record at or after the cut, or
    is not a message record, is not a [tool_result] whose [tool_use_id] was
    read from no assistant record of the output (the results the orphan
    filter drops) and, for [pruneToBoundary], is at or after the boundary,
    then the output holds the record serialized again with that counter set
    to [0] and no other field changed.  The head is emitted as it was
    read. *)
Theorem usage_counter_zeroed {R : Runtime} {L : RuntimeLaws R}
    (lines : list string) (keepN boundaryLineNumber : Z)
    (j : nat) (ln : string) :
  nth_error lines j = Some ln ->
  cache_bearing ln ->
  (forall m lm, j < m -> nth_error lines m = Some lm -> ~ cache_bearing lm) ->
  1 <= j ->
  let session := outLines (Index.pruneSessionLines lines keepN) in
  let boundary :=
    outLines (BoundaryDetector.pruneToBoundary lines boundaryLineNumber) in
  exists obj obj',
    JSON_parse ln = Some obj /\
    counter_reset obj obj' /\
    JSON_parse (JSON_stringify obj') = Some obj' /\
    ((isMsg ln = true /\ Index.ge_cut j (Index.cut lines keepN) = true \/
      isMsg ln = false /\ ~ unread_result (body session) ln) ->
     In (JSON_stringify obj') session) /\
    ((boundaryLineNumber <= Z.of_nat j)%Z ->
     (isMsg ln = true \/ ~ unread_result (body boundary) ln) ->
     In (JSON_stringify obj') boundary).
Proof.
  intros Hn Hc Hafter H1 session boundary.
  assert (Hj : lastNonZeroCacheLineIndex lines = Z.of_nat j).
  { apply (last_cache_index lines j ln Hn); [now apply cacheBearing_iff|].
    intros m lm Hm Hl. destruct (cacheBearing lm) eqn:E; [|reflexivity].
    exfalso. apply (Hafter m lm Hm Hl). now apply cacheBearing_iff. }
  destruct Hc as (obj & u & Hp & Hr & Ht & _).
  destruct (zeroCache_reset obj u Hr Ht) as [obj' [Hz Hreset]].
  assert (Hl : processLine (lastNonZeroCacheLineIndex lines) ln j
               = JSON_stringify obj').
  { unfold processLine, try_catch, bind. now rewrite Hj, Z.eqb_refl, Hp, Hz. }
  exists obj, obj'. split; [exact Hp|]. split; [exact Hreset|].
  split; [exact (parse_stringify ln obj obj' Hp Hz)|]. split.
  - intros Hs. rewrite <- Hl. apply session_emitted; try assumption.
    unfold session_keeps. rewrite shouldKeep_orphan.
    destruct Hs as [[-> ->]|[-> Hs]]; [reflexivity|].
    destruct (orphan (Index.keptToolUseIds lines keepN) ln) eqn:Ho;
      [|reflexivity].
    exfalso. now apply Hs, session_orphan_unread.
  - intros Hb Hs. rewrite <- Hl. apply boundary_emitted; try assumption.
    unfold boundary_keeps. apply Z.leb_le in Hb. rewrite Hb, shouldKeep_orphan.
    destruct Hs as [->|Hs]; [reflexivity|].
    destruct (orphan (BoundaryDetector.keptToolUseIds lines boundaryLineNumber)
                ln) eqn:Ho; [|apply orb_true_r].
    exfalso. now apply Hs, boundary_orphan_unread.
Qed.

(** ** Lines before the cut *)

Section BeforeCut.
Context {R : Runtime} {L : RuntimeLaws R}.

Lemma isMsg_count_firstn (lines : list string) (k : nat) :
  List.length (filter isMsg (firstn k (body (processedLines lines)))) =
  List.length (filter isMsg (firstn k (body lines))).
Proof.
  rewrite body_processedLines, firstn_map_from.
  rewrite <- !(filter_from_filter isMsg _ 1).
  apply filter_from_processLine_length. intros; apply isMsg_processLine.
Qed.

Lemma session_before_after (c : nat) (ids : JSSet) (l : list string) :
  filter_from (session_keeps (Some c) ids) l 1 =
  filter (kept_before ids) (firstn (c - 1) l)
  ++ filter (kept_after ids) (skipn (c - 1) l).
Proof.
  apply filter_from_split; intros x n Hn;
    unfold session_keeps, kept_before, kept_after, Index.ge_cut.
  - apply Nat.leb_gt in Hn. rewrite Hn. now destruct (isMsg x).
  - apply Nat.leb_le in Hn. rewrite Hn. now destruct (isMsg x).
Qed.

Lemma boundary_after (b : Z) (ids : JSSet) (l : list string) :
  filter_from (boundary_keeps b ids) l 1 =
  filter (kept_after ids) (skipn (Z.to_nat b - 1) l).
Proof.
  rewrite (filter_from_split _ (fun _ => false) (kept_after ids)
             (Z.to_nat b)).
  - now rewrite filter_false.
  - intros x n Hn. unfold boundary_keeps.
    assert ((b <=? Z.of_nat n)%Z = false) as -> by (apply Z.leb_gt; lia).
    reflexivity.
  - intros x n Hn. unfold boundary_keeps, kept_after.
    assert ((b <=? Z.of_nat n)%Z = true) as -> by (apply Z.leb_le; lia).
    reflexivity.
Qed.

Lemma dropped_before (c : nat) (l : list string) :
  filter_from (fun ln idx => isMsg ln && negb (c <=? idx)%nat) l 1 =
  filter isMsg (firstn (c - 1) l).
Proof.
  rewrite (filter_from_split _ isMsg (fun _ => false) c).
  - now rewrite filter_false, app_nil_r.
  - intros x n Hn. apply Nat.leb_gt in Hn. rewrite Hn. apply andb_true_r.
  - intros x n Hn. apply Nat.leb_le in Hn. rewrite Hn. apply andb_false_r.
Qed.

Lemma dropped_before_Z (b : Z) (l : list string) :
  filter_from (fun ln idx => isMsg ln && negb (b <=? Z.of_nat idx)%Z) l 1 =
  filter isMsg (firstn (Z.to_nat b - 1) l).
Proof.
  rewrite <- dropped_before. apply filter_from_ext. intros x n _.
  f_equal. f_equal.
  destruct (Z.leb_spec b (Z.of_nat (1 + n)));
    destruct (Nat.leb_spec (Z.to_nat b) (1 + n)); try reflexivity; lia.
Qed.

End BeforeCut.


(** ** [keepN = 0] *)

Lemma cutFrom_zero (assistantIndexes : list nat) (keepN : Z) :
  (keepN <= 0)%Z -> 0 < List.length assistantIndexes ->
  Index.cutFrom assistantIndexes keepN = None.
Proof.
  intros Hk Ha. unfold Index.cutFrom.
  replace (Z.max 0 keepN) with 0%Z by lia.
  assert ((0 <? Z.of_nat (List.length assistantIndexes))%Z = true) as ->
    by (apply Z.ltb_lt; lia).
  apply nth_error_None. lia.
Qed.

(** C5, amended. For [keepN = 0] (or negative) on an input with at least one
    assistant record after the head, the cut is read one past the end of the
    array of assistant indexes and is undefined: no index is at or after it.
    No message record after the head is emitted, [kept] is [0] and [dropped]
    counts every message record after the head. *)
Theorem keep_zero_drops_every_message {R : Runtime} {L : RuntimeLaws R}
    (lines : list string) (keepN : Z) :
  (keepN <= 0)%Z ->
  0 < Index.assistantCount (Index.pruneSessionLines lines keepN) ->
  let r := Index.pruneSessionLines lines keepN in
  Index.cut lines keepN = None /\
  kept r = 0 /\
  dropped r = List.length (filter isMsg (body lines)) /\
  (forall ln, In ln (body (outLines r)) -> isMsg ln = false).
Proof.
  intros Hk Ha r.
  assert (Hcut : Index.cut lines keepN = None)
    by (apply cutFrom_zero; assumption).
  subst r. rewrite session_run. cbn [outLines kept dropped]. rewrite Hcut.
  repeat split.
  - rewrite filter_from_nil; [reflexivity|]. intros; apply andb_false_r.
  - rewrite (filter_from_ext _ (fun ln _ => isMsg ln))
      by (intros; apply andb_true_r).
    rewrite filter_from_filter. apply isMsg_count_processed.
  - rewrite body_out by apply filter_from_body_empty.
    intros ln Hin. apply filter_from_In in Hin as [n [_ Hkeep]].
    unfold session_keeps in Hkeep. now destruct (isMsg ln).
Qed.

(** ** A second run *)

Section SecondRun.
Context {R : Runtime} {L : RuntimeLaws R}.

Lemma cutFrom_all (assistantIndexes : list nat) (keepN : Z) :
  (Z.of_nat (List.length assistantIndexes) <= keepN)%Z ->
  Index.cutFrom assistantIndexes keepN = Some 0.
Proof.
  intros H. unfold Index.cutFrom.
  assert ((Z.max 0 keepN <? Z.of_nat (List.length assistantIndexes))%Z = false)
    as -> by (apply Z.ltb_ge; lia).
  reflexivity.
Qed.

Lemma shouldKeep_mono (ids ids' : JSSet) (ln : string) :
  (forall v, Set_has ids v = true -> Set_has ids' v = true) ->
  shouldKeep ids ln = true -> shouldKeep ids' ln = true.
Proof.
  intros H. rewrite !shouldKeep_field.
  destruct (field ln "type") as [type|]; [|reflexivity].
  destruct (field ln "tool_use_id") as [id|]; [|reflexivity].
  destruct ((type === "tool_result") && truthy id); [apply H|reflexivity].
Qed.

(** The ids that survive the first run survive a second run over its
    output that keeps every assistant record. *)
Lemma second_run_ids (lines : list string) (keepN keepN' : Z) (v : value) :
  let out := outLines (Index.pruneSessionLines lines keepN) in
  Index.cut out keepN' = Some 0 ->
  Set_has (Index.keptToolUseIds lines keepN) v = true ->
  Set_has (Index.keptToolUseIds out keepN') v = true.
Proof.
  intros out Hcut Hhas.
  apply session_ids_has in Hhas as [idx [ln [Hn [Hidx [Hge Hids]]]]].
  assert (Hin : In (processLine (lastNonZeroCacheLineIndex lines) ln idx)
                   (body out)).
  { subst out. rewrite session_run. cbn [outLines].
    rewrite body_out by apply filter_from_body_empty.
    apply filter_from_In. exists (idx - 1). split.
    - rewrite body_nth_error, processedLines_nth_error.
      replace (S (idx - 1)) with idx by lia. now rewrite Hn.
    - replace (1 + (idx - 1)) with idx by lia.
      rewrite session_keeps_processLine. unfold session_keeps.
      now rewrite (assistant_ids_isMsg ln v Hids). }
  apply In_nth_error in Hin as [n Hn'].
  rewrite body_nth_error in Hn'.
  apply session_ids_has.
  exists (S n), (processLine (lastNonZeroCacheLineIndex lines) ln idx).
  split; [exact Hn'|].
  rewrite Hcut. repeat split; [lia|].
  now rewrite assistant_ids_processLine.
Qed.

Lemma second_run_keeps (lines : list string) (keepN keepN' : Z)
    (x : string) (n : nat) :
  let out := outLines (Index.pruneSessionLines lines keepN) in
  Index.cut out keepN' = Some 0 ->
  nth_error (body (processedLines out)) n = Some x ->
  session_keeps (Some 0) (Index.keptToolUseIds out keepN') x (1 + n) = true.
Proof.
  intros out Hcut Hn.
  rewrite body_nth_error, processedLines_nth_error in Hn.
  destruct (nth_error out (S n)) as [q|] eqn:Hq; [|discriminate].
  injection Hn as <-. rewrite session_keeps_processLine.
  unfold session_keeps. destruct (isMsg q) eqn:Hm; [reflexivity|].
  assert (Hin : In q (body out))
    by (apply (nth_error_In _ n); now rewrite body_nth_error).
  subst out. rewrite session_run in Hin. cbn [outLines] in Hin.
  rewrite body_out in Hin by apply filter_from_body_empty.
  apply filter_from_In in Hin as [m [_ Hk]].
  unfold session_keeps in Hk. rewrite Hm in Hk.
  revert Hk. apply shouldKeep_mono.
  intros v. now apply second_run_ids.
Qed.

Lemma kept_of_output (lines : list string) (keepN : Z) :
  let r := Index.pruneSessionLines lines keepN in
  List.length (filter isMsg (body (outLines r))) = kept r.
Proof.
  cbv zeta. rewrite session_run. cbn [outLines kept].
  rewrite body_out by apply filter_from_body_empty.
  rewrite filter_filter_from. f_equal. apply filter_from_ext.
  intros x n _. unfold session_keeps.
  destruct (isMsg x); [apply andb_true_r|apply andb_false_r].
Qed.

Lemma no_cache_after_head (lines : list string) :
  (forall ln, In ln (body lines) -> cacheBearing ln = false) ->
  body (processedLines lines) = body lines.
Proof.
  intros H. rewrite body_processedLines. apply map_from_id.
  intros x n Hn. unfold processLine.
  destruct (Z.eqb_spec (Z.of_nat (1 + n)) (lastNonZeroCacheLineIndex lines))
    as [E|]; [|reflexivity].
  symmetry in E.
  assert (Hx : nth_error lines (1 + n) = Some x)
    by (now rewrite <- body_nth_error).
  pose proof (last_cache_line lines (1 + n) x E Hx) as Hc.
  rewrite H in Hc; [discriminate|].
  now apply (nth_error_In _ n).
Qed.

End SecondRun.

(** C6, amended. Let [out] be the output of a first run with [keepN], and let
    [keepN] be at least the number of assistant records of [out] after its
    head.  A second run with [keepN] over [out] emits the head of [out] and
    then every other line of [out] with the usage-counter rewrite of [out]
    applied, keeps as many messages as the first run kept and drops none.
    Its lines are those of [out] when no line of [out] after the head is
    cache-bearing; otherwise the last such line loses its counter in the
    second run. *)
Theorem second_run_same_keepN {R : Runtime} {L : RuntimeLaws R}
    (lines : list string) (keepN : Z) :
  let first := Index.pruneSessionLines lines keepN in
  let out := outLines first in
  let second := Index.pruneSessionLines out keepN in
  (Z.of_nat (List.length (Index.assistantIndexes out)) <= keepN)%Z ->
  outLines second = firstn 1 out ++ body (processedLines out) /\
  kept second = kept first /\
  dropped second = 0 /\
  ((forall ln, In ln (body out) -> cacheBearing ln = false) ->
   outLines second = out).
Proof.
  intros first out second Hk.
  assert (Hcut : Index.cut out keepN = Some 0) by now apply cutFrom_all.
  assert (Hout : outLines second = firstn 1 out ++ body (processedLines out)).
  { subst second. rewrite session_run. cbn [outLines]. f_equal.
    rewrite Hcut. apply filter_from_all. intros x n Hn.
    now apply (second_run_keeps lines keepN keepN). }
  repeat split.
  - exact Hout.
  - subst second. rewrite session_run. cbn [kept]. rewrite Hcut.
    rewrite (filter_from_ext _ (fun ln _ => isMsg ln))
      by (intros; apply andb_true_r).
    rewrite filter_from_filter, isMsg_count_processed.
    apply kept_of_output.
  - subst second. rewrite session_run. cbn [dropped]. rewrite Hcut.
    rewrite filter_from_nil; [reflexivity|]. intros; apply andb_false_r.
  - intros Hnone. rewrite Hout, no_cache_after_head by assumption.
    apply firstn_skipn.
Qed.

(** ** The order of the boundaries *)

Section Sorting.
Import BoundaryDetector.

Lemma insert_sorted_In {A : Type} (compare : A -> A -> Z) (x y : A)
    (l : list A) :
  In y (insert_sorted compare x l) -> y = x \/ In y l.
Proof.
  induction l as [|z l IH]; simpl.
  - intros [->|[]]. now left.
  - destruct (compare x z <=? 0)%Z; simpl.
    + intros [->|H]; auto.
    + intros [->|H]; auto. apply IH in H as [H|H]; auto.
Qed.

Lemma Array_sort_In {A : Type} (compare : A -> A -> Z) (y : A) (l : list A) :
  In y (Array_sort compare l) -> In y l.
Proof.
  induction l as [|x l IH]; simpl; [auto|].
  intros H. apply insert_sorted_In in H as [->|H]; auto.
Qed.

Lemma newer_or_twin_le (a b : Boundary) :
  newer_or_twin a b -> lineNumber b <= lineNumber a.
Proof. intros [H|[H _]]; lia. Qed.

Lemma insert_sorted_newest_first (x : Boundary) (l : list Boundary) :
  StronglySorted newer_or_twin l ->
  Forall (pushed_order x) l ->
  StronglySorted newer_or_twin (insert_sorted newest_first x l).
Proof.
  intros Hs Hx. induction l as [|y l IH]; simpl.
  - constructor; constructor.
  - apply StronglySorted_inv in Hs as [Hs Hy].
    apply Forall_cons_iff in Hx as [Hxy Hx].
    unfold newest_first at 1.
    destruct (Z.leb_spec (Z.of_nat (lineNumber y) - Z.of_nat (lineNumber x)) 0).
    + constructor; [constructor; assumption|].
      assert (Hxy' : newer_or_twin x y).
      { destruct (Nat.eq_dec (lineNumber x) (lineNumber y)) as [E|E].
        - right. split; [assumption|]. now apply Hxy.
        - left. lia. }
      constructor; [assumption|].
      rewrite Forall_forall in Hy, Hx |- *. intros z Hz.
      pose proof (newer_or_twin_le _ _ (Hy z Hz)).
      destruct (Nat.eq_dec (lineNumber x) (lineNumber z)) as [E|E].
      * right. split; [assumption|]. now apply (Hx z Hz).
      * left. lia.
    + constructor; [now apply IH|].
      rewrite Forall_forall in Hy |- *. intros z Hz.
      apply insert_sorted_In in Hz as [->|Hz]; [left; lia|now apply Hy].
Qed.

Lemma Array_sort_newest_first (l : list Boundary) :
  StronglySorted pushed_order l ->
  StronglySorted newer_or_twin (Array_sort newest_first l).
Proof.
  induction l as [|x l IH]; intros Hs; simpl; [constructor|].
  apply StronglySorted_inv in Hs as [Hs Hx].
  apply insert_sorted_newest_first; [now apply IH|].
  rewrite Forall_forall in Hx |- *. intros y Hy.
  apply Hx. now apply Array_sort_In in Hy.
Qed.

End Sorting.

Section Pushed.
Import BoundaryDetector.
Context {R : Runtime}.

Lemma matches_from_bounds {A : Type} (p : A -> bool) (l : list A) (i : nat)
    (n : nat) (x : A) :
  In (n, x) (matches_from p l i) -> i <= n < i + List.length l.
Proof.
  revert i; induction l as [|y l IH]; intros i; simpl; [intros []|].
  destruct (p y); [intros [H|H]|intros H];
    try (injection H as <- <-; lia); apply IH in H; lia.
Qed.

Lemma matches_from_In {A : Type} (p : A -> bool) (l : list A) (i : nat)
    (n : nat) (x : A) :
  In (n, x) (matches_from p l i) ->
  nth_error l (n - i) = Some x /\ p x = true.
Proof.
  revert i; induction l as [|y l IH]; intros i; simpl; [intros []|].
  assert (Hrest : In (n, x) (matches_from p l (S i)) ->
                  nth_error (y :: l) (n - i) = Some x /\ p x = true).
  { intros H. pose proof (matches_from_bounds _ _ _ _ _ H).
    apply IH in H. replace (n - i) with (S (n - S i)) by lia. exact H. }
  destruct (p y) eqn:Hp; [intros [H|H]|]; try now apply Hrest.
  injection H as <- <-. now rewrite Nat.sub_diag.
Qed.

Lemma matches_from_increasing {A : Type} (p : A -> bool) (l : list A)
    (i : nat) :
  StronglySorted (fun a b => fst a < fst b) (matches_from p l i).
Proof.
  revert i; induction l as [|x l IH]; intros i; simpl; [constructor|].
  destruct (p x); [|apply IH].
  constructor; [apply IH|].
  rewrite Forall_forall. intros [n y] Hn.
  apply matches_from_bounds in Hn. simpl. lia.
Qed.

Lemma detect_marker_from (total : nat) (positions : list nat)
    (l : list string) (i : nat) (acc : list Boundary) :
  forEach_from (detect_marker total positions) l i acc =
  acc ++ map (fun m => marker_boundary total positions (snd m) (fst m))
             (matches_from (fun line => includes line "===INTENT_BOUNDARY===")
                l i).
Proof.
  revert i acc; induction l as [|x l IH]; intros i acc; simpl.
  - now rewrite app_nil_r.
  - rewrite IH. unfold detect_marker.
    destruct (includes x "===INTENT_BOUNDARY==="); [|reflexivity].
    now rewrite <- app_assoc.
Qed.

Lemma detect_commit_step (lines : list string) (total : nat)
    (positions : list nat) (acc : list Boundary) (line : string)
    (index : nat) :
  detect_commit lines total positions acc line index =
  if commit_line line
  then acc ++ [commit_boundary lines total positions index]
  else acc.
Proof.
  unfold detect_commit, commit_line, try_catch, bind.
  destruct (JSON_parse line) as [obj|]; [|reflexivity].
  destruct (prop (Some obj) "type") as [type|]; [|reflexivity].
  destruct ((type === "tool_result") && (get obj "tool_name" === "bash")
            && truthy (get obj "content")); [|reflexivity].
  destruct (get obj "content") as [content|]; [|reflexivity].
  destruct (commit_success content) as [[]|]; reflexivity.
Qed.

Lemma detect_commit_from (lines : list string) (total : nat)
    (positions : list nat) (l : list string) (i : nat) (acc : list Boundary) :
  forEach_from (detect_commit lines total positions) l i acc =
  acc ++ map (fun m => commit_boundary lines total positions (fst m))
             (matches_from commit_line l i).
Proof.
  revert i acc; induction l as [|x l IH]; intros i acc; simpl.
  - now rewrite app_nil_r.
  - rewrite IH, detect_commit_step.
    destruct (commit_line x); [|reflexivity].
    now rewrite <- app_assoc.
Qed.

(** The boundaries in the order of the pushes: the marker lines in
    ascending order, then the commit lines in ascending order. *)
Lemma pushed_spec (lines : list string) :
  let total := String.length (join newline lines) in
  pushed lines =
  map (fun m => marker_boundary total (linePositions lines) (snd m) (fst m))
      (matches_from (fun line => includes line "===INTENT_BOUNDARY===")
         lines 0)
  ++ map (fun m => commit_boundary lines total (linePositions lines) (fst m))
         (matches_from commit_line lines 0).
Proof.
  unfold pushed, forEach.
  now rewrite detect_commit_from, detect_marker_from.
Qed.

Lemma StronglySorted_app {A : Type} (Q : A -> A -> Prop) (l1 l2 : list A) :
  StronglySorted Q l1 -> StronglySorted Q l2 ->
  (forall x y, In x l1 -> In y l2 -> Q x y) ->
  StronglySorted Q (l1 ++ l2).
Proof.
  intros H1 H2 H. induction l1 as [|a l1 IH]; simpl; [assumption|].
  apply StronglySorted_inv in H1 as [H1 Ha].
  constructor.
  - apply IH; [assumption|]. intros x y Hx. apply H. now right.
  - apply Forall_app. split; [assumption|].
    rewrite Forall_forall. intros y Hy. apply H; [now left|assumption].
Qed.

Lemma StronglySorted_map_index {A : Type} (make : nat * A -> Boundary)
    (l : list (nat * A)) :
  (forall m, lineNumber (make m) = fst m) ->
  StronglySorted (fun a b => fst a < fst b) l ->
  StronglySorted pushed_order (map make l).
Proof.
  intros Hmake.
  induction 1 as [|n l Hs IH Hn]; simpl; constructor; [assumption|].
  rewrite Forall_forall in Hn |- *. intros b Hb.
  apply in_map_iff in Hb as [m [<- Hm]].
  intros E. rewrite !Hmake in E. specialize (Hn m Hm). lia.
Qed.

Lemma pushed_in_order (lines : list string) :
  StronglySorted pushed_order (pushed lines).
Proof.
  rewrite pushed_spec. apply StronglySorted_app.
  - apply StronglySorted_map_index;
      [reflexivity|apply matches_from_increasing].
  - apply StronglySorted_map_index;
      [reflexivity|apply matches_from_increasing].
  - intros x y Hx Hy _.
    apply in_map_iff in Hx as [m [<- _]].
    apply in_map_iff in Hy as [n [<- _]]. now split.
Qed.

End Pushed.

(** C7, amended. The boundary list [detectBoundaries] returns is in
    descending order of [lineNumber]: of two consecutive boundaries the
    first has the greater [lineNumber], or the two have the same
    [lineNumber], which happens when one line holds the marker and is also a
    successful commit result; the marker boundary then comes first. *)
Theorem boundaries_newest_first {R : Runtime} (lines : list string) :
  Sorted newer_or_twin
    (BoundaryDetector.boundaries (BoundaryDetector.detectBoundaries lines)).
Proof.
  apply StronglySorted_Sorted. cbn [BoundaryDetector.boundaries
                                    BoundaryDetector.detectBoundaries].
  apply Array_sort_newest_first, pushed_in_order.
Qed.

(** ** The integer operands of the retention percentage

    [retentionPercentage] is [Math.round((characterCount / totalCharacters) * 100)],
    computed in double arithmetic.  Its operands are integers: for every
    boundary, [characterCount] is [totalCharacters] minus the offset of the
    line, it is positive, and it is at most [totalCharacters]; in particular
    [totalCharacters] is not zero when a boundary exists. *)

Section Operands.
Import BoundaryDetector.
Context {R : Runtime}.

Lemma offset_S (lines : list string) (i : nat) (line : string) :
  nth_error lines i = Some line ->
  offset lines (S i) = offset lines i + String.length line + 1.
Proof.
  revert i; induction lines as [|x lines IH]; intros [|i] H; try discriminate.
  - injection H as ->. simpl. lia.
  - change (offset (x :: lines) (S (S i)))
      with (String.length x + 1 + offset lines (S i)).
    rewrite (IH i H). simpl. lia.
Qed.

Lemma offset_le_end (lines : list string) (i : nat) :
  offset lines i <= offset lines (List.length lines).
Proof.
  revert i; induction lines as [|x lines IH]; intros [|i]; simpl; try lia.
  specialize (IH i). lia.
Qed.

Lemma slength_append (a b : string) :
  String.length (a ++ b) = String.length a + String.length b.
Proof. induction a as [|x a IH]; simpl; [reflexivity|now rewrite IH]. Qed.

Lemma join_newline_length (lines : list string) :
  lines <> [] ->
  String.length (join newline lines) + 1 = offset lines (List.length lines).
Proof.
  induction lines as [|x [|y lines] IH]; intros H; [contradiction|..].
  - simpl. lia.
  - change (join newline (x :: y :: lines))
      with (x ++ newline ++ join newline (y :: lines))%string.
    rewrite !slength_append.
    change (List.length (x :: y :: lines)) with (S (List.length (y :: lines))).
    cbn [offset]. rewrite <- IH by discriminate.
    change (String.length newline) with 1. lia.
Qed.

Lemma track_from (l : list string) (i cur : nat) (acc : list nat) :
  snd (forEach_from track l i (cur, acc)) =
  acc ++ map (fun k => cur + offset l k) (seq 0 (List.length l)).
Proof.
  revert i cur acc; induction l as [|x l IH]; intros i cur acc; simpl.
  - now rewrite app_nil_r.
  - unfold track at 2. cbn [fst snd]. rewrite IH, <- app_assoc. simpl.
    rewrite Nat.add_0_r. do 2 f_equal.
    rewrite <- seq_shift, map_map. apply map_ext. intros k. simpl. lia.
Qed.

Lemma linePositions_nth (lines : list string) (i : nat) :
  i < List.length lines ->
  nth i (linePositions lines) 0 = offset lines i.
Proof.
  intros H. unfold linePositions, forEach. rewrite track_from. simpl.
  rewrite (nth_indep _ 0 (offset lines 0))
    by (rewrite length_map, length_seq; assumption).
  rewrite (map_nth (fun k => offset lines k)), seq_nth by assumption.
  reflexivity.
Qed.

Lemma boundary_line (lines : list string) (b : Boundary) :
  In b (boundaries (detectBoundaries lines)) ->
  exists line,
    nth_error lines (lineNumber b) = Some line /\
    (includes line "===INTENT_BOUNDARY===" = true \/ commit_line line = true) /\
    characterCount b =
      (Z.of_nat (String.length (join newline lines))
       - Z.of_nat (nth (lineNumber b) (linePositions lines) 0%nat))%Z.
Proof.
  cbn [boundaries detectBoundaries]. intros H.
  apply Array_sort_In in H. rewrite pushed_spec in H.
  apply in_app_or in H as [H|H];
    apply in_map_iff in H as [[n line] [<- Hn]];
    apply matches_from_In in Hn as [Hl Hp];
    rewrite Nat.sub_0_r in Hl;
    exists line; cbn; auto.
Qed.

Lemma commit_line_parse (line : string) :
  commit_line line = true -> exists obj, JSON_parse line = Some obj.
Proof.
  unfold commit_line, try_catch, bind.
  destruct (JSON_parse line); [eauto|discriminate].
Qed.

(** What the boundary analyzer divides, and by what. *)
Lemma retention_operands {L : RuntimeLaws R} (lines : list string)
    (b : Boundary) :
  In b (boundaries (detectBoundaries lines)) ->
  let total := totalCharacters (detectBoundaries lines) in
  lineNumber b < List.length lines /\
  characterCount b =
    (Z.of_nat total - Z.of_nat (offset lines (lineNumber b)))%Z /\
  (0 < characterCount b <= Z.of_nat total)%Z /\
  0 < total.
Proof.
  intros Hb total. subst total. cbn [totalCharacters detectBoundaries].
  destruct (boundary_line lines b Hb) as [line [Hl [Hkind Hc]]].
  assert (Hlt : lineNumber b < List.length lines)
    by (apply nth_error_Some; congruence).
  assert (Hne : lines <> []) by (intros ->; simpl in Hlt; lia).
  assert (Hlen : 0 < String.length line).
  { destruct line; [|simpl; lia]. exfalso. destruct Hkind as [H|H].
    - discriminate H.
    - apply commit_line_parse in H as [obj H].
      rewrite parse_empty in H. discriminate. }
  rewrite linePositions_nth in Hc by assumption.
  pose proof (join_newline_length lines Hne) as Htotal.
  pose proof (offset_S lines (lineNumber b) line Hl) as HS.
  pose proof (offset_le_end lines (S (lineNumber b))) as Hend.
  repeat split; try assumption; lia.
Qed.

End Operands.

(** ** The reference runtime satisfies the laws *)

Module RefJSONFacts.
Import RefJSON.

(** Induction on a value, with the hypothesis on every item of an array and
    on every member of an object. *)
Lemma json_induction (P : json -> Prop) :
  P JNull ->
  (forall b, P (JBool b)) ->
  (forall n, P (JNum n)) ->
  (forall s, P (JStr s)) ->
  (forall items, Forall P items -> P (JArr items)) ->
  (forall members, Forall (fun m => P (snd m)) members -> P (JObj members)) ->
  forall v, P v.
Proof.
  intros HNull HBool HNum HStr HArr HObj.
  fix IH 1. intros [ |b|n|s|items|members].
  - exact HNull.
  - apply HBool.
  - apply HNum.
  - apply HStr.
  - apply HArr. induction items as [|x items IHitems]; constructor.
    + apply IH.
    + exact IHitems.
  - apply HObj. induction members as [|m members IHmembers]; constructor.
    + apply IH.
    + exact IHmembers.
Qed.

Lemma sapp_assoc (a b c : string) :
  ((a ++ b) ++ c = a ++ (b ++ c))%string.
Proof. induction a as [|x a IH]; simpl; [reflexivity|now rewrite IH]. Qed.

Lemma sapp_nil_r (a : string) : (a ++ EmptyString)%string = a.
Proof. induction a as [|x a IH]; simpl; [reflexivity|now rewrite IH]. Qed.

Lemma slength_app (a b : string) :
  String.length (a ++ b) = String.length a + String.length b.
Proof. induction a as [|x a IH]; simpl; [reflexivity|now rewrite IH]. Qed.

(** *** Strings *)

Lemma parse_chars_escape_char (c : ascii) (t : string) :
  parse_chars (escape_char c ++ t) =
  bind (parse_chars t) (fun x => Some (String c (fst x), snd x)).
Proof.
  destruct c as [[] [] [] [] [] [] [] []];
    cbv [escape_char]; simpl; destruct (parse_chars t) as [[]|]; reflexivity.
Qed.

Lemma parse_chars_escape (s rest : string) :
  parse_chars (escape s ++ String dquote rest) = Some (s, rest).
Proof.
  induction s as [|c s IH]; [reflexivity|].
  cbn [escape]. rewrite sapp_assoc, parse_chars_escape_char, IH.
  reflexivity.
Qed.

Lemma print_string_app (s rest : string) :
  (print_string s ++ rest)%string =
  String dquote (escape s ++ String dquote rest).
Proof. unfold print_string. simpl. now rewrite sapp_assoc. Qed.

(** *** Numbers *)

Lemma parse_digits_tail (rest : string) :
  tail_ok rest -> parse_digits rest = (Decimal.Nil, rest).
Proof. destruct rest as [|c rest]; simpl; [reflexivity|]. now intros ->. Qed.

Lemma parse_digits_print (u : Decimal.uint) (rest : string) :
  tail_ok rest ->
  parse_digits (NilEmpty.string_of_uint u ++ rest) = (u, rest).
Proof.
  intros H. induction u; simpl; rewrite ?IHu; try reflexivity.
  now apply parse_digits_tail.
Qed.

Lemma json_digits_print (u : Decimal.uint) (rest : string) :
  canonical u -> tail_ok rest ->
  json_digits (NilEmpty.string_of_uint u ++ rest) = Some (u, rest).
Proof.
  intros [Hnil Hzero] H. unfold json_digits.
  rewrite parse_digits_print by assumption.
  destruct u; try reflexivity; [contradiction|].
  now rewrite (Hzero u eq_refl).
Qed.

Lemma nzhead_not_D0 (u d : Decimal.uint) :
  Decimal.nzhead u <> Decimal.D0 d.
Proof. induction u; simpl; try discriminate; assumption. Qed.

Lemma canonical_to_uint (p : positive) : canonical (Pos.to_uint p).
Proof.
  split; [apply Unsigned.to_uint_nonnil|].
  intros d Hd.
  assert (Hn : Decimal.unorm (Pos.to_uint p) = Pos.to_uint p).
  { rewrite <- Unsigned.to_of, Unsigned.of_to. reflexivity. }
  rewrite Hd in Hn. unfold Decimal.unorm in Hn.
  destruct (Decimal.nzhead (Decimal.D0 d)) eqn:E;
    try (injection Hn as <-; reflexivity); try discriminate.
  exfalso. injection Hn as ->. now apply nzhead_not_D0 in E.
Qed.

Lemma string_of_uint_nonnil (u : Decimal.uint) :
  u <> Decimal.Nil ->
  NilZero.string_of_uint u = NilEmpty.string_of_uint u.
Proof. destruct u; [contradiction|reflexivity..]. Qed.

Lemma parse_number_print (n : Z) (rest : string) :
  tail_ok rest ->
  parse_number (Number_toString n ++ rest) = Some (n, rest).
Proof.
  intros H. unfold Number_toString. rewrite <- (DecimalZ.of_to n) at 2.
  destruct n as [|p|p]; cbn [Z.to_int NilZero.string_of_int].
  - cbn. unfold json_digits. cbn [parse_digits digit_of].
    now rewrite parse_digits_tail.
  - pose proof (canonical_to_uint p) as Hc.
    rewrite string_of_uint_nonnil by apply Hc.
    unfold parse_number.
    rewrite json_digits_print by assumption.
    destruct (Pos.to_uint p) eqn:E; try reflexivity.
    now destruct Hc.
  - pose proof (canonical_to_uint p) as Hc.
    rewrite string_of_uint_nonnil by apply Hc.
    cbn [append parse_number].
    now rewrite json_digits_print.
Qed.

Lemma Number_toString_head (n : Z) :
  exists c s, Number_toString n = String c s /\ number_start c = true.
Proof.
  unfold Number_toString.
  destruct n as [|p|p]; cbn [Z.to_int NilZero.string_of_int].
  - now exists "0"%char, EmptyString.
  - pose proof (Unsigned.to_uint_nonnil p).
    destruct (Pos.to_uint p); [contradiction|..];
      eexists; eexists; (split; [reflexivity|reflexivity]).
  - eexists; eexists; split; reflexivity.
Qed.

Lemma number_start_tests (c : ascii) :
  number_start c = true ->
  is_ws c = false /\ (c =? dquote)%char = false /\
  (c =? "[")%char = false /\ (c =? "{")%char = false /\
  (c =? "t")%char = false /\ (c =? "f")%char = false /\
  (c =? "n")%char = false /\ (c =? "]")%char = false /\
  (c =? "}")%char = false.
Proof.
  destruct c as [[] [] [] [] [] [] [] []];
    try discriminate; intros _; repeat split.
Qed.

Lemma number_start_value (c : ascii) (s : string) :
  number_start c = true -> value_start (String c s).
Proof.
  intros H. apply number_start_tests in H. simpl. tauto.
Qed.

Lemma parse_value_number (c : ascii) (r : string) (fuel : nat) :
  number_start c = true ->
  parse_value (S fuel) (String c r) =
  ('(n, rest) <- parse_number (String c r) ;; Some (JNum n, rest)).
Proof.
  intros H. apply number_start_tests in H.
  destruct H as (Hws & Hq & Ha & Ho & Ht & Hf & Hn & _).
  cbn [parse_value skip_ws]. rewrite Hws, Hq, Ha, Ho, Ht, Hf, Hn.
  reflexivity.
Qed.

(** *** Sequences *)

Lemma join_cons2 (sep p q : string) (rest : list string) :
  join sep (p :: q :: rest) = (p ++ sep ++ join sep (q :: rest))%string.
Proof. reflexivity. Qed.

Lemma join_length_In (sep p : string) (parts : list string) :
  In p parts -> String.length p <= String.length (join sep parts).
Proof.
  induction parts as [|q [|q' parts] IH]; intros Hin.
  - destruct Hin.
  - destruct Hin as [->|[]]. reflexivity.
  - rewrite join_cons2, !slength_app.
    destruct Hin as [->|Hin]; [lia|].
    specialize (IH Hin). lia.
Qed.

Lemma skip_ws_head (c : ascii) (r : string) :
  is_ws c = false -> skip_ws (String c r) = String c r.
Proof. intros H. simpl. now rewrite H. Qed.

Lemma parse_seq_join {A : Type} (item : string -> option (A * string))
    (print : A -> string) (close : ascii) (l : list A) :
  is_ws close = false -> (close =? ",")%char = false ->
  digit_of close = None ->
  l <> [] ->
  (forall x rest, In x l -> tail_ok rest ->
                  item (print x ++ rest)%string = Some (x, rest)) ->
  forall fuel rest,
    String.length (join "," (map print l)) < fuel ->
    parse_seq item close fuel
      (join "," (map print l) ++ String close rest)%string
    = Some (l, rest).
Proof.
  intros Hws Hcomma Hdigit Hne Hitem.
  induction l as [|x [|y l] IH]; [contradiction|..]; intros fuel rest Hfuel.
  - destruct fuel as [|fuel]; [lia|]. cbn [map join parse_seq].
    rewrite Hitem by (simpl; auto). cbn [bind].
    rewrite skip_ws_head by assumption.
    rewrite Hcomma, Ascii.eqb_refl. reflexivity.
  - destruct fuel as [|fuel]; [lia|].
    change (map print (x :: y :: l)) with (print x :: map print (y :: l)) in *.
    change (map print (y :: l)) with (print y :: map print l) in Hfuel |- * at 1.
    rewrite join_cons2 in Hfuel |- *.
    change (print y :: map print l) with (map print (y :: l)) in *.
    rewrite !slength_app in Hfuel. cbn [String.length] in Hfuel.
    rewrite sapp_assoc. cbn [append parse_seq].
    rewrite Hitem by (simpl; auto). cbn [bind].
    rewrite skip_ws_head by reflexivity.
    rewrite Ascii.eqb_refl.
    rewrite IH; [reflexivity|discriminate| |lia].
    intros x' rest' Hin. apply Hitem. now right.
Qed.

Lemma parse_member_print (pv : string -> option (json * string))
    (k : string) (v : json) (rest : string) :
  pv (stringify v ++ rest)%string = Some (v, rest) ->
  parse_member pv ((print_string k ++ ":" ++ stringify v) ++ rest)%string
  = Some ((k, v), rest).
Proof.
  intros H. rewrite sapp_assoc, print_string_app. unfold parse_member.
  rewrite skip_ws_head by reflexivity.
  rewrite Ascii.eqb_refl, parse_chars_escape. cbn [bind].
  rewrite sapp_assoc. cbn [append].
  rewrite skip_ws_head by reflexivity.
  rewrite Ascii.eqb_refl, H. reflexivity.
Qed.

(** *** Values *)

Lemma join_head (sep p : string) (parts : list string) (t : string) :
  exists t', (join sep (p :: parts) ++ t)%string = (p ++ t')%string.
Proof.
  destruct parts as [|q parts].
  - now exists t.
  - rewrite join_cons2, sapp_assoc. eauto.
Qed.

Lemma stringify_value_start (v : json) (rest : string) :
  value_start (stringify v ++ rest).
Proof.
  destruct v as [ |[]|n|s|items|members]; try (simpl; tauto).
  destruct (Number_toString_head n) as (c & s & E & Hc).
  cbn [stringify]. rewrite E. now apply number_start_value.
Qed.

Lemma value_start_skip (s : string) :
  value_start s ->
  exists c r, s = String c r /\ skip_ws s = String c r /\
              (c =? "]")%char = false /\ (c =? "}")%char = false.
Proof.
  destruct s as [|c r]; [intros []|]. intros (Hws & Ha & Ho).
  exists c, r. rewrite skip_ws_head by assumption. tauto.
Qed.

Lemma parse_value_stringify (v : json) :
  forall fuel rest,
    String.length (stringify v) < fuel -> tail_ok rest ->
    parse_value fuel (stringify v ++ rest) = Some (v, rest).
Proof.
  induction v as [ |b|n|s|items IH|members IH] using json_induction;
    intros fuel rest Hfuel Htail; (destruct fuel as [|fuel]; [lia|]).
  - reflexivity.
  - destruct b; reflexivity.
  - destruct (Number_toString_head n) as (c & s & E & Hc).
    cbn [stringify]. rewrite E. cbn [append].
    rewrite parse_value_number by assumption.
    change (String c (s ++ rest)) with (String c s ++ rest)%string.
    rewrite <- E, parse_number_print by assumption. reflexivity.
  - cbn [stringify]. rewrite print_string_app. cbn [parse_value].
    rewrite skip_ws_head by reflexivity.
    rewrite Ascii.eqb_refl, parse_chars_escape. reflexivity.
  - destruct items as [|x items]; [reflexivity|].
    cbn [stringify] in *. rewrite sapp_assoc.
    set (l := x :: items) in *.
    rewrite !slength_app in Hfuel. cbn [String.length append] in Hfuel.
    assert (Hstart : value_start
              (join "," (map stringify l) ++ String "]" rest)).
    { subst l. cbn [map].
      destruct (join_head "," (stringify x) (map stringify items)
                  (String "]" rest)) as [t' ->].
      apply stringify_value_start. }
    apply value_start_skip in Hstart as (c & r & E & Hskip & Hc & _).
    cbn [append parse_value]. rewrite skip_ws_head by reflexivity.
    change ("[" =? dquote)%char with false.
    rewrite Ascii.eqb_refl. cbv iota.
    rewrite sapp_assoc. cbn [append]. rewrite Hskip, Hc.
    rewrite parse_seq_join; try reflexivity; try discriminate; [|lia].
    intros x' rest' Hin Htail'.
    rewrite Forall_forall in IH. apply IH; try assumption.
    assert (String.length (stringify x')
            <= String.length (join "," (map stringify l)))
      by (apply join_length_In, in_map, Hin).
    lia.
  - destruct members as [|m members]; [reflexivity|].
    cbn [stringify] in *. rewrite sapp_assoc.
    set (print := fun '(k, v) => (print_string k ++ ":" ++ stringify v)%string)
      in *.
    set (l := m :: members) in *.
    rewrite !slength_app in Hfuel. cbn [String.length append] in Hfuel.
    assert (Hstart : value_start
              (join "," (map print l) ++ String "}" rest)).
    { subst l. cbn [map].
      destruct (join_head "," (print m) (map print members)
                  (String "}" rest)) as [t' ->].
      destruct m as [k v]. subst print. cbv beta iota.
      rewrite print_string_app. simpl. tauto. }
    apply value_start_skip in Hstart as (c & r & E & Hskip & _ & Hc).
    cbn [append parse_value]. rewrite skip_ws_head by reflexivity.
    change ("{" =? dquote)%char with false.
    change ("{" =? "[")%char with false.
    rewrite Ascii.eqb_refl. cbv iota.
    rewrite sapp_assoc. cbn [append]. rewrite Hskip, Hc.
    rewrite (parse_seq_join _ print); try reflexivity; try discriminate;
      [|lia].
    intros [k v] rest' Hin Htail'.
    subst print. cbv beta iota. apply parse_member_print.
    rewrite Forall_forall in IH. apply (IH (k, v)); try assumption.
    assert (String.length (print_string k ++ ":" ++ stringify v)
            <= String.length
                 (join ","
                    (map (fun '(k, v) =>
                            (print_string k ++ ":" ++ stringify v)%string) l)))
      by (apply join_length_In;
          apply (in_map (fun '(k, v) =>
                   (print_string k ++ ":" ++ stringify v)%string) l (k, v));
          exact Hin).
    rewrite !slength_app in H. simpl in *. lia.
Qed.

End RefJSONFacts.

(** The reference runtime is a runtime in the sense of [RuntimeLaws]. *)
Lemma RefJSON_laws : RuntimeLaws RefJSON.runtime.
Proof.
  split.
  - intros _ _ v _ _. cbn [JSON_parse JSON_stringify RefJSON.runtime].
    unfold RefJSON.parse.
    rewrite <- (RefJSONFacts.sapp_nil_r (RefJSON.stringify v)) at 2.
    rewrite RefJSONFacts.parse_value_stringify; [reflexivity|lia|exact I].
  - reflexivity.
Qed.

(** * The retention percentage

    [Math.round(((totalCharacters - charactersFromStart) / totalCharacters)
    * 100)] is computed in doubles.  The Standard Library specifies the
    operations of the kernel's floats by those of [SpecFloat], at precision
    53 and with [emax = 1024]; the facts below follow that specification
    through one conversion, one division, one multiplication and the final
    rounding to an integer. *)

Module DoubleFacts.
Section Doubles.
Import SpecFloat PrimFloat FloatOps FloatAxioms.
Local Open Scope Z_scope.

(** ** Powers of two and digits *)

Lemma pow2_pos (a : Z) : 0 <= a -> 0 < 2 ^ a.
Proof. intros. apply Z.pow_pos_nonneg; lia. Qed.

Lemma pow2_le_inv (a b : Z) : 0 <= a -> 2 ^ a <= 2 ^ b -> a <= b.
Proof.
  intros Ha H. destruct (Z.leb_spec a b) as [|Hlt]; [assumption|exfalso].
  destruct (Z.leb_spec 0 b).
  - assert (2 ^ b < 2 ^ a) by (apply Z.pow_lt_mono_r; lia). lia.
  - rewrite (Z.pow_neg_r 2 b) in H by lia. pose proof (pow2_pos a Ha). lia.
Qed.

Lemma digits2_size (p : positive) : digits2_pos p = Pos.size p.
Proof. induction p; simpl; congruence. Qed.

Lemma digits_bounds (p : positive) :
  2 ^ (Zpos (digits2_pos p) - 1) <= Zpos p < 2 ^ Zpos (digits2_pos p).
Proof.
  rewrite digits2_size. split.
  - pose proof (Pos.size_le p) as H.
    assert (H' : Zpos (2 ^ Pos.size p) <= Zpos p~0) by exact H.
    rewrite Pos2Z.inj_pow in H'.
    replace (Zpos (Pos.size p)) with (Zpos (Pos.size p) - 1 + 1) in H' by lia.
    rewrite Z.pow_add_r in H' by lia. lia.
  - pose proof (Pos.size_gt p) as H.
    assert (H' : Zpos p < Zpos (2 ^ Pos.size p)) by exact H.
    now rewrite Pos2Z.inj_pow in H'.
Qed.

Lemma digits_unique (p : positive) (d : Z) :
  2 ^ (d - 1) <= Zpos p < 2 ^ d -> Zpos (digits2_pos p) = d.
Proof.
  intros [Hlo Hhi]. pose proof (digits_bounds p) as [Hlo' Hhi'].
  set (k := Zpos (digits2_pos p)) in *.
  assert (Hk : 1 <= k) by (subst k; lia).
  assert (k <= d).
  { assert (k - 1 <= d - 1 + 1 - 1); [|lia].
    destruct (Z.leb_spec k d); [lia|exfalso].
    assert (d <= k - 1) by lia.
    destruct (Z.leb_spec 0 d).
    - assert (2 ^ d <= 2 ^ (k - 1)) by (apply Z.pow_le_mono_r; lia). lia.
    - rewrite (Z.pow_neg_r 2 d) in Hhi by lia. lia. }
  assert (d <= k); [|lia].
  destruct (Z.leb_spec d k); [assumption|exfalso].
  assert (2 ^ k <= 2 ^ (d - 1)) by (apply Z.pow_le_mono_r; lia). lia.
Qed.

Lemma iter_xO (p k : positive) : Zpos (Pos.iter xO p k) = Zpos p * 2 ^ Zpos k.
Proof.
  induction k as [|k IH] using Pos.peano_ind.
  - simpl. lia.
  - rewrite Pos.iter_succ, Pos2Z.inj_succ, Z.pow_succ_r by lia.
    rewrite Pos2Z.inj_xO, IH. lia.
Qed.

Lemma fexp_normal (d : Z) : -1021 <= d -> fexp prec emax d = d - 53.
Proof. unfold fexp, SpecFloat.emin, prec, emax. lia. Qed.

(** ** The shift to the right that comes before a rounding *)

Lemma shr_1_shifted (a : shr_record) : 0 <= shr_m a -> shifted 1 a (shr_1 a).
Proof.
  destruct a as [m r s]. cbn [shr_m]. intros Hm. unfold shifted, inexact.
  change (2 ^ 1) with 2.
  destruct m as [|[p|p|]|p]; cbn [shr_1 shr_m shr_r shr_s]; try lia.
  - split; [reflexivity|]. rewrite orb_false_l. now left.
  - split; [rewrite Pos2Z.inj_xI; Z.div_mod_to_equations; lia|].
    intros _. right. rewrite Pos2Z.inj_xI. Z.div_mod_to_equations. lia.
  - split; [rewrite Pos2Z.inj_xO; Z.div_mod_to_equations; lia|].
    rewrite orb_false_l. now left.
  - split; [reflexivity|]. intros _. now right.
Qed.

Lemma shifted_nonneg (k : Z) (a b : shr_record) :
  0 <= k -> 0 <= shr_m a -> shifted k a b -> 0 <= shr_m b.
Proof.
  intros Hk Ha [-> _]. apply Z.div_pos; [assumption|]. now apply pow2_pos.
Qed.

Lemma shifted_trans (j k : Z) (a b c : shr_record) :
  0 <= j -> 0 <= k -> 0 <= shr_m a ->
  shifted j a b -> shifted k b c -> shifted (j + k) a c.
Proof.
  intros Hj Hk Ha [Hb Hb'] [Hc Hc']. unfold shifted.
  pose proof (pow2_pos j Hj) as H2j. pose proof (pow2_pos k Hk) as H2k.
  rewrite Z.pow_add_r by assumption.
  assert (Hmod : shr_m a mod (2 ^ j * 2 ^ k) = 0 ->
                 shr_m a mod 2 ^ j = 0 /\ (shr_m a / 2 ^ j) mod 2 ^ k = 0).
  { intros H0. rewrite Z.rem_mul_r in H0 by lia.
    pose proof (Z.mod_pos_bound (shr_m a) (2 ^ j) H2j).
    pose proof (Z.mod_pos_bound (shr_m a / 2 ^ j) (2 ^ k) H2k). nia. }
  split.
  - rewrite Hc, Hb. now rewrite Z.div_div by lia.
  - intros Hi. destruct (Hc' Hi) as [Hi'|Hm].
    + destruct (Hb' Hi') as [?|Hm]; [now left|]. right.
      intros H0. now apply Hm, Hmod.
    + right. rewrite Hb in Hm. intros H0. now apply Hm, Hmod.
Qed.

Lemma iter_shr_1 (p : positive) (a : shr_record) :
  0 <= shr_m a -> shifted (Zpos p) a (iter_pos shr_1 p a).
Proof.
  assert (Hp : forall q : positive, 0 <= Zpos q) by lia.
  revert a; induction p as [p IH|p IH|]; intros a Ha; cbn [iter_pos].
  - pose proof (shr_1_shifted a Ha) as H1.
    pose proof (shifted_nonneg 1 _ _ Z.le_0_1 Ha H1) as Ha1.
    pose proof (IH _ Ha1) as H2.
    pose proof (shifted_nonneg (Zpos p) _ _ (Hp p) Ha1 H2) as Ha2.
    pose proof (IH _ Ha2) as H3.
    replace (Zpos p~1) with (1 + (Zpos p + Zpos p)) by lia.
    apply (shifted_trans 1 (Zpos p + Zpos p) _ _ _
             Z.le_0_1 (Hp (p + p)%positive) Ha H1).
    apply (shifted_trans (Zpos p) (Zpos p) _ _ _ (Hp p) (Hp p) Ha1 H2 H3).
  - pose proof (IH _ Ha) as H2.
    pose proof (shifted_nonneg (Zpos p) _ _ (Hp p) Ha H2) as Ha2.
    pose proof (IH _ Ha2) as H3.
    replace (Zpos p~0) with (Zpos p + Zpos p) by lia.
    apply (shifted_trans (Zpos p) (Zpos p) _ _ _ (Hp p) (Hp p) Ha H2 H3).
  - now apply shr_1_shifted.
Qed.

Lemma shr_shifted (a : shr_record) (e n : Z) :
  0 <= shr_m a -> 0 <= n ->
  shifted n a (fst (shr a e n)) /\ snd (shr a e n) = e + n.
Proof.
  intros Ha Hn. destruct n as [|p|p]; [| |lia]; cbn [shr fst snd].
  - split; [|lia]. split; [now rewrite Z.div_1_r|]. now left.
  - split; [now apply iter_shr_1|reflexivity].
Qed.

Lemma inexact_of_loc (m : Z) (l : location) :
  shr_m (shr_record_of_loc m l) = m /\
  (inexact (shr_record_of_loc m l) = true -> l <> loc_Exact).
Proof. destruct l as [|[]]; cbn; split; try reflexivity; discriminate. Qed.

Lemma round_nearest_even_cases (mrs : shr_record) :
  let m := round_nearest_even (shr_m mrs) (loc_of_shr_record mrs) in
  m = shr_m mrs \/ (m = shr_m mrs + 1 /\ inexact mrs = true).
Proof.
  destruct mrs as [m [|] [|]]; cbn; auto.
  destruct (Z.even m); auto.
Qed.

(** ** One rounding

    A positive mantissa [M] of [53 + n] digits at exponent [E], in the
    normal range, rounds to a mantissa of 53 digits at exponent [E + n], or
    one higher after a carry.  The result does not pass a bound [B] that is
    itself a mantissa at exponent [E + n]; nothing changes when there is
    nothing to round; and the result is less than one unit of exponent
    [E + n] away from [M]. *)
Lemma round_aux_le (M : positive) (E n B : Z) (l : location) :
  Zpos (digits2_pos M) = 53 + n -> 0 <= n ->
  -1074 <= E + n < 971 ->
  Zpos M <= B * 2 ^ n ->
  (l <> loc_Exact -> Zpos M < B * 2 ^ n) ->
  exists m e,
    binary_round_aux prec emax false (Zpos M) E l = S754_finite false m e /\
    2 ^ 52 <= Zpos m < 2 ^ 53 /\
    ((e = E + n /\ Zpos m <= B) \/ (e = E + n + 1 /\ 2 * Zpos m <= B)) /\
    (l = loc_Exact -> n = 0 -> m = M /\ e = E) /\
    (Zpos m - 1) * 2 ^ (e - E) <= Zpos M < (Zpos m + 1) * 2 ^ (e - E).
Proof.
  intros Hd Hn HE HB HB'.
  pose proof (pow2_pos n Hn) as H2n.
  pose proof (digits_bounds M) as HM. rewrite Hd in HM.
  replace (53 + n - 1) with (52 + n) in HM by lia.
  rewrite !Z.pow_add_r in HM by lia.
  unfold binary_round_aux, shr_fexp.
  cbn [Zdigits2]. rewrite Hd, fexp_normal by lia.
  replace (53 + n + E - 53 - E) with n by lia.
  destruct (inexact_of_loc (Zpos M) l) as [Ha Hal].
  destruct (shr_shifted (shr_record_of_loc (Zpos M) l) E n)
    as [[Hm1 Hi1] He1]; [rewrite Ha; lia|assumption|].
  destruct (shr (shr_record_of_loc (Zpos M) l) E n) as [mrs' e1].
  cbn [fst snd] in Hm1, Hi1, He1. subst e1. rewrite Ha in Hm1, Hi1.
  assert (Hm1b : 2 ^ 52 <= shr_m mrs' < 2 ^ 53).
  { rewrite Hm1. split.
    - apply Z.div_le_lower_bound; lia.
    - apply Z.div_lt_upper_bound; lia. }
  assert (Hle : shr_m mrs' <= B)
    by (rewrite Hm1; apply Z.div_le_upper_bound; lia).
  assert (Hlt : inexact mrs' = true -> shr_m mrs' + 1 <= B).
  { intros Hi. assert (Zpos M < B * 2 ^ n).
    { destruct (Hi1 Hi) as [Hl|Hmod]; [now apply HB', Hal|].
      destruct (Z.eq_dec (Zpos M) (B * 2 ^ n)) as [Heq|]; [|lia].
      exfalso. apply Hmod. rewrite Heq.
      now apply Z.mod_mul, Z.neq_sym, Z.lt_neq. }
    assert (shr_m mrs' < B); [|lia].
    rewrite Hm1. apply Z.div_lt_upper_bound; lia. }
  pose proof (round_nearest_even_cases mrs') as Hr. cbv zeta in Hr.
  set (m2 := round_nearest_even (shr_m mrs') (loc_of_shr_record mrs')) in *.
  assert (Hm2 : 2 ^ 52 <= m2 <= 2 ^ 53 /\ m2 <= B)
    by (destruct Hr as [->|[-> Hi]]; split; try lia; auto).
  destruct Hm2 as [Hm2 Hm2B].
  assert (Hex : l = loc_Exact -> n = 0 -> m2 = Zpos M).
  { intros -> ->. destruct Hr as [Hr|[_ Hi]].
    - now rewrite Hr, Hm1, Z.div_1_r.
    - destruct (Hi1 Hi) as [Hl|Hmod]; [now apply Hal in Hl|].
      now rewrite Z.mod_1_r in Hmod. }
  assert (Hnear : (m2 - 1) * 2 ^ n <= Zpos M < (m2 + 1) * 2 ^ n).
  { pose proof (Z.mul_div_le (Zpos M) (2 ^ n) H2n).
    pose proof (Z.mul_succ_div_gt (Zpos M) (2 ^ n) H2n).
    rewrite <- Hm1 in *. destruct Hr as [->|[-> _]]; nia. }
  destruct m2 as [|p|p] eqn:Ep; try (exfalso; clear - Hm2; lia).
  destruct (Z.eq_dec (Zpos p) (2 ^ 53)) as [Heq|Hne].
  - injection Heq as ->. cbn [Zdigits2].
    change (fexp prec emax (Zpos (digits2_pos 9007199254740992) + (E + n)))
      with (fexp prec emax (54 + (E + n))).
    rewrite fexp_normal by lia.
    replace (54 + (E + n) - 53 - (E + n)) with 1 by lia.
    cbn [shr shr_record_of_loc iter_pos shr_1 shr_m].
    assert ((E + n + 1 <=? emax - prec) = true) as ->
      by (apply Z.leb_le; unfold emax, prec; lia).
    eexists _, _. split; [reflexivity|].
    split; [vm_compute; split; [discriminate|reflexivity]|].
    split; [|split].
    + right. split; [reflexivity|]. exact Hm2B.
    + intros Hl H0. specialize (Hex Hl H0). exfalso. subst n.
      change (2 ^ 0) with 1 in HM. change (2 ^ 53) with 9007199254740992 in HM.
      lia.
    + replace (E + n + 1 - E) with (1 + n) by lia.
      rewrite Z.pow_add_r by lia. change (2 ^ 1) with 2.
      change (Zpos 4503599627370496) with 4503599627370496.
      change (Zpos 9007199254740992) with 9007199254740992 in Hnear.
      lia.
  - cbn [Zdigits2].
    rewrite (digits_unique p 53) by (change (53 - 1) with 52; lia).
    rewrite fexp_normal by lia.
    replace (53 + (E + n) - 53 - (E + n)) with 0 by lia.
    cbn [shr shr_record_of_loc shr_m].
    assert ((E + n <=? emax - prec) = true) as ->
      by (apply Z.leb_le; unfold emax, prec; lia).
    exists p, (E + n). split; [reflexivity|]. split; [lia|].
    split; [|split].
    + left. split; [reflexivity|exact Hm2B].
    + intros Hl H0. specialize (Hex Hl H0). injection Hex as ->.
      split; [reflexivity|lia].
    + replace (E + n - E) with n by lia. exact Hnear.
Qed.

(** ** The number that holds a count

    A count below [2 ^ 53] is held exactly, with a mantissa of 53 digits. *)
Lemma Number_of_Z_spec (z : Z) :
  0 < z < 2 ^ 53 ->
  exists m e,
    Prim2SF (Number_of_Z z) = S754_finite false m e /\
    2 ^ 52 <= Zpos m < 2 ^ 53 /\ -52 <= e <= 0 /\
    Zpos m = z * 2 ^ (- e).
Proof.
  intros Hz. unfold Number_of_Z.
  destruct (Z.ltb_spec z 0); [lia|].
  rewrite of_uint63_spec, Uint63.of_Z_spec.
  rewrite Z.mod_small
    by (change Uint63.wB with (2 ^ 63);
        change (2 ^ 53) with 9007199254740992 in Hz;
        change (2 ^ 63) with 9223372036854775808; lia).
  destruct z as [|p|p]; try lia.
  cbn [binary_normalize]. unfold binary_round.
  pose proof (digits_bounds p) as Hd.
  set (d := Zpos (digits2_pos p)) in *.
  assert (Hd53 : 1 <= d <= 53).
  { split; [subst d; lia|].
    destruct (Z.leb_spec d 53); [assumption|].
    assert (2 ^ 53 <= 2 ^ (d - 1)) by (apply Z.pow_le_mono_r; lia). lia. }
  rewrite Z.add_0_r, fexp_normal by lia.
  unfold shl_align. rewrite Z.sub_0_r.
  destruct (d - 53) as [|k|k] eqn:Ek; try lia.
  - destruct (round_aux_le p 0 0 (Zpos p) loc_Exact)
      as (m & e & Hr & Hm & _ & Hx & _);
      [subst d; lia|lia|lia|rewrite Z.pow_0_r; lia|congruence|].
    destruct (Hx eq_refl eq_refl) as [-> ->].
    exists p, 0. split; [exact Hr|]. split; [exact Hm|]. split; [lia|].
    change (2 ^ (- 0)) with 1. lia.
  - assert (Hk : Zpos k = 53 - d) by lia.
    assert (Hshift : Zpos (Pos.iter xO p k) = Zpos p * 2 ^ (53 - d))
      by (rewrite iter_xO, Hk; reflexivity).
    assert (H2 : 2 ^ (d - 1) * 2 ^ (53 - d) = 2 ^ 52)
      by (rewrite <- Z.pow_add_r by lia; f_equal; lia).
    assert (H3 : 2 ^ d * 2 ^ (53 - d) = 2 ^ 53)
      by (rewrite <- Z.pow_add_r by lia; f_equal; lia).
    pose proof (pow2_pos (53 - d) ltac:(lia)) as Hpos.
    assert (Hn : 2 ^ 52 <= Zpos (Pos.iter xO p k) < 2 ^ 53)
      by (rewrite Hshift; nia).
    destruct (round_aux_le (Pos.iter xO p k) (Zneg k) 0
                (Zpos (Pos.iter xO p k)) loc_Exact)
      as (m & e & Hr & Hm & _ & Hx & _);
      [rewrite Z.add_0_r; apply digits_unique; change (53 - 1) with 52;
       exact Hn
      |lia|lia|rewrite Z.pow_0_r; lia|congruence|].
    destruct (Hx eq_refl eq_refl) as [-> ->].
    eexists _, _. split; [exact Hr|]. split; [exact Hn|]. split; [lia|].
    rewrite Hshift. do 2 f_equal. lia.
Qed.

(** ** The quotient of two counts *)

Lemma new_location_exact (b r : Z) : new_location b r <> loc_Exact -> r <> 0.
Proof.
  intros H ->. apply H.
  unfold new_location, new_location_even, new_location_odd.
  now destruct (Z.even b).
Qed.

(** The quotient of [mx * 2 ^ ex] by [my * 2 ^ ey], the first not above the
    second, is at most 1, and less than one unit of its last place away
    from the exact quotient. *)
Lemma div_le_one (mx my : positive) (ex ey : Z) :
  2 ^ 52 <= Zpos mx < 2 ^ 53 -> 2 ^ 52 <= Zpos my < 2 ^ 53 ->
  -52 <= ex <= 0 -> -52 <= ey <= 0 ->
  Zpos mx * 2 ^ (- ey) <= Zpos my * 2 ^ (- ex) ->
  exists m e,
    SFdiv prec emax (S754_finite false mx ex) (S754_finite false my ey)
    = S754_finite false m e /\
    2 ^ 52 <= Zpos m < 2 ^ 53 /\ -105 <= e <= -52 /\ Zpos m <= 2 ^ (- e) /\
    (Zpos m - 1) * 2 ^ (e - (ex - ey - 53)) * Zpos my <= Zpos mx * 2 ^ 53
    < (Zpos m + 1) * 2 ^ (e - (ex - ey - 53)) * Zpos my.
Proof.
  intros Hmx Hmy Hex Hey Hle.
  unfold SFdiv, SFdiv_core_binary. cbn [Zdigits2 xorb].
  rewrite (digits_unique mx 53), (digits_unique my 53)
    by (change (53 - 1) with 52; assumption).
  replace (53 + ex - (53 + ey)) with (ex - ey) by lia.
  rewrite fexp_normal by lia.
  rewrite Z.min_l by lia.
  replace (ex - ey - (ex - ey - 53)) with 53 by lia.
  rewrite Z.shiftl_mul_pow2 by lia.
  pose proof (Z.div_mod (Zpos mx * 2 ^ 53) (Zpos my) ltac:(lia)) as Hdm.
  pose proof (Z.mod_pos_bound (Zpos mx * 2 ^ 53) (Zpos my) ltac:(lia)) as Hr.
  unfold Z.div, Z.modulo in Hdm, Hr.
  destruct (Z.div_eucl (Zpos mx * 2 ^ 53) (Zpos my)) as [q r].
  cbn [fst snd] in Hdm, Hr.
  set (E := ex - ey - 53).
  assert (P52 : 2 ^ 52 = 4503599627370496) by reflexivity.
  assert (P53 : 2 ^ 53 = 9007199254740992) by reflexivity.
  assert (P54 : 2 ^ 54 = 18014398509481984) by reflexivity.
  assert (Hq : 2 ^ 52 <= q < 2 ^ 54) by (rewrite P52, P53, P54 in *; nia).
  assert (Hpow : 2 ^ (- ey) * 2 ^ (53 + ey) = 2 ^ 53)
    by (rewrite <- Z.pow_add_r by lia; f_equal; lia).
  assert (Hpow' : 2 ^ (- ex) * 2 ^ (53 + ey) = 2 ^ (- E))
    by (rewrite <- Z.pow_add_r by lia; f_equal; subst E; lia).
  pose proof (pow2_pos (53 + ey) ltac:(lia)) as Hp1.
  assert (Hnum : Zpos mx * 2 ^ 53 <= Zpos my * 2 ^ (- E)).
  { rewrite <- Hpow, <- Hpow'. rewrite !Z.mul_assoc.
    apply Z.mul_le_mono_nonneg_r; lia. }
  assert (HqB : q <= 2 ^ (- E)) by nia.
  assert (HqB' : r <> 0 -> q < 2 ^ (- E)) by nia.
  assert (Hfin : forall n m e,
             0 <= n <= 1 -> 52 + n <= - E ->
             2 ^ 52 <= Zpos m < 2 ^ 53 ->
             (e = E + n /\ Zpos m <= 2 ^ (- (E + n)) \/
              e = E + n + 1 /\ 2 * Zpos m <= 2 ^ (- (E + n))) ->
             -105 <= e <= -52 /\ Zpos m <= 2 ^ (- e)).
  { intros n m e Hn HE Hm Hb.
    assert (He : Zpos m <= 2 ^ (- e)).
    { destruct Hb as [[-> Hb]|[-> Hb]]; [exact Hb|].
      replace (- (E + n)) with (1 + - (E + n + 1)) in Hb by lia.
      rewrite Z.pow_add_r in Hb by lia.
      change (2 ^ 1) with 2 in Hb. lia. }
    split; [|exact He].
    split; [destruct Hb as [[-> _]|[-> _]]; subst E; lia|].
    assert (52 <= - e) by (apply pow2_le_inv; lia). lia. }
  assert (HE : 52 <= - E) by (apply pow2_le_inv; lia).
  assert (Hquot : forall m e,
             (Zpos m - 1) * 2 ^ (e - E) <= q < (Zpos m + 1) * 2 ^ (e - E) ->
             (Zpos m - 1) * 2 ^ (e - E) * Zpos my <= Zpos mx * 2 ^ 53
             < (Zpos m + 1) * 2 ^ (e - E) * Zpos my).
  { intros m e [Hlo Hhi]. split.
    - apply Z.le_trans with (q * Zpos my); [|lia].
      apply Z.mul_le_mono_nonneg_r; lia.
    - apply Z.lt_le_trans with ((q + 1) * Zpos my); [lia|].
      apply Z.mul_le_mono_nonneg_r; lia. }
  destruct q as [|Q|Q]; try lia.
  destruct (Z.ltb_spec (Zpos Q) (2 ^ 53)) as [Hlt|Hge].
  - destruct (round_aux_le Q E 0 (2 ^ (- (E + 0))) (new_location (Zpos my) r))
      as (m & e & Hres & Hm & Hb & _ & Hnear).
    + rewrite Z.add_0_r. apply digits_unique. change (53 - 1) with 52. lia.
    + lia.
    + subst E. lia.
    + rewrite Z.pow_0_r, Z.add_0_r. lia.
    + intros Hl. apply new_location_exact in Hl.
      rewrite Z.pow_0_r, Z.add_0_r. lia.
    + rewrite Hres. exists m, e. split; [reflexivity|]. split; [exact Hm|].
      destruct (Hfin 0 m e) as [He Hv]; [lia|lia|assumption..|].
      split; [exact He|]. split; [exact Hv|]. now apply Hquot.
  - assert (HE' : 53 <= - E) by (apply pow2_le_inv; lia).
    assert (Hpow1 : 2 ^ (- (E + 1)) * 2 ^ 1 = 2 ^ (- E))
      by (rewrite <- Z.pow_add_r by lia; f_equal; lia).
    destruct (round_aux_le Q E 1 (2 ^ (- (E + 1))) (new_location (Zpos my) r))
      as (m & e & Hres & Hm & Hb & _ & Hnear).
    + apply digits_unique. change (53 + 1 - 1) with 53.
      change (53 + 1) with 54. lia.
    + lia.
    + subst E. lia.
    + rewrite Hpow1. lia.
    + intros Hl. apply new_location_exact in Hl. rewrite Hpow1. auto.
    + rewrite Hres. exists m, e. split; [reflexivity|]. split; [exact Hm|].
      destruct (Hfin 1 m e) as [He Hv]; [lia|lia|assumption..|].
      split; [exact He|]. split; [exact Hv|]. now apply Hquot.
Qed.

(** ** The product with 100 *)

Lemma Prim2SF_100 :
  Prim2SF (Number_of_Z 100) = S754_finite false 7036874417766400 (-46).
Proof. vm_compute. reflexivity. Qed.

Lemma mul_100_le (m : positive) (e : Z) :
  2 ^ 52 <= Zpos m < 2 ^ 53 -> -105 <= e <= -52 -> Zpos m <= 2 ^ (- e) ->
  exists m' e',
    SFmul prec emax (S754_finite false m e) (Prim2SF (Number_of_Z 100))
    = S754_finite false m' e' /\
    2 ^ 52 <= Zpos m' < 2 ^ 53 /\
    e' < 0 /\ Zpos m' <= 100 * 2 ^ (- e') /\
    0 <= e' - e /\
    (Zpos m' - 1) * 2 ^ (e' - e) <= 100 * Zpos m
    < (Zpos m' + 1) * 2 ^ (e' - e).
Proof.
  intros Hm He Hle. rewrite Prim2SF_100. cbn [SFmul xorb].
  set (M := (m * 7036874417766400)%positive).
  assert (HM : Zpos M = Zpos m * (100 * 2 ^ 46))
    by (subst M; rewrite Pos2Z.inj_mul; reflexivity).
  set (E := e + -46).
  assert (P52 : 2 ^ 52 = 4503599627370496) by reflexivity.
  assert (P53 : 2 ^ 53 = 9007199254740992) by reflexivity.
  assert (P46 : 2 ^ 46 = 70368744177664) by reflexivity.
  assert (P104 : 2 ^ 104 = 20282409603651670423947251286016) by reflexivity.
  assert (P105 : 2 ^ 105 = 40564819207303340847894502572032) by reflexivity.
  assert (P106 : 2 ^ 106 = 81129638414606681695789005144064) by reflexivity.
  assert (HMb : 2 ^ 104 <= Zpos M < 2 ^ 106) by (rewrite HM; lia).
  assert (Hp : 2 ^ (- e) * 2 ^ 46 = 2 ^ (- E))
    by (rewrite <- Z.pow_add_r by lia; f_equal; subst E; lia).
  assert (HB : Zpos M <= 100 * 2 ^ (- E)) by (rewrite HM, <- Hp; nia).
  assert (Hfin : forall n m' e',
             52 <= n <= 53 ->
             2 ^ 52 <= Zpos m' < 2 ^ 53 ->
             (e' = E + n /\ Zpos m' <= 100 * 2 ^ (- (E + n)) \/
              e' = E + n + 1 /\ 2 * Zpos m' <= 100 * 2 ^ (- (E + n))) ->
             e' < 0 /\ Zpos m' <= 100 * 2 ^ (- e')).
  { intros n m' e' Hn Hm' [[-> Hb]|[-> Hb]]; (split; [subst E; lia|]).
    - exact Hb.
    - replace (- (E + n)) with (1 + - (E + n + 1)) in Hb by lia.
      rewrite Z.pow_add_r in Hb by (subst E; lia).
      change (2 ^ 1) with 2 in Hb. lia. }
  assert (Hsplit : forall n, 0 <= n <= 53 ->
                     2 ^ (- (E + n)) * 2 ^ n = 2 ^ (- E))
    by (intros n Hn; rewrite <- Z.pow_add_r by (subst E; lia); f_equal; lia).
  assert (Hnear' : forall n m' e',
             52 <= n <= 53 ->
             (e' = E + n /\ Zpos m' <= 100 * 2 ^ (- (E + n)) \/
              e' = E + n + 1 /\ 2 * Zpos m' <= 100 * 2 ^ (- (E + n))) ->
             (Zpos m' - 1) * 2 ^ (e' - E) <= Zpos M
             < (Zpos m' + 1) * 2 ^ (e' - E) ->
             0 <= e' - e /\
             (Zpos m' - 1) * 2 ^ (e' - e) <= 100 * Zpos m
             < (Zpos m' + 1) * 2 ^ (e' - e)).
  { intros n m' e' Hn Hb Hnear.
    assert (He' : 0 <= e' - e) by (destruct Hb as [[-> _]|[-> _]]; subst E; lia).
    split; [exact He'|].
    replace (e' - E) with (e' - e + 46) in Hnear by (subst E; lia).
    rewrite Z.pow_add_r, HM in Hnear by lia.
    pose proof (pow2_pos (e' - e) He'). nia. }
  destruct (Z.ltb_spec (Zpos M) (2 ^ 105)) as [Hlt|Hge].
  - destruct (round_aux_le M E 52 (100 * 2 ^ (- (E + 52))) loc_Exact)
      as (m' & e' & Hres & Hm' & Hb & _ & Hnear).
    + apply digits_unique. change (53 + 52 - 1) with 104.
      change (53 + 52) with 105. lia.
    + lia.
    + subst E. lia.
    + rewrite <- Z.mul_assoc, Hsplit by lia. exact HB.
    + congruence.
    + exists m', e'. split; [exact Hres|]. split; [exact Hm'|].
      destruct (Hfin 52 m' e') as [He' Hv]; [lia|assumption..|].
      split; [exact He'|]. split; [exact Hv|].
      apply (Hnear' 52); [lia|assumption..].
  - destruct (round_aux_le M E 53 (100 * 2 ^ (- (E + 53))) loc_Exact)
      as (m' & e' & Hres & Hm' & Hb & _ & Hnear).
    + apply digits_unique. change (53 + 53 - 1) with 105.
      change (53 + 53) with 106. lia.
    + lia.
    + subst E. lia.
    + rewrite <- Z.mul_assoc, Hsplit by lia. exact HB.
    + congruence.
    + exists m', e'. split; [exact Hres|]. split; [exact Hm'|].
      destruct (Hfin 53 m' e') as [He' Hv]; [lia|assumption..|].
      split; [exact He'|]. split; [exact Hv|].
      apply (Hnear' 53); [lia|assumption..].
Qed.

(** ** The rounding to an integer *)

Lemma Math_round_le (x : float) (m : positive) (e : Z) :
  Prim2SF x = S754_finite false m e -> e < 0 -> Zpos m <= 100 * 2 ^ (- e) ->
  exists k,
    Math_round x = Number_of_Z k /\ 0 <= k <= 100 /\
    2 * k * 2 ^ (- e) <= 2 * Zpos m + 2 ^ (- e) < 2 * (k + 1) * 2 ^ (- e).
Proof.
  intros Hx He Hle. unfold Math_round. rewrite Hx.
  destruct (Z.leb_spec 0 e); [lia|].
  eexists. split; [reflexivity|].
  rewrite Z.shiftr_div_pow2, Z.shiftl_mul_pow2, Z.mul_1_l by lia.
  pose proof (pow2_pos (- e - 1) ltac:(lia)) as Hh.
  assert (Hp : 2 ^ (- e) = 2 * 2 ^ (- e - 1)).
  { replace (- e) with (1 + (- e - 1)) at 1 by lia.
    now rewrite Z.pow_add_r by lia. }
  assert (HY : 0 < 2 ^ (- e)) by lia.
  pose proof (Z.mul_div_le (Zpos m + 2 ^ (- e - 1)) (2 ^ (- e)) HY) as Hlo.
  pose proof (Z.mul_succ_div_gt (Zpos m + 2 ^ (- e - 1)) (2 ^ (- e)) HY) as Hhi.
  set (k := (Zpos m + 2 ^ (- e - 1)) / 2 ^ (- e)) in *.
  split; [split|].
  - apply Z.div_pos; lia.
  - assert (k < 101); [|lia].
    apply Z.div_lt_upper_bound; lia.
  - lia.
Qed.

(** A double within one unit of a ratio has the same rounding as the
    ratio, or a neighbour of it.  [X], [Y] and [G] stand for the powers of
    two that scale the quotient, the product, and one to the other. *)
Lemma rounding_near (c t mq mP k X Y G : Z) :
  0 < c <= t -> 0 < G -> 102 <= Y -> X = G * Y ->
  (mq - 1) * t <= c * X < (mq + 1) * t ->
  (mP - 1) * G <= 100 * mq < (mP + 1) * G ->
  2 * k * Y <= 2 * mP + Y < 2 * (k + 1) * Y ->
  round_half_up (100 * c) t - 1 <= k <= round_half_up (100 * c) t + 1.
Proof.
  intros Hc HG HY HX [HAl HAr] [HBl HBr] [HKl HKr].
  assert (Ht : 0 < t) by lia.
  assert (HGX : 100 + G < X).
  { assert (G * 102 <= G * Y) by (apply Z.mul_le_mono_nonneg_l; lia). lia. }
  (* the double is less than one away from the ratio *)
  assert (HVu : mP * t < (100 * c + t) * Y).
  { assert (H1 : mP * G * t <= (100 * mq + G) * t)
      by (apply Z.mul_le_mono_nonneg_r; lia).
    assert (H2 : 100 * (mq * t) <= 100 * (c * X + t)) by lia.
    assert (H3 : (100 + G) * t < X * t)
      by (apply Z.mul_lt_mono_pos_r; lia).
    assert (H4 : mP * t * G < (100 * c + t) * Y * G).
    { replace ((100 * c + t) * Y * G) with (100 * (c * X) + X * t)
        by (subst X; ring).
      replace (mP * t * G) with (mP * G * t) by ring.
      replace ((100 * mq + G) * t) with (100 * (mq * t) + G * t) in H1
        by ring.
      replace ((100 + G) * t) with (100 * t + G * t) in H3 by ring.
      lia. }
    now apply Z.mul_lt_mono_pos_r in H4. }
  assert (HVl : (100 * c - t) * Y < mP * t).
  { assert (H1 : (100 * mq - G + 1) * t <= mP * G * t)
      by (apply Z.mul_le_mono_nonneg_r; lia).
    assert (H2 : 100 * (c * X - t + 1) <= 100 * (mq * t)) by lia.
    assert (H3 : (100 + G) * t < X * t)
      by (apply Z.mul_lt_mono_pos_r; lia).
    assert (H4 : (100 * c - t) * Y * G < mP * t * G).
    { replace ((100 * c - t) * Y * G) with (100 * (c * X) - X * t)
        by (subst X; ring).
      replace (mP * t * G) with (mP * G * t) by ring.
      replace ((100 * mq - G + 1) * t) with (100 * (mq * t) - G * t + t)
        in H1 by ring.
      replace ((100 + G) * t) with (100 * t + G * t) in H3 by ring.
      lia. }
    now apply Z.mul_lt_mono_pos_r in H4. }
  (* the exact rounding *)
  unfold round_half_up.
  assert (H2t : 0 < 2 * t) by lia.
  pose proof (Z.mul_div_le (2 * (100 * c) + t) (2 * t) H2t) as HRl.
  pose proof (Z.mul_succ_div_gt (2 * (100 * c) + t) (2 * t) H2t) as HRr.
  set (r := (2 * (100 * c) + t) / (2 * t)) in *.
  assert (HYt : 0 < Y * t) by (apply Z.mul_pos_pos; lia).
  split.
  - (* r - 1 <= k *)
    assert (H : (2 * t * (r - 1)) * Y < (2 * (k + 1) * Y) * t).
    { apply Z.le_lt_trans with ((200 * c - t) * Y).
      - apply Z.mul_le_mono_nonneg_r; lia.
      - replace (2 * (k + 1) * Y * t) with ((2 * (k + 1) * Y) * t) by ring.
        apply Z.lt_le_trans with (2 * (mP * t) + Y * t).
        + replace ((200 * c - t) * Y) with (2 * ((100 * c - t) * Y) + Y * t)
            by ring.
          lia.
        + replace (2 * (mP * t) + Y * t) with ((2 * mP + Y) * t) by ring.
          apply Z.mul_le_mono_nonneg_r; lia. }
    replace (2 * t * (r - 1) * Y) with ((r - 1) * (2 * (Y * t))) in H by ring.
    replace (2 * (k + 1) * Y * t) with ((k + 1) * (2 * (Y * t))) in H by ring.
    apply Z.mul_lt_mono_pos_r in H; lia.
  - (* k <= r + 1 *)
    assert (H : (2 * k * Y) * t < (2 * t * (r + 2)) * Y).
    { apply Z.le_lt_trans with ((2 * mP + Y) * t).
      - apply Z.mul_le_mono_nonneg_r; lia.
      - replace ((2 * mP + Y) * t) with (2 * (mP * t) + Y * t) by ring.
        apply Z.lt_le_trans with ((200 * c + 3 * t) * Y).
        + replace ((200 * c + 3 * t) * Y)
            with (2 * ((100 * c + t) * Y) + Y * t) by ring.
          lia.
        + apply Z.mul_le_mono_nonneg_r; [lia|].
          replace (2 * t * Z.succ r) with (2 * t * r + 2 * t) in HRr by ring.
          replace (2 * t * (r + 2)) with (2 * t * r + 4 * t) by ring.
          lia. }
    replace (2 * k * Y * t) with (k * (2 * (Y * t))) in H by ring.
    replace (2 * t * (r + 2) * Y) with ((r + 2) * (2 * (Y * t))) in H by ring.
    apply Z.mul_lt_mono_pos_r in H; lia.
Qed.

(** The percentage that a part [c] is of a total [t], as the engine
    computes it, is an integer from 0 to 100, and is the rounded exact
    ratio or a neighbour of it. *)
Lemma percentage_in_range (c t : Z) :
  0 < c <= t -> t < 2 ^ 53 ->
  exists k,
    Math_round (mul (div (Number_of_Z c) (Number_of_Z t)) (Number_of_Z 100))
    = Number_of_Z k /\
    0 <= k <= 100 /\
    round_half_up (100 * c) t - 1 <= k <= round_half_up (100 * c) t + 1.
Proof.
  intros Hc Ht.
  destruct (Number_of_Z_spec c ltac:(lia)) as (mc & ec & Hpc & Hmc & Hec & Hvc).
  destruct (Number_of_Z_spec t ltac:(lia)) as (mt & et & Hpt & Hmt & Het & Hvt).
  destruct (div_le_one mc mt ec et Hmc Hmt Hec Het)
    as (mq & eq & Hq & Hmq & Heq & Hvq & Hnq).
  { rewrite Hvc, Hvt.
    pose proof (pow2_pos (- ec) ltac:(lia)).
    pose proof (pow2_pos (- et) ltac:(lia)). nia. }
  destruct (mul_100_le mq eq Hmq Heq Hvq)
    as (m & e & Hm & Hmb & He & Hv & Hee & Hnp).
  destruct (Math_round_le
              (mul (div (Number_of_Z c) (Number_of_Z t)) (Number_of_Z 100))
              m e) as (k & Hk & Hrange & Hnk); [|assumption..|].
  { rewrite FloatAxioms.mul_spec, FloatAxioms.div_spec, Hpc, Hpt.
    unfold SF64mul, SF64div. now rewrite Hq. }
  exists k. split; [exact Hk|]. split; [exact Hrange|].
  assert (P52 : 2 ^ 52 = 4503599627370496) by reflexivity.
  apply (rounding_near c t (Zpos mq) (Zpos m) k
           (2 ^ (- eq)) (2 ^ (- e)) (2 ^ (e - eq)));
    try assumption.
  - now apply pow2_pos.
  - lia.
  - rewrite <- Z.pow_add_r by lia. f_equal. lia.
  - (* the quotient against the ratio *)
    set (D := eq - (ec - et - 53)) in *.
    assert (HD : 0 <= D).
    { destruct (Z.leb_spec 0 D); [assumption|exfalso].
      rewrite (Z.pow_neg_r 2 D) in Hnq by lia. lia. }
    pose proof (pow2_pos D HD) as HpD.
    pose proof (pow2_pos (- et) ltac:(lia)) as Hpt'.
    assert (Hscale : 2 ^ (- ec) * 2 ^ 53 = 2 ^ (- eq) * (2 ^ D * 2 ^ (- et))).
    { rewrite <- !Z.pow_add_r by lia. f_equal. subst D. lia. }
    rewrite Hvc, Hvt in Hnq.
    replace (c * 2 ^ (- ec) * 2 ^ 53)
      with (c * 2 ^ (- eq) * (2 ^ D * 2 ^ (- et))) in Hnq
      by (rewrite <- !Z.mul_assoc, <- Hscale; ring).
    replace ((Zpos mq - 1) * 2 ^ D * (t * 2 ^ (- et)))
      with ((Zpos mq - 1) * t * (2 ^ D * 2 ^ (- et))) in Hnq by ring.
    replace ((Zpos mq + 1) * 2 ^ D * (t * 2 ^ (- et)))
      with ((Zpos mq + 1) * t * (2 ^ D * 2 ^ (- et))) in Hnq by ring.
    assert (HK : 0 < 2 ^ D * 2 ^ (- et)) by nia.
    destruct Hnq as [Hlo Hhi].
    apply Z.mul_le_mono_pos_r in Hlo; [|exact HK].
    apply Z.mul_lt_mono_pos_r in Hhi; [|exact HK].
    now split.
Qed.

End Doubles.
End DoubleFacts.

(** ** The percentage of a boundary *)

Lemma boundary_retention {R : Runtime} (lines : list string)
    (b : BoundaryDetector.Boundary) :
  In b (BoundaryDetector.boundaries (BoundaryDetector.detectBoundaries lines)) ->
  BoundaryDetector.retentionPercentage b =
  BoundaryDetector.retention
    (String.length (join BoundaryDetector.newline lines))
    (BoundaryDetector.linePositions lines) (BoundaryDetector.lineNumber b).
Proof.
  cbn [BoundaryDetector.boundaries BoundaryDetector.detectBoundaries].
  intros H. apply Array_sort_In in H. rewrite pushed_spec in H.
  apply in_app_or in H as [H|H];
    apply in_map_iff in H as [[n line] [<- Hn]]; reflexivity.
Qed.


(** * The properties on the sample transcripts *)

Section OnSamples.
#[local] Existing Instance RefJSON.runtime.
Import Samples.

(** ** The repository's tests, run on the embedding *)

(** 'should keep messages from last N assistant messages' *)
Example keeps_last_two_turns :
  let r := Index.pruneSessionLines three_turns 2 in
  (List.length (outLines r), kept r, dropped r, Index.assistantCount r)
  = (4, 3, 3, 3).
Proof. vm_compute. reflexivity. Qed.

(** 'should keep all messages if assistant count <= keepN' *)
Example keeps_all_turns :
  let r := Index.pruneSessionLines two_turns 5 in
  (outLines r, kept r, dropped r, Index.assistantCount r)
  = (two_turns, 4, 0, 2).
Proof. vm_compute. reflexivity. Qed.

(** 'should handle negative keepN' *)
Example negative_keepN :
  let r := Index.pruneSessionLines one_turn (-5) in
  (outLines r, kept r, dropped r, Index.assistantCount r)
  = ([summary], 0, 2, 1).
Proof. vm_compute. reflexivity. Qed.

(** 'should drop tool_results whose tool_use was pruned' *)
Example drops_orphans :
  outLines (Index.pruneSessionLines orphans 1)
  = [summary; assistant_with "2" "tool-new-1";
     result_of "tool-new-1" "new result"].
Proof. vm_compute. reflexivity. Qed.

(** 'should zero out the last non-zero cache_read_input_tokens' *)
Example zeroes_last_counter :
  outLines (Index.pruneSessionLines cached 10)
  = [summary; with_cache "user" "1" 500; with_cache "assistant" "2" 1000;
     with_cache "user" "3" 0; with_cache "assistant" "4" 0].
Proof. vm_compute. reflexivity. Qed.

(** 'should prune to boundary correctly' *)
Example prunes_to_boundary :
  BoundaryDetector.pruneToBoundary two_turns 3
  = {| outLines := [summary; message "user" "3"; message "assistant" "4"];
       kept := 2;
       dropped := 2 |}.
Proof. vm_compute. reflexivity. Qed.

(** 'should calculate retention percentages correctly': 27 of 39
    characters are retained from the marker on, which is 69 percent. *)
Example retention_operands_of_test :
  BoundaryDetector.detectBoundaries
    ["line1"; "line2"; "===INTENT_BOUNDARY==="; "line4"]
  = {| BoundaryDetector.boundaries :=
         [{| BoundaryDetector.lineNumber := 2;
             BoundaryDetector.type := BoundaryDetector.Intent;
             BoundaryDetector.description := "Boundary marker";
             BoundaryDetector.timestamp := None;
             BoundaryDetector.retentionPercentage := Number_of_Z 69;
             BoundaryDetector.characterCount := 27;
             BoundaryDetector.intent := None |}];
       BoundaryDetector.totalCharacters := 39 |}.
Proof. vm_compute. reflexivity. Qed.

(** 'should extract intent from boundary markers with new format' and
    'should handle boundary markers with timestamp but no intent' *)
Example marker_labels_of_tests :
  BoundaryDetector.marker_labels
    "===INTENT_BOUNDARY=== 2024-01-15T10:30:00 | feat: Add user authentication"
  = ("feat: Add user authentication", Some "2024-01-15T10:30:00",
     Some "feat: Add user authentication") /\
  BoundaryDetector.marker_labels "===INTENT_BOUNDARY=== 2024-01-15T10:30:00"
  = ("Boundary marker", Some "2024-01-15T10:30:00", None).
Proof. vm_compute. split; reflexivity. Qed.

(** 'should handle multiple git commits in sequence' and 'should handle git
    commit tool_result without matching tool_call' *)
Example commit_descriptions :
  map BoundaryDetector.description
    (BoundaryDetector.boundaries (BoundaryDetector.detectBoundaries two_commits))
  = ["Git commit: feat: Second commit"; "Git commit: feat: First commit"] /\
  map BoundaryDetector.description
    (BoundaryDetector.boundaries
       (BoundaryDetector.detectBoundaries
          [summary;
           bash_result "3 files changed, 15 insertions(+), 2 deletions(-)"]))
  = ["Successful commit"].
Proof. vm_compute. split; reflexivity. Qed.

(** 'should detect boundaries with both intent markers and git commits' *)
Example markers_and_commits :
  map (fun b => (BoundaryDetector.lineNumber b, BoundaryDetector.type b,
                 BoundaryDetector.description b))
    (BoundaryDetector.boundaries
       (BoundaryDetector.detectBoundaries markers_and_commit))
  = [(5, BoundaryDetector.Intent, "Continue work");
     (4, BoundaryDetector.GitCommit, "Git commit: feat: Add auth");
     (1, BoundaryDetector.Intent, "Start feature")].
Proof. vm_compute. reflexivity. Qed.

(** The scan reads [usage] before [message.usage]: a counter behind a
    [usage] that has none is not seen, and the transcript is returned as it
    was read; of two counters only the one at [usage] is reset. *)
Example reads_usage_first :
  cacheBearing shadowed = false /\
  outLines (Index.pruneSessionLines [summary; shadowed] 5)
  = [summary; shadowed] /\
  outLines (BoundaryDetector.pruneToBoundary [summary; shadowed] 1)
  = [summary; shadowed] /\
  outLines (Index.pruneSessionLines [summary; both_counters 5 7] 5)
  = [summary; both_counters 0 7] /\
  outLines (BoundaryDetector.pruneToBoundary [summary; both_counters 5 7] 1)
  = [summary; both_counters 0 7].
Proof. vm_compute. repeat split. Qed.

(** [Math.round] on halves: a tie goes up, to [-0] from [-0.5]. *)
Example rounds_ties_up :
  let half (z : Z) := PrimFloat.div (Number_of_Z z) (Number_of_Z 2) in
  map Math_round [half 1%Z; half 5%Z; half (-1)%Z; half (-5)%Z; half 4%Z]
  = [Number_of_Z 1; Number_of_Z 3; PrimFloat.neg_zero; Number_of_Z (-2);
     Number_of_Z 2].
Proof. vm_compute. reflexivity. Qed.

(** ** Witnesses and counterexamples *)

(** A line of a computed output is none of the assistant records the claim
    asks for. *)
Ltac no_tool_use H :=
  let obj := fresh "obj" in
  let Hp := fresh "Hp" in
  let Ht := fresh "Ht" in
  destruct H as (obj & ? & ? & Hp & Ht & _);
  vm_compute in Hp; injection Hp as <-; vm_compute in Ht; discriminate Ht.

(** C1 fails as stated: the head of the output is exempt from the orphan
    filter.  A transcript that opens with a [tool_result] record keeps that
    record in the output of both operations, and no assistant record of the
    output carries its [tool_use_id]. *)
Lemma referential_integrity_counterexample :
  let line := result_of "tool-old-1" "old result" in
  let session := outLines (Index.pruneSessionLines result_first 1) in
  let boundary := outLines (BoundaryDetector.pruneToBoundary result_first 1) in
  nth_error session 0 = Some line /\
  nth_error boundary 0 = Some line /\
  tool_result_for line (JStr "tool-old-1") /\
  ~ referential_integrity session session /\
  ~ referential_integrity boundary boundary.
Proof.
  intros line session boundary.
  assert (Hline : tool_result_for line (JStr "tool-old-1")).
  { eexists. split; [vm_compute; reflexivity|]. now vm_compute. }
  assert (Hs : session = result_first) by (vm_compute; reflexivity).
  assert (Hb : boundary = result_first) by (vm_compute; reflexivity).
  split; [rewrite Hs; reflexivity|].
  split; [rewrite Hb; reflexivity|].
  split; [assumption|].
  split; [rewrite Hs|rewrite Hb]; intros H;
    destruct (H line (JStr "tool-old-1") (or_introl eq_refl) Hline)
      as [a [[<-|[<-|[]]] Huse]]; no_tool_use Huse.
Qed.

(** The amended C1 on the transcript of 'should filter orphaned
    tool_results when pruning'. *)
Lemma referential_integrity_after_head_witness :
  (let out := body (outLines (Index.pruneSessionLines orphans 1)) in
   referential_integrity out out) /\
  (let out := body (outLines (BoundaryDetector.pruneToBoundary orphans 3)) in
   referential_integrity out out).
Proof.
  exact (referential_integrity_after_head (L := RefJSON_laws) orphans 1 3).
Defined.



(** C4 fails as stated when the last cache-bearing record is the head: both
    operations return the transcript as it was read, the counter of the head
    still at [5]. *)
Lemma usage_counter_counterexample :
  lastNonZeroCacheLineIndex cached_head = 0%Z /\
  outLines (Index.pruneSessionLines cached_head 5) = cached_head /\
  outLines (BoundaryDetector.pruneToBoundary cached_head 1) = cached_head /\
  (forall ln obj, In ln cached_head -> JSON_parse ln = Some obj ->
                  cacheTokens obj <> Some (JNum 0)).
Proof.
  repeat split; try (vm_compute; reflexivity).
  intros ln obj [<-|[<-|[<-|[]]]] Hp; vm_compute in Hp;
    injection Hp as <-; vm_compute; discriminate.
Qed.

(** The amended C4 on the transcript of 'should zero out the last non-zero
    cache_read_input_tokens': its last cache-bearing line is line 3, a
    message record after the cut. *)
Lemma usage_counter_zeroed_witness :
  let session := outLines (Index.pruneSessionLines cached 10) in
  let boundary := outLines (BoundaryDetector.pruneToBoundary cached 1) in
  exists obj obj',
    JSON_parse (with_cache "user" "3" 1500) = Some obj /\
    counter_reset obj obj' /\
    JSON_parse (JSON_stringify obj') = Some obj' /\
    In (JSON_stringify obj') session /\
    In (JSON_stringify obj') boundary.
Proof.
  destruct (usage_counter_zeroed (L := RefJSON_laws) cached 10 1 3
              (with_cache "user" "3" 1500))
    as (obj & obj' & Hp & Hz & H0 & Hs & Hb).
  - reflexivity.
  - apply cacheBearing_iff. vm_compute. reflexivity.
  - intros m lm Hm Hn Hc. apply cacheBearing_iff in Hc. revert Hc.
    do 4 (destruct m as [|m]; [lia|]).
    destruct m as [|[|m]]; [injection Hn as <- | discriminate..].
    vm_compute. discriminate.
  - lia.
  - exists obj, obj'.
    split; [exact Hp|]. split; [exact Hz|]. split; [exact H0|]. split.
    + apply Hs. left. split; vm_compute; reflexivity.
    + apply Hb; [lia|]. left. vm_compute. reflexivity.
Defined.

(** C5 fails as stated: on the transcript of 'should handle keepN = 0', with
    two assistant records, [keepN = 0] leaves the head alone; the first
    assistant record is not in the output. *)
Lemma keep_zero_counterexample :
  let r := Index.pruneSessionLines two_turns 0 in
  Index.assistantCount r = 2 /\
  Index.cut two_turns 0 = None /\
  outLines r = [summary] /\
  ~ In (message "assistant" "2") (outLines r).
Proof.
  vm_compute. repeat split. intros [H|[]]. discriminate H.
Qed.

(** The amended C5 on that transcript. *)
Lemma keep_zero_drops_every_message_witness :
  let r := Index.pruneSessionLines two_turns 0 in
  Index.cut two_turns 0 = None /\
  kept r = 0 /\
  dropped r = List.length (filter isMsg (body two_turns)) /\
  (forall ln, In ln (body (outLines r)) -> isMsg ln = false).
Proof.
  apply (keep_zero_drops_every_message (L := RefJSON_laws) two_turns 0).
  - lia.
  - vm_compute. lia.
Defined.

(** C6 fails as stated: on the transcript of 'should zero out
    cache_read_input_tokens', with one assistant record and [keepN = 10],
    the first run zeroes the counter of the assistant record and the second
    run zeroes that of the user record before it: the two outputs differ. *)
Lemma second_run_counterexample :
  let first := Index.pruneSessionLines cached_twice 10 in
  let second := Index.pruneSessionLines (outLines first) 10 in
  (Z.of_nat (List.length (Index.assistantIndexes (outLines first))) <= 10)%Z /\
  nth_error (outLines first) 1 = Some (with_cache "user" "1" 1000) /\
  nth_error (outLines second) 1 = Some (with_cache "user" "1" 0) /\
  outLines second <> outLines first.
Proof.
  vm_compute. repeat split; discriminate.
Qed.

(** The amended C6 on the transcript of 'should keep messages from last N
    assistant messages' with [keepN = 2]: the first output has two assistant
    records and no cache-bearing line. *)
Lemma second_run_same_keepN_witness :
  let first := Index.pruneSessionLines three_turns 2 in
  let out := outLines first in
  let second := Index.pruneSessionLines out 2 in
  outLines second = firstn 1 out ++ body (processedLines out) /\
  kept second = kept first /\
  dropped second = 0 /\
  outLines second = out.
Proof.
  destruct (second_run_same_keepN (L := RefJSON_laws) three_turns 2)
    as (Hout & Hkept & Hdropped & Hsame).
  - vm_compute. discriminate.
  - split; [exact Hout|]. split; [exact Hkept|]. split; [exact Hdropped|].
    apply Hsame. intros ln Hin. vm_compute in Hin.
    destruct Hin as [<-|[<-|[<-|[]]]]; vm_compute; reflexivity.
Defined.

(** C7 fails as stated: a commit result that quotes the marker yields two
    boundaries on line 0, and the list is not strictly descending. *)
Lemma twin_boundaries_counterexample :
  let found :=
    BoundaryDetector.boundaries
      (BoundaryDetector.detectBoundaries [commit_with_marker]) in
  map BoundaryDetector.lineNumber found = [0; 0] /\
  ~ Sorted (fun a b => BoundaryDetector.lineNumber b
                       < BoundaryDetector.lineNumber a) found.
Proof.
  split; [vm_compute; reflexivity|].
  vm_compute. intros H.
  apply Sorted_inv in H as [_ H]. apply HdRel_inv in H. lia.
Qed.



(** C9 on the transcript of 'should handle boundary past end of array'. *)
Lemma boundary_past_end_witness :
  let r := BoundaryDetector.pruneToBoundary one_turn 10 in
  outLines r = [summary] /\
  kept r = 0 /\
  dropped r = List.length (filter isMsg (body one_turn)).
Proof.
  apply (boundary_past_end (L := RefJSON_laws) summary (body one_turn) 10).
  simpl. lia.
Defined.



End OnSamples.

(** * More properties of the pruning engine *)

(** ** Lists: selections and subsequences *)

Section Selections.
Context {A : Type}.

Lemma filter_from_partition (p q : A -> nat -> bool) (l : list A) (i : nat) :
  List.length (filter_from (fun x n => p x n && q x n) l i)
  + List.length (filter_from (fun x n => p x n && negb (q x n)) l i)
  = List.length (filter_from p l i).
Proof.
  revert i. induction l as [|x l IH]; intros i; simpl; [reflexivity|].
  specialize (IH (S i)).
  destruct (p x i), (q x i); simpl; lia.
Qed.

Lemma subsequence_refl (l : list A) : subsequence l l.
Proof. induction l; constructor; assumption. Qed.

Lemma subsequence_nil_l (l : list A) : subsequence [] l.
Proof. induction l; constructor; assumption. Qed.

Lemma subsequence_app (s1 s2 l1 l2 : list A) :
  subsequence s1 l1 -> subsequence s2 l2 -> subsequence (s1 ++ s2) (l1 ++ l2).
Proof.
  intros H1 H2. induction H1; simpl; try constructor; assumption.
Qed.

Lemma subsequence_length (s l : list A) :
  subsequence s l -> List.length s <= List.length l.
Proof. induction 1; simpl; lia. Qed.

Lemma subsequence_In (s l : list A) (x : A) :
  subsequence s l -> In x s -> In x l.
Proof.
  induction 1; simpl; intros Hx; [assumption|right; auto|].
  destruct Hx; [left; assumption|right; auto].
Qed.

Lemma subsequence_trans (a b c : list A) :
  subsequence a b -> subsequence b c -> subsequence a c.
Proof.
  intros Hab Hbc. revert a Hab.
  induction Hbc; intros a Hab.
  - assumption.
  - constructor. auto.
  - inversion Hab; subst.
    + apply subsequence_skip. auto.
    + apply subsequence_keep. auto.
Qed.

Lemma filter_from_mono (p q : A -> nat -> bool) (l : list A) (i : nat) :
  (forall x n, nth_error l n = Some x ->
               p x (i + n) = true -> q x (i + n) = true) ->
  subsequence (filter_from p l i) (filter_from q l i).
Proof.
  revert i. induction l as [|x l IH]; intros i H; simpl; [constructor|].
  assert (Hl : subsequence (filter_from p l (S i)) (filter_from q l (S i))).
  { apply IH. intros y n Hn. replace (S i + n) with (i + S n) by lia.
    now apply (H y (S n)). }
  specialize (H x 0 eq_refl). rewrite Nat.add_0_r in H.
  destruct (p x i), (q x i).
  - now apply subsequence_keep.
  - discriminate H. reflexivity.
  - now apply subsequence_skip.
  - exact Hl.
Qed.

Lemma filter_from_subsequence (p : A -> nat -> bool) (l : list A) (i : nat) :
  subsequence (filter_from p l i) l.
Proof.
  revert i. induction l as [|x l IH]; intros i; simpl; [constructor|].
  destruct (p x i); constructor; apply IH.
Qed.

Lemma filter_subsequence (p : A -> bool) (l : list A) :
  subsequence (filter p l) l.
Proof.
  induction l as [|x l IH]; simpl; [constructor|].
  destruct (p x); constructor; apply IH.
Qed.

End Selections.

(** ** The counters *)

Section Counters.
Context {R : Runtime} {L : RuntimeLaws R}.

Lemma messages_split (q : nat -> bool) (l : list string) :
  List.length (filter_from (fun ln idx => isMsg ln && q idx) l 1)
  + List.length (filter_from (fun ln idx => isMsg ln && negb (q idx)) l 1)
  = List.length (filter isMsg l).
Proof.
  rewrite <- (filter_from_filter isMsg l 1).
  apply (filter_from_partition (fun ln _ => isMsg ln) (fun _ idx => q idx)).
Qed.

Lemma kept_of_boundary_output (lines : list string) (b : Z) :
  let r := BoundaryDetector.pruneToBoundary lines b in
  List.length (filter isMsg (body (outLines r))) = kept r.
Proof.
  cbv zeta. rewrite boundary_run. cbn [outLines kept].
  rewrite body_out by apply filter_from_body_empty.
  rewrite filter_filter_from. f_equal. apply filter_from_ext.
  intros x n _. unfold boundary_keeps.
  destruct (isMsg x), (b <=? Z.of_nat (1 + n))%Z; cbn;
    rewrite ?andb_false_r; reflexivity.
Qed.

End Counters.

(** X1. In both operations every message record after the head is counted
    once, as kept or as dropped: [kept + dropped] is the number of message
    records after the head, the [total] that [pruneSessionLines] computes
    and does not use. *)
Theorem counters_account {R : Runtime} {L : RuntimeLaws R}
    (lines : list string) (keepN boundaryLineNumber : Z) :
  let session := Index.pruneSessionLines lines keepN in
  let boundary := BoundaryDetector.pruneToBoundary lines boundaryLineNumber in
  kept session + dropped session = List.length (filter isMsg (body lines)) /\
  kept boundary + dropped boundary = List.length (filter isMsg (body lines)).
Proof.
  cbv zeta. split.
  - rewrite session_run. cbn [kept dropped].
    rewrite (messages_split (fun idx => Index.ge_cut idx (Index.cut lines keepN))).
    apply isMsg_count_processed.
  - rewrite boundary_run. cbn [kept dropped].
    rewrite (messages_split (fun idx => (boundaryLineNumber <=? Z.of_nat idx)%Z)).
    apply isMsg_count_processed.
Qed.

(** X2. In both operations [kept] is the number of message records among
    the output lines after the head. *)
Theorem kept_counts_output_messages {R : Runtime}
    (lines : list string) (keepN boundaryLineNumber : Z) :
  let session := Index.pruneSessionLines lines keepN in
  let boundary := BoundaryDetector.pruneToBoundary lines boundaryLineNumber in
  kept session = List.length (filter isMsg (body (outLines session))) /\
  kept boundary = List.length (filter isMsg (body (outLines boundary))).
Proof.
  cbv zeta. split; symmetry.
  - apply kept_of_output.
  - apply kept_of_boundary_output.
Qed.

(** ** The output is a selection of the input *)

Section Selection.
Context {R : Runtime}.

Lemma processLine_cases (last : Z) (ln : string) (i : nat) :
  processLine last ln i = ln \/
  (Z.of_nat i = last /\
   exists obj obj',
     JSON_parse ln = Some obj /\ zeroCache obj = Some obj' /\
     processLine last ln i = JSON_stringify obj').
Proof.
  unfold processLine.
  destruct (Z.eqb_spec (Z.of_nat i) last) as [E|]; [|now left].
  destruct (JSON_parse ln) as [obj|] eqn:Hp; [|now left].
  cbn [bind]. destruct (zeroCache obj) as [obj'|] eqn:Hz; [|now left].
  right. split; [assumption|]. now exists obj, obj'.
Qed.

Lemma candidates_cons (l : string) (ls : list string) :
  candidates (l :: ls) =
  l :: map_from (processLine (lastNonZeroCacheLineIndex (l :: ls))) ls 1.
Proof. unfold candidates. now rewrite processedLines_cons. Qed.

Lemma candidates_length (lines : list string) :
  List.length (candidates lines) = List.length lines.
Proof.
  destruct lines as [|l ls]; [reflexivity|].
  rewrite candidates_cons. simpl. now rewrite map_from_length.
Qed.

Lemma candidates_nth_error (lines : list string) (i : nat) :
  nth_error (candidates lines) i =
  option_map
    (fun ln => if (i =? 0)%nat then ln
               else processLine (lastNonZeroCacheLineIndex lines) ln i)
    (nth_error lines i).
Proof.
  destruct lines as [|l ls]; [now destruct i|].
  rewrite candidates_cons. destruct i as [|n]; [reflexivity|].
  cbn [nth_error Nat.eqb]. now rewrite map_from_nth_error.
Qed.

Lemma session_selects (lines : list string) (keepN : Z) :
  subsequence (outLines (Index.pruneSessionLines lines keepN))
    (candidates lines).
Proof.
  rewrite session_run. cbn [outLines]. unfold candidates.
  apply subsequence_app; [apply subsequence_refl|].
  apply filter_from_subsequence.
Qed.

Lemma boundary_selects (lines : list string) (b : Z) :
  subsequence (outLines (BoundaryDetector.pruneToBoundary lines b))
    (candidates lines).
Proof.
  rewrite boundary_run. cbn [outLines]. unfold candidates.
  apply subsequence_app; [apply subsequence_refl|].
  apply filter_from_subsequence.
Qed.

End Selection.


(** ** The assistant records that stay *)

Section Matches.
Context {A : Type}.

Lemma matches_from_length (p : A -> bool) (l : list A) (i : nat) :
  List.length (matches_from p l i) = List.length (filter p l).
Proof.
  revert i. induction l as [|x l IH]; intros i; simpl; [reflexivity|].
  destruct (p x); simpl; now rewrite IH.
Qed.

Lemma matches_from_index_In (p : A -> bool) (l : list A) (i c : nat) :
  In c (map fst (matches_from p l i)) -> i <= c < i + List.length l.
Proof.
  intros H. apply in_map_iff in H as ([n x] & <- & H).
  now apply matches_from_bounds in H.
Qed.

Lemma filter_from_nth_match (p : A -> bool) (l : list A) (i j c : nat) :
  nth_error (map fst (matches_from p l i)) j = Some c ->
  filter_from (fun x n => p x && (c <=? n)%nat) l i = skipn j (filter p l).
Proof.
  revert i j. induction l as [|x l IH]; intros i j H.
  - now destruct j.
  - cbn [matches_from filter filter_from] in *.
    destruct (p x) eqn:Hp; cbn [andb map fst] in *.
    + destruct j as [|j]; cbn [nth_error skipn] in *.
      * injection H as <-. rewrite Nat.leb_refl. f_equal.
        rewrite <- (filter_from_filter p l (S i)).
        apply filter_from_ext. intros y n _.
        assert ((i <=? S i + n)%nat = true) as -> by (apply Nat.leb_le; lia).
        apply andb_true_r.
      * pose proof (matches_from_index_In p l (S i) c (nth_error_In _ _ H)).
        assert ((c <=? i)%nat = false) as -> by (apply Nat.leb_gt; lia).
        now apply IH.
    + now apply IH.
Qed.

Lemma matches_from_map_from (p : A -> bool) (f : A -> nat -> A) (l : list A)
    (i : nat) :
  (forall x n, p (f x n) = p x) ->
  map fst (matches_from p (map_from f l i) i) = map fst (matches_from p l i).
Proof.
  intros H. revert i. induction l as [|x l IH]; intros i; simpl;
    [reflexivity|].
  rewrite H. destruct (p x); simpl; now rewrite IH.
Qed.

Lemma nth_error_increasing (l : list nat) (j j' c c' : nat) :
  StronglySorted lt l -> j' <= j ->
  nth_error l j = Some c -> nth_error l j' = Some c' -> c' <= c.
Proof.
  intros Hs. revert j j'. induction Hs as [|x l Hs IH Hx]; intros j j' Hj H H'.
  - now destruct j.
  - destruct j' as [|j'], j as [|j]; cbn [nth_error] in *.
    + injection H as <-. injection H' as <-. lia.
    + injection H' as <-. apply nth_error_In in H.
      rewrite Forall_forall in Hx. specialize (Hx _ H). lia.
    + lia.
    + apply (IH j j'); [lia|assumption..].
Qed.

End Matches.

Section Assistants.
Context {R : Runtime}.

Lemma is_assistant_isMsg (ln : string) :
  is_assistant ln = true -> isMsg ln = true.
Proof.
  rewrite isMsg_field. unfold is_assistant, try_catch, bind.
  destruct (field ln "type") as [type|]; [|discriminate].
  intros [= H]. unfold MSG_TYPES_has. rewrite H. now rewrite orb_true_r.
Qed.

Lemma locate_snd (st : list nat * list nat) (ln : string) (i : nat) :
  1 <= i ->
  snd (Index.locate st ln i) =
  if is_assistant ln then snd st ++ [i] else snd st.
Proof.
  intros Hi. unfold Index.locate, is_assistant, field, try_catch, bind.
  destruct i as [|i]; [lia|]. cbn [Nat.eqb].
  destruct (JSON_parse ln) as [obj|]; [|reflexivity].
  destruct (prop (Some obj) "type") as [type|]; [|reflexivity].
  unfold MSG_TYPES_has.
  destruct (type === "assistant"); [now rewrite orb_true_r|].
  now destruct (_ || _ || _).
Qed.

Lemma locate_from (l : list string) (i : nat) (st : list nat * list nat) :
  1 <= i ->
  snd (forEach_from Index.locate l i st) =
  snd st ++ map fst (matches_from is_assistant l i).
Proof.
  revert i st. induction l as [|ln l IH]; intros i st Hi;
    cbn [forEach_from matches_from].
  - now rewrite app_nil_r.
  - rewrite IH by lia. rewrite locate_snd by assumption.
    destruct (is_assistant ln); [|reflexivity].
    cbn [map fst]. now rewrite <- app_assoc.
Qed.

Lemma assistantIndexes_matches (lines : list string) :
  Index.assistantIndexes lines =
  map fst (matches_from is_assistant (body lines) 1).
Proof.
  unfold Index.assistantIndexes.
  rewrite forEach_skip_head by reflexivity.
  now rewrite locate_from.
Qed.

Lemma assistantIndexes_increasing (lines : list string) :
  StronglySorted lt (Index.assistantIndexes lines).
Proof.
  rewrite assistantIndexes_matches.
  pose proof (matches_from_increasing is_assistant (body lines) 1) as H.
  induction H as [|m l Hs IH Hm]; cbn [map]; constructor; [assumption|].
  rewrite Forall_forall in *. intros c Hc.
  apply in_map_iff in Hc as (m' & <- & Hm'). now apply Hm.
Qed.

Lemma assistantIndexes_length (lines : list string) :
  List.length (Index.assistantIndexes lines) =
  List.length (filter is_assistant (body lines)).
Proof.
  rewrite assistantIndexes_matches, length_map. apply matches_from_length.
Qed.

Context {L : RuntimeLaws R}.

Lemma is_assistant_processLine (last : Z) (ln : string) (i : nat) :
  is_assistant (processLine last ln i) = is_assistant ln.
Proof.
  unfold is_assistant. now rewrite processLine_field by discriminate.
Qed.

Lemma assistants_processed (lines : list string) :
  map fst (matches_from is_assistant (body (processedLines lines)) 1) =
  Index.assistantIndexes lines.
Proof.
  rewrite assistantIndexes_matches, body_processedLines.
  apply matches_from_map_from. intros; apply is_assistant_processLine.
Qed.

Lemma assistants_of_output (lines : list string) (keepN : Z) :
  filter is_assistant (body (outLines (Index.pruneSessionLines lines keepN))) =
  filter_from
    (fun ln idx => is_assistant ln && Index.ge_cut idx (Index.cut lines keepN))
    (body (processedLines lines)) 1.
Proof.
  rewrite session_run. cbn [outLines].
  rewrite body_out by apply filter_from_body_empty.
  rewrite filter_filter_from. apply filter_from_ext.
  intros x n _. unfold session_keeps.
  destruct (is_assistant x) eqn:Ha.
  - rewrite (is_assistant_isMsg x Ha). apply andb_true_r.
  - now rewrite andb_false_r.
Qed.

End Assistants.

(** X4. [pruneSessionLines] keeps the last [keepN] assistant records: the
    assistant records of its output after the head are the last
    [max(0, keepN)] assistant records after the head of the input, as the
    output pass meets them, all of them when there are no more, in their
    order; and [assistantCount] is the number of assistant records of the
    input after the head, whatever [keepN] is. *)
Theorem keeps_the_last_assistants {R : Runtime} {L : RuntimeLaws R}
    (lines : list string) (keepN : Z) :
  let r := Index.pruneSessionLines lines keepN in
  let assistants := filter is_assistant (body (candidates lines)) in
  Index.assistantCount r = List.length (filter is_assistant (body lines)) /\
  List.length assistants = Index.assistantCount r /\
  filter is_assistant (body (outLines r)) =
  skipn (List.length assistants - Z.to_nat keepN) assistants.
Proof.
  cbv zeta.
  assert (Hb : body (candidates lines) = body (processedLines lines)).
  { unfold candidates. apply body_out. now intros ->. }
  rewrite Hb.
  assert (Hlen : List.length (filter is_assistant (body (processedLines lines)))
                 = List.length (Index.assistantIndexes lines)).
  { rewrite <- assistants_processed, length_map. symmetry.
    apply matches_from_length. }
  split; [apply assistantIndexes_length|]. split; [exact Hlen|].
  rewrite assistants_of_output, Hlen.
  unfold Index.cut, Index.cutFrom.
  set (m := List.length (Index.assistantIndexes lines)).
  destruct (Z.ltb_spec (Z.max 0 keepN) (Z.of_nat m)) as [Hlt|Hge].
  - replace (Z.to_nat (Z.of_nat m - Z.max 0 keepN)) with (m - Z.to_nat keepN)
      by lia.
    destruct (nth_error (Index.assistantIndexes lines) (m - Z.to_nat keepN))
      as [c|] eqn:Hc.
    + cbn [Index.ge_cut]. apply filter_from_nth_match.
      now rewrite assistants_processed.
    + cbn [Index.ge_cut]. apply nth_error_None in Hc. fold m in Hc.
      rewrite skipn_all2 by (rewrite Hlen; fold m; lia).
      apply filter_from_nil. intros; apply andb_false_r.
  - replace (m - Z.to_nat keepN) with 0 by lia. cbn [skipn Index.ge_cut].
    rewrite <- (filter_from_filter is_assistant _ 1).
    apply filter_from_ext. intros; apply andb_true_r.
Qed.

(** ** Nothing to cut *)

Section NothingToCut.
Context {R : Runtime} {L : RuntimeLaws R}.

Lemma body_candidates (lines : list string) :
  body (candidates lines) = body (processedLines lines).
Proof. unfold candidates. apply body_out. now intros ->. Qed.

Lemma session_keeps_all (ids : JSSet) (l : list string) :
  filter_from (session_keeps (Some 0) ids) l 1 = filter (kept_after ids) l.
Proof.
  rewrite <- (filter_from_filter (kept_after ids) l 1).
  apply filter_from_ext. intros x n _.
  unfold session_keeps, kept_after. now destruct (isMsg x).
Qed.

Lemma boundary_keeps_all (b : Z) (ids : JSSet) (l : list string) :
  (b <= 1)%Z ->
  filter_from (boundary_keeps b ids) l 1 = filter (kept_after ids) l.
Proof.
  intros Hb. rewrite <- (filter_from_filter (kept_after ids) l 1).
  apply filter_from_ext. intros x n _. unfold boundary_keeps, kept_after.
  assert ((b <=? Z.of_nat (1 + n))%Z = true) as -> by (apply Z.leb_le; lia).
  reflexivity.
Qed.

Lemma all_messages (q : nat -> bool) (l : list string) :
  (forall n, 1 <= n -> q n = true) ->
  filter_from (fun ln idx => isMsg ln && q idx) l 1 = filter isMsg l /\
  filter_from (fun ln idx => isMsg ln && negb (q idx)) l 1 = [].
Proof.
  intros H. split.
  - rewrite <- (filter_from_filter isMsg l 1). apply filter_from_ext.
    intros x n _. rewrite H by lia. apply andb_true_r.
  - apply filter_from_nil. intros x n _. rewrite H by lia.
    apply andb_false_r.
Qed.

End NothingToCut.

(** X5. When the assistant records after the head are no more than
    [max(0, keepN)], in particular when there is none, [pruneSessionLines]
    drops no message: every message record stays, and so does every other
    line, except the tool results whose [tool_use_id] is set and was read
    from no assistant record after the head, or is an array or an object.
    The ids are read from the [content] array of an assistant record up to
    its first [null] item. *)
Theorem nothing_to_cut {R : Runtime} {L : RuntimeLaws R}
    (lines : list string) (keepN : Z) :
  let r := Index.pruneSessionLines lines keepN in
  (Z.of_nat (Index.assistantCount r) <= Z.max 0 keepN)%Z ->
  dropped r = 0 /\
  kept r = List.length (filter isMsg (body lines)) /\
  exists stays : string -> bool,
    (forall ln, stays ln = false <-> unread_result (body lines) ln) /\
    outLines r = firstn 1 lines ++ filter stays (body (candidates lines)).
Proof.
  cbv zeta. cbn [Index.assistantCount Index.pruneSessionLines]. intros H.
  assert (Hc : Index.cut lines keepN = Some 0).
  { unfold Index.cut, Index.cutFrom.
    now destruct (Z.ltb_spec (Z.max 0 keepN)
                    (Z.of_nat (List.length (Index.assistantIndexes lines))));
      [lia|]. }
  fold (Index.pruneSessionLines lines keepN).
  rewrite session_run, Hc, body_candidates. cbn [outLines kept dropped].
  destruct (all_messages (fun idx => Index.ge_cut idx (Some 0))
              (body (processedLines lines))) as [-> ->]; [reflexivity|].
  split; [reflexivity|]. split; [apply isMsg_count_processed|].
  exists (kept_after (Index.keptToolUseIds lines keepN)). split.
  - apply kept_after_unread. intros v. rewrite session_ids_has, Hc.
    split; intros (idx & ln & Hn & Hidx & Hrest); exists idx, ln;
      [destruct Hrest|]; auto.
  - now rewrite session_keeps_all.
Qed.

(** X6. [pruneToBoundary] with a boundary on line [1] or before it drops no
    message: every message record stays, and so does every other line,
    except the tool results whose [tool_use_id] is set and was read from no
    assistant record after the head, or is an array or an object.  The ids
    are read from the [content] array of an assistant record up to its
    first [null] item. *)
Theorem boundary_at_the_start {R : Runtime} {L : RuntimeLaws R}
    (lines : list string) (boundaryLineNumber : Z) :
  let r := BoundaryDetector.pruneToBoundary lines boundaryLineNumber in
  (boundaryLineNumber <= 1)%Z ->
  dropped r = 0 /\
  kept r = List.length (filter isMsg (body lines)) /\
  exists stays : string -> bool,
    (forall ln, stays ln = false <-> unread_result (body lines) ln) /\
    outLines r = firstn 1 lines ++ filter stays (body (candidates lines)).
Proof.
  cbv zeta. intros H.
  rewrite boundary_run, body_candidates. cbn [outLines kept dropped].
  destruct (all_messages (fun idx => (boundaryLineNumber <=? Z.of_nat idx)%Z)
              (body (processedLines lines))) as [-> ->];
    [intros n Hn; apply Z.leb_le; lia|].
  split; [reflexivity|]. split; [apply isMsg_count_processed|].
  exists (kept_after
            (BoundaryDetector.keptToolUseIds lines boundaryLineNumber)).
  split.
  - apply kept_after_unread. intros v. rewrite boundary_ids_has.
    split; intros (idx & ln & Hn & Hidx & Hrest); exists idx, ln.
    + destruct Hrest. auto.
    + repeat split; try tauto. apply Z.leb_le. lia.
  - now rewrite boundary_keeps_all.
Qed.

(** ** The two operations side by side *)

Section SideBySide.
Context {R : Runtime} {L : RuntimeLaws R}.

Lemma forEach_from_ext_in {A St : Type} (f g : St -> A -> nat -> St)
    (l : list A) (i : nat) (st : St) :
  (forall st x n, nth_error l n = Some x -> f st x (i + n) = g st x (i + n)) ->
  forEach_from f l i st = forEach_from g l i st.
Proof.
  revert i st. induction l as [|x l IH]; intros i st H; [reflexivity|].
  cbn [forEach_from].
  pose proof (H st x 0 eq_refl) as H0. rewrite Nat.add_0_r in H0.
  rewrite H0. apply IH. intros st' y n Hn.
  replace (S i + n) with (i + S n) by lia. now apply H.
Qed.

Lemma ge_cut_line (lines : list string) (keepN : Z) (idx : nat) :
  idx < List.length lines ->
  Index.ge_cut idx (Index.cut lines keepN) =
  (Z.of_nat (cut_line lines keepN) <=? Z.of_nat idx)%Z.
Proof.
  intros Hi. unfold cut_line.
  destruct (Index.cut lines keepN) as [c|]; cbn [Index.ge_cut].
  - destruct (Nat.leb_spec c idx), (Z.leb_spec (Z.of_nat c) (Z.of_nat idx));
      (reflexivity || lia).
  - symmetry. apply Z.leb_gt. lia.
Qed.

Lemma ids_of_cut_line (lines : list string) (keepN : Z) :
  BoundaryDetector.keptToolUseIds lines (Z.of_nat (cut_line lines keepN)) =
  Index.keptToolUseIds lines keepN.
Proof.
  unfold BoundaryDetector.keptToolUseIds, Index.keptToolUseIds, forEach.
  apply forEach_from_ext_in. intros st x n Hn. cbn [Nat.add].
  rewrite session_collect, boundary_collect.
  rewrite ge_cut_line; [reflexivity|].
  apply nth_error_Some. now rewrite Hn.
Qed.

Lemma body_index (lines : list string) (x : string) (n : nat) :
  nth_error (body (processedLines lines)) n = Some x ->
  1 + n < List.length lines.
Proof.
  intros H. rewrite body_nth_error in H.
  rewrite <- (processedLines_length lines).
  apply nth_error_Some. cbn [Nat.add]. now rewrite H.
Qed.

Lemma session_keeps_cut_line (lines : list string) (keepN : Z) (ids : JSSet) :
  filter_from (session_keeps (Index.cut lines keepN) ids)
    (body (processedLines lines)) 1 =
  filter (kept_before ids)
    (firstn (cut_line lines keepN - 1) (body (processedLines lines)))
  ++ filter (kept_after ids)
       (skipn (cut_line lines keepN - 1) (body (processedLines lines))).
Proof.
  unfold cut_line. destruct (Index.cut lines keepN) as [c|].
  - apply session_before_after.
  - assert (Hlen : List.length (body (processedLines lines))
                   = List.length lines - 1).
    { unfold body. now rewrite length_skipn, processedLines_length. }
    rewrite firstn_all2, skipn_all2 by lia. cbn [filter]. rewrite app_nil_r.
    rewrite <- (filter_from_filter (kept_before ids) _ 1).
    apply filter_from_ext. intros x n _.
    unfold session_keeps, kept_before. cbn [Index.ge_cut].
    now destruct (isMsg x).
Qed.

End SideBySide.

(** X7. [pruneSessionLines] is [pruneToBoundary] at its cut line, with the
    lines before the cut that are not message records put back: both keep
    the same [tool_use] ids, count the same [kept] and [dropped], and the
    output of [pruneSessionLines] is the head, the lines before the cut that
    are neither message records nor orphaned tool results, and what
    [pruneToBoundary] emits after the head.  The cut line is [cutFrom]; when
    [cutFrom] is undefined it is the length of the transcript. *)
Theorem session_is_boundary_with_early_lines {R : Runtime}
    (lines : list string) (keepN : Z) :
  let session := Index.pruneSessionLines lines keepN in
  let c := cut_line lines keepN in
  let boundary := BoundaryDetector.pruneToBoundary lines (Z.of_nat c) in
  let ids := Index.keptToolUseIds lines keepN in
  BoundaryDetector.keptToolUseIds lines (Z.of_nat c) = ids /\
  kept session = kept boundary /\
  dropped session = dropped boundary /\
  outLines session =
    firstn 1 lines
    ++ filter (kept_before ids) (firstn (c - 1) (body (candidates lines)))
    ++ body (outLines boundary).
Proof.
  cbv zeta. split; [apply ids_of_cut_line|].
  rewrite session_run, boundary_run, ids_of_cut_line, body_candidates.
  cbn [outLines kept dropped].
  rewrite body_out by apply filter_from_body_empty.
  split; [|split].
  - f_equal. apply filter_from_ext. intros x n Hn.
    rewrite ge_cut_line; [reflexivity|]. now apply (body_index lines x).
  - f_equal. apply filter_from_ext. intros x n Hn.
    rewrite ge_cut_line; [reflexivity|]. now apply (body_index lines x).
  - f_equal. rewrite session_keeps_cut_line. f_equal.
    rewrite boundary_after. now rewrite Nat2Z.id.
Qed.

(** ** Lines that are not JSON *)

Section Opaque.
Context {R : Runtime}.

Lemma opaque_processLine (last : Z) (ln : string) (i : nat) :
  JSON_parse ln = None -> processLine last ln i = ln.
Proof.
  intros H. unfold processLine. rewrite H.
  now destruct (Z.of_nat i =? last)%Z.
Qed.

Lemma opaque_isMsg (ln : string) : JSON_parse ln = None -> isMsg ln = false.
Proof. intros H. unfold isMsg. now rewrite H. Qed.

Lemma opaque_shouldKeep (ids : JSSet) (ln : string) :
  JSON_parse ln = None -> shouldKeep ids ln = true.
Proof. intros H. unfold shouldKeep. now rewrite H. Qed.

End Opaque.

(** X8. A line that is not JSON is never dropped by [pruneSessionLines],
    wherever it stands, and it is emitted as it was read; [pruneToBoundary]
    emits it when it is the head or stands at the boundary or after it. *)
Theorem opaque_lines_stay {R : Runtime} {L : RuntimeLaws R}
    (lines : list string) (keepN boundaryLineNumber : Z)
    (i : nat) (ln : string) :
  nth_error lines i = Some ln ->
  JSON_parse ln = None ->
  In ln (outLines (Index.pruneSessionLines lines keepN)) /\
  (i = 0 \/ (boundaryLineNumber <= Z.of_nat i)%Z ->
   In ln (outLines (BoundaryDetector.pruneToBoundary lines
                      boundaryLineNumber))).
Proof.
  intros Hn Hp.
  pose proof (opaque_processLine (lastNonZeroCacheLineIndex lines) ln i Hp)
    as Hl.
  destruct i as [|i].
  - split; [|intros _].
    + rewrite session_run. cbn [outLines]. now apply head_emitted.
    + rewrite boundary_run. cbn [outLines]. now apply head_emitted.
  - split.
    + rewrite <- Hl. apply session_emitted; [lia|assumption|].
      unfold session_keeps.
      now rewrite (opaque_isMsg ln Hp), (opaque_shouldKeep _ ln Hp).
    + intros [|Hb]; [discriminate|].
      rewrite <- Hl. apply boundary_emitted; [lia|assumption|].
      unfold boundary_keeps.
      rewrite (opaque_isMsg ln Hp), (opaque_shouldKeep _ ln Hp).
      apply andb_true_iff. split; [now apply Z.leb_le|reflexivity].
Qed.

(** ** A later cut keeps less *)

Section Monotone.
Context {R : Runtime} {L : RuntimeLaws R}.

Lemma cut_mono (lines : list string) (keepN keepN' : Z) (idx : nat) :
  (keepN <= keepN')%Z ->
  Index.ge_cut idx (Index.cut lines keepN) = true ->
  Index.ge_cut idx (Index.cut lines keepN') = true.
Proof.
  intros Hk. unfold Index.cut, Index.cutFrom.
  pose proof (assistantIndexes_increasing lines) as Hs.
  set (idxs := Index.assistantIndexes lines) in *.
  set (m := List.length idxs).
  destruct (Z.ltb_spec (Z.max 0 keepN') (Z.of_nat m)) as [Hlt'|Hge'];
    [|reflexivity].
  destruct (Z.ltb_spec (Z.max 0 keepN) (Z.of_nat m)) as [Hlt|Hge]; [|lia].
  destruct (nth_error idxs (Z.to_nat (Z.of_nat m - Z.max 0 keepN)))
    as [c|] eqn:Hc; [|discriminate].
  destruct (nth_error idxs (Z.to_nat (Z.of_nat m - Z.max 0 keepN')))
    as [c'|] eqn:Hc'.
  - cbn [Index.ge_cut]. intros H. apply Nat.leb_le in H. apply Nat.leb_le.
    enough (c' <= c) by lia.
    apply (nth_error_increasing idxs
             (Z.to_nat (Z.of_nat m - Z.max 0 keepN))
             (Z.to_nat (Z.of_nat m - Z.max 0 keepN')) c c' Hs);
      [lia|assumption..].
  - apply nth_error_None in Hc'.
    assert (nth_error idxs (Z.to_nat (Z.of_nat m - Z.max 0 keepN)) <> None)
      as Hsome by (rewrite Hc; discriminate).
    apply nth_error_Some in Hsome. fold m in Hc', Hsome. lia.
Qed.

Lemma session_ids_mono (lines : list string) (keepN keepN' : Z) (v : value) :
  (keepN <= keepN')%Z ->
  Set_has (Index.keptToolUseIds lines keepN) v = true ->
  Set_has (Index.keptToolUseIds lines keepN') v = true.
Proof.
  intros Hk H. apply session_ids_has in H as (idx & ln & Hn & Hi & Hge & Hv).
  apply session_ids_has. exists idx, ln.
  repeat (split; [assumption|]). split; [|assumption].
  now apply (cut_mono lines keepN keepN').
Qed.

Lemma boundary_ids_mono (lines : list string) (b b' : Z) (v : value) :
  (b <= b')%Z ->
  Set_has (BoundaryDetector.keptToolUseIds lines b') v = true ->
  Set_has (BoundaryDetector.keptToolUseIds lines b) v = true.
Proof.
  intros Hb H. apply boundary_ids_has in H as (idx & ln & Hn & Hi & Hge & Hv).
  apply boundary_ids_has. exists idx, ln.
  repeat (split; [assumption|]). split; [|assumption].
  apply Z.leb_le. apply Z.leb_le in Hge. lia.
Qed.

End Monotone.

(** X9. A greater [keepN] keeps more: for [keepN <= keepN'] the output of
    [pruneSessionLines] with [keepN] is a subsequence of its output with
    [keepN'], no more messages are kept and no fewer are dropped. *)
Theorem greater_keepN_keeps_more {R : Runtime} {L : RuntimeLaws R}
    (lines : list string) (keepN keepN' : Z) :
  (keepN <= keepN')%Z ->
  let less := Index.pruneSessionLines lines keepN in
  let more := Index.pruneSessionLines lines keepN' in
  subsequence (outLines less) (outLines more) /\
  kept less <= kept more /\
  dropped more <= dropped less.
Proof.
  intros Hk. cbv zeta. rewrite !session_run. cbn [outLines kept dropped].
  split; [|split].
  - apply subsequence_app; [apply subsequence_refl|].
    apply filter_from_mono. intros x n _. unfold session_keeps.
    destruct (isMsg x).
    + now apply cut_mono.
    + apply shouldKeep_mono. intros v. now apply session_ids_mono.
  - apply subsequence_length, filter_from_mono. intros x n _.
    destruct (isMsg x); [|discriminate]. cbn [andb]. now apply cut_mono.
  - apply subsequence_length, filter_from_mono. intros x n _.
    destruct (isMsg x); [|discriminate]. cbn [andb].
    destruct (Index.ge_cut (1 + n) (Index.cut lines keepN)) eqn:E;
      [|reflexivity].
    now rewrite (cut_mono lines keepN keepN' _ Hk E).
Qed.

(** X10. A later boundary keeps less: for [b <= b'] the output of
    [pruneToBoundary] at [b'] is a subsequence of its output at [b], no
    more messages are kept and no fewer are dropped. *)
Theorem later_boundary_keeps_less {R : Runtime} {L : RuntimeLaws R}
    (lines : list string) (b b' : Z) :
  (b <= b')%Z ->
  let early := BoundaryDetector.pruneToBoundary lines b in
  let late := BoundaryDetector.pruneToBoundary lines b' in
  subsequence (outLines late) (outLines early) /\
  kept late <= kept early /\
  dropped early <= dropped late.
Proof.
  intros Hb. cbv zeta. rewrite !boundary_run. cbn [outLines kept dropped].
  assert (Hle : forall n, (b' <=? Z.of_nat n)%Z = true ->
                          (b <=? Z.of_nat n)%Z = true).
  { intros n H. apply Z.leb_le. apply Z.leb_le in H. lia. }
  split; [|split].
  - apply subsequence_app; [apply subsequence_refl|].
    apply filter_from_mono. intros x n _. unfold boundary_keeps.
    intros H. apply andb_true_iff in H as [H1 H2].
    apply andb_true_iff. split; [now apply Hle|].
    destruct (isMsg x); [reflexivity|]. cbn [orb] in *.
    revert H2. apply shouldKeep_mono. intros v. now apply boundary_ids_mono.
  - apply subsequence_length, filter_from_mono. intros x n _.
    destruct (isMsg x); [|discriminate]. cbn [andb]. apply Hle.
  - apply subsequence_length, filter_from_mono. intros x n _.
    destruct (isMsg x); [|discriminate]. cbn [andb].
    destruct (b' <=? Z.of_nat (1 + n))%Z eqn:E; [|reflexivity].
    now rewrite (Hle _ E).
Qed.

(** ** The boundaries that are found *)

Section SortedList.
Context {A : Type}.

Lemma insert_sorted_In_iff (compare : A -> A -> Z) (x y : A) (l : list A) :
  In y (BoundaryDetector.insert_sorted compare x l) <-> y = x \/ In y l.
Proof.
  induction l as [|z l IH]; simpl.
  - split; [intros [->|[]]; now left|intros [->|[]]; now left].
  - destruct (compare x z <=? 0)%Z; simpl.
    + split; [intros [->|H]; auto|intros [->|H]; auto].
    + rewrite IH. split.
      * intros [->|[->|H]]; auto.
      * intros [->|[->|H]]; auto.
Qed.

Lemma Array_sort_In_iff (compare : A -> A -> Z) (y : A) (l : list A) :
  In y (BoundaryDetector.Array_sort compare l) <-> In y l.
Proof.
  induction l as [|x l IH]; simpl; [reflexivity|].
  unfold BoundaryDetector.Array_sort in *. cbn [fold_right].
  rewrite insert_sorted_In_iff, IH. split; intros [->|H]; auto.
Qed.

Lemma insert_sorted_length (compare : A -> A -> Z) (x : A) (l : list A) :
  List.length (BoundaryDetector.insert_sorted compare x l) = S (List.length l).
Proof.
  induction l as [|z l IH]; simpl; [reflexivity|].
  destruct (compare x z <=? 0)%Z; simpl; [reflexivity|]. now rewrite IH.
Qed.

Lemma Array_sort_length (compare : A -> A -> Z) (l : list A) :
  List.length (BoundaryDetector.Array_sort compare l) = List.length l.
Proof.
  induction l as [|x l IH]; [reflexivity|].
  unfold BoundaryDetector.Array_sort in *. cbn [fold_right].
  rewrite insert_sorted_length. simpl. now rewrite IH.
Qed.

Lemma matches_from_In_iff (p : A -> bool) (l : list A) (i n : nat) (x : A) :
  In (i + n, x) (matches_from p l i) <->
  nth_error l n = Some x /\ p x = true.
Proof.
  revert i n. induction l as [|y l IH]; intros i n; cbn [matches_from].
  - split; [intros []|intros [H _]; now destruct n].
  - assert (Hrest : forall m, In (i + S m, x) (matches_from p l (S i)) <->
                              nth_error l m = Some x /\ p x = true).
    { intros m. replace (i + S m) with (S i + m) by lia. apply IH. }
    destruct n as [|n].
    + rewrite Nat.add_0_r. cbn [nth_error]. destruct (p y) eqn:Hp.
      * split.
        -- intros [[= <-]|H]; [now split|].
           apply matches_from_bounds in H. lia.
        -- intros [[= ->] _]. now left.
      * split.
        -- intros H. apply matches_from_bounds in H. lia.
        -- intros [[= ->] H]. congruence.
    + cbn [nth_error]. rewrite <- Hrest. destruct (p y); [|reflexivity].
      split; [intros [[= H _]|H]; [lia|assumption]|now right].
Qed.

End SortedList.

Section Found.
Import BoundaryDetector.
Context {R : Runtime}.

Lemma marker_is_found (lines : list string) (i : nat) :
  (exists b, In b (pushed lines) /\ lineNumber b = i /\ type b = Intent) <->
  (exists line, nth_error lines i = Some line /\ has_marker line = true).
Proof.
  rewrite pushed_spec. cbv zeta. split.
  - intros (b & Hb & Hi & Ht). apply in_app_iff in Hb as [Hb|Hb];
      apply in_map_iff in Hb as ([n x] & <- & Hm); cbn in Hi, Ht;
      [|discriminate].
    subst n. exists x. now apply (matches_from_In_iff _ lines 0 i x).
  - intros (line & Hn & Hm).
    eexists. split; [apply in_app_iff; left; apply in_map_iff|].
    + exists (i, line). split; [reflexivity|].
      now apply (matches_from_In_iff _ lines 0 i line).
    + now split.
Qed.

Lemma commit_is_found (lines : list string) (i : nat) :
  (exists b, In b (pushed lines) /\ lineNumber b = i /\ type b = GitCommit) <->
  (exists line, nth_error lines i = Some line /\ commit_line line = true).
Proof.
  rewrite pushed_spec. cbv zeta. split.
  - intros (b & Hb & Hi & Ht). apply in_app_iff in Hb as [Hb|Hb];
      apply in_map_iff in Hb as ([n x] & <- & Hm); cbn in Hi, Ht;
      [discriminate|].
    subst n. exists x. now apply (matches_from_In_iff _ lines 0 i x).
  - intros (line & Hn & Hm).
    eexists. split; [apply in_app_iff; right; apply in_map_iff|].
    + exists (i, line). split; [reflexivity|].
      now apply (matches_from_In_iff _ lines 0 i line).
    + now split.
Qed.

Lemma pushed_length (lines : list string) :
  List.length (pushed lines) =
  List.length (filter has_marker lines)
  + List.length (filter commit_line lines).
Proof.
  rewrite pushed_spec. cbv zeta.
  now rewrite length_app, !length_map, !matches_from_length.
Qed.

End Found.

(** X11. [detectBoundaries] finds every boundary and nothing else: line [i]
    has a boundary of type [intent] exactly when it holds the marker, a
    boundary of type [git_commit] exactly when it is a [bash] tool result
    that reports a commit, and the list has one boundary for each. *)
Theorem boundaries_are_found {R : Runtime} (lines : list string) (i : nat) :
  let found := BoundaryDetector.boundaries
                 (BoundaryDetector.detectBoundaries lines) in
  ((exists b, In b found /\ BoundaryDetector.lineNumber b = i /\
              BoundaryDetector.type b = BoundaryDetector.Intent) <->
   (exists line, nth_error lines i = Some line /\ has_marker line = true)) /\
  ((exists b, In b found /\ BoundaryDetector.lineNumber b = i /\
              BoundaryDetector.type b = BoundaryDetector.GitCommit) <->
   (exists line, nth_error lines i = Some line /\ commit_line line = true)) /\
  List.length found =
    List.length (filter has_marker lines)
    + List.length (filter commit_line lines).
Proof.
  cbv zeta. cbn [BoundaryDetector.boundaries BoundaryDetector.detectBoundaries].
  split; [|split].
  - split.
    + intros (b & Hb & H). apply marker_is_found. exists b.
      split; [now apply Array_sort_In_iff in Hb|exact H].
    + intros H. apply marker_is_found in H as (b & Hb & H). exists b.
      split; [now apply Array_sort_In_iff|exact H].
  - split.
    + intros (b & Hb & H). apply commit_is_found. exists b.
      split; [now apply Array_sort_In_iff in Hb|exact H].
    + intros H. apply commit_is_found in H as (b & Hb & H). exists b.
      split; [now apply Array_sort_In_iff|exact H].
  - rewrite Array_sort_length. apply pushed_length.
Qed.

(** ** The characters a boundary retains *)

Section Retained.
Import BoundaryDetector.
Context {R : Runtime} {L : RuntimeLaws R}.

Lemma join_cons_length (line : string) (rest : list string) :
  rest <> [] ->
  String.length (join newline (line :: rest)) =
  String.length line + 1 + String.length (join newline rest).
Proof.
  destruct rest as [|x rest]; [contradiction|]. intros _.
  cbn [join]. rewrite !slength_append.
  change (String.length newline) with 1. lia.
Qed.

Lemma text_from_offset (lines : list string) (i : nat) :
  i < List.length lines ->
  text_from lines 0 = offset lines i + text_from lines i.
Proof.
  unfold text_from. revert i.
  induction lines as [|line rest IH]; intros i Hi; [simpl in Hi; lia|].
  destruct i as [|i]; [reflexivity|].
  cbn [skipn offset]. simpl in Hi.
  rewrite join_cons_length by (intros ->; simpl in Hi; lia).
  pose proof (IH i ltac:(lia)) as H. cbn [skipn] in H. lia.
Qed.

Lemma offset_lt (lines : list string) (i j : nat) :
  i < j -> j <= List.length lines -> offset lines i < offset lines j.
Proof.
  intros Hij Hj. induction j as [|j IH]; [lia|].
  destruct (nth_error lines j) as [line|] eqn:Hn.
  - rewrite (offset_S lines j line Hn).
    destruct (Nat.eq_dec i j) as [->|]; [lia|].
    assert (offset lines i < offset lines j) by (apply IH; lia). lia.
  - apply nth_error_None in Hn. lia.
Qed.

End Retained.

(** X12. The [characterCount] of a boundary is the length of the text from
    its line to the end of the transcript, the lines joined by a line feed;
    [totalCharacters] is the length of the whole text.  So [characterCount]
    is positive and no more than [totalCharacters]. *)
Theorem characterCount_is_the_text_from_the_line
    {R : Runtime} {L : RuntimeLaws R}
    (lines : list string) (b : BoundaryDetector.Boundary) :
  let analysis := BoundaryDetector.detectBoundaries lines in
  In b (BoundaryDetector.boundaries analysis) ->
  BoundaryDetector.totalCharacters analysis = text_from lines 0 /\
  BoundaryDetector.characterCount b =
    Z.of_nat (text_from lines (BoundaryDetector.lineNumber b)) /\
  (0 < BoundaryDetector.characterCount b
   <= Z.of_nat (BoundaryDetector.totalCharacters analysis))%Z.
Proof.
  cbv zeta. intros Hb.
  destruct (retention_operands lines b Hb) as (Hi & Hc & Hr & _).
  split; [reflexivity|]. split; [|exact Hr].
  rewrite Hc.
  change (BoundaryDetector.totalCharacters
            (BoundaryDetector.detectBoundaries lines))
    with (text_from lines 0).
  rewrite (text_from_offset lines (BoundaryDetector.lineNumber b) Hi). lia.
Qed.

(** X13. A boundary on a later line retains less: of two boundaries of one
    transcript, the one with the greater [lineNumber] has the smaller
    [characterCount]. *)
Theorem later_boundary_retains_less {R : Runtime} {L : RuntimeLaws R}
    (lines : list string) (a b : BoundaryDetector.Boundary) :
  let found := BoundaryDetector.boundaries
                 (BoundaryDetector.detectBoundaries lines) in
  In a found -> In b found ->
  BoundaryDetector.lineNumber a < BoundaryDetector.lineNumber b ->
  (BoundaryDetector.characterCount b < BoundaryDetector.characterCount a)%Z.
Proof.
  cbv zeta. intros Ha Hb Hlt.
  destruct (retention_operands lines a Ha) as (_ & -> & _).
  destruct (retention_operands lines b Hb) as (Hi & -> & _).
  pose proof (offset_lt lines _ _ Hlt) as H. lia.
Qed.

(** ** The latest backup *)

Section Numbers.
Import Restore.

Lemma sign_of_difference_opp (a b : number) :
  sign_of_difference a b = (- sign_of_difference b a)%Z.
Proof.
  destruct a as [|[]|x], b as [|[]|y]; cbn; try reflexivity.
  replace (x - y)%Z with (- (y - x))%Z by lia. apply Z.sgn_opp.
Qed.

Lemma no_newer_trans (a b c : number) :
  isNaN b = false -> no_newer a b -> no_newer b c -> no_newer a c.
Proof.
  unfold no_newer.
  destruct a as [|[]|x], b as [|[]|y], c as [|[]|z]; cbn;
    try discriminate; lia.
Qed.

Lemma older_no_newer (a b : number) : older a b -> no_newer a b.
Proof. unfold older, no_newer. lia. Qed.

Lemma older_irrefl (a b : number) : older a b -> no_newer b a -> False.
Proof.
  unfold older, no_newer. rewrite (sign_of_difference_opp a b). lia.
Qed.

End Numbers.

Section Latest.
Import Restore.
Context {N : NumberRuntime}.

(** The first element of a sorted list is the first of the greatest. *)
Lemma first_of_sorted (l : list Backup) (latest : Backup)
    (rest : list Backup) :
  Forall (fun backup => isNaN (timestamp backup) = false) l ->
  BoundaryDetector.Array_sort latest_first l = latest :: rest ->
  exists l1 l2,
    l = l1 ++ latest :: l2 /\
    Forall (fun backup => older (timestamp backup) (timestamp latest)) l1 /\
    Forall (fun backup => no_newer (timestamp backup) (timestamp latest)) l2.
Proof.
  intros Hnan. revert latest rest.
  induction Hnan as [|x l Hx Hl IH]; intros latest rest; [discriminate|].
  unfold BoundaryDetector.Array_sort in *. cbn [fold_right].
  destruct (fold_right (BoundaryDetector.insert_sorted latest_first) [] l)
    as [|y sorted] eqn:Hsorted.
  - assert (l = []) as ->.
    { apply length_zero_iff_nil.
      rewrite <- (Array_sort_length latest_first l).
      unfold BoundaryDetector.Array_sort. now rewrite Hsorted. }
    cbn. intros [= <- <-]. exists [], []. now repeat split.
  - destruct (IH y sorted eq_refl) as (l1 & l2 & -> & H1 & H2).
    assert (Hy : isNaN (timestamp y) = false).
    { rewrite Forall_forall in Hl. apply Hl, in_elt. }
    cbn [BoundaryDetector.insert_sorted].
    destruct (Z.leb_spec (latest_first x y) 0) as [Hle|Hgt].
    + intros [= <- <-]. exists [], (l1 ++ y :: l2).
      split; [reflexivity|]. split; [constructor|].
      apply Forall_app. split; [|constructor].
      * eapply Forall_impl; [|exact H1]. intros z Hz. cbv beta in *.
        apply (no_newer_trans _ (timestamp y)); [assumption| |exact Hle].
        now apply older_no_newer.
      * exact Hle.
      * eapply Forall_impl; [|exact H2]. intros z Hz. cbv beta in *.
        now apply (no_newer_trans _ (timestamp y)).
    + intros [= <- <-]. exists (x :: l1), l2.
      split; [reflexivity|]. split; [|assumption].
      constructor; [|assumption].
      unfold older. unfold latest_first in Hgt.
      rewrite sign_of_difference_opp. lia.
Qed.

(** A split of the selected backups is a split of the files. *)
Lemma selected_split (sessionId : string) (files : list string)
    (l1 l2 : list Backup) (m : Backup) :
  filter (fun backup => negb (isNaN (timestamp backup)))
    (map backup_of (filter (of_session sessionId) files)) = l1 ++ m :: l2 ->
  exists before after,
    files = before ++ name m :: after /\
    m = backup_of (name m) /\
    of_session sessionId (name m) = true /\
    isNaN (timestamp m) = false /\
    l1 = filter (fun backup => negb (isNaN (timestamp backup)))
           (map backup_of (filter (of_session sessionId) before)) /\
    l2 = filter (fun backup => negb (isNaN (timestamp backup)))
           (map backup_of (filter (of_session sessionId) after)).
Proof.
  revert l1. induction files as [|f files IH]; intros l1 H.
  - now destruct l1.
  - cbn [filter] in H.
    destruct (of_session sessionId f) eqn:Hs; cbn [map filter] in H.
    + destruct (isNaN (timestamp (backup_of f))) eqn:Hn; cbn [negb] in H.
      * destruct (IH l1 H) as (before & after & -> & Hm & Hs' & Hn' & -> & ->).
        exists (f :: before), after. cbn [filter]. rewrite Hs.
        cbn [map filter]. rewrite Hn. now repeat split.
      * destruct l1 as [|x l1]; cbn [app] in H.
        -- injection H as <- <-. exists [], files. now repeat split.
        -- injection H as <- H.
           destruct (IH l1 H)
             as (before & after & -> & Hm & Hs' & Hn' & -> & ->).
           exists (f :: before), after. cbn [filter]. rewrite Hs.
           cbn [map filter]. rewrite Hn. now repeat split.
    + destruct (IH l1 H) as (before & after & -> & Hm & Hs' & Hn' & -> & ->).
      exists (f :: before), after. cbn [filter]. rewrite Hs.
      now repeat split.
Qed.

Lemma selected_Forall (sessionId : string) (files : list string)
    (P : number -> Prop) :
  Forall (fun backup => P (timestamp backup))
    (filter (fun backup => negb (isNaN (timestamp backup)))
       (map backup_of (filter (of_session sessionId) files))) ->
  forall f, In f files -> of_session sessionId f = true ->
            isNaN (timestamp (backup_of f)) = false ->
            P (timestamp (backup_of f)).
Proof.
  intros H f Hf Hs Hn. rewrite Forall_forall in H.
  apply (H (backup_of f)). apply filter_In. split; [|now rewrite Hn].
  apply in_map. apply filter_In. now split.
Qed.

Lemma selected_not_NaN (sessionId : string) (files : list string) :
  Forall (fun backup => isNaN (timestamp backup) = false)
    (filter (fun backup => negb (isNaN (timestamp backup)))
       (map backup_of (filter (of_session sessionId) files))).
Proof.
  apply Forall_forall. intros b Hb. apply filter_In in Hb as [_ Hb].
  now destruct (isNaN (timestamp b)).
Qed.

Lemma latest_spec (backupFiles : list string) (sessionId : string)
    (latest : Backup) :
  findLatestBackup backupFiles sessionId = Some latest ->
  exists before after,
    backupFiles = before ++ name latest :: after /\
    latest = backup_of (name latest) /\
    of_session sessionId (name latest) = true /\
    isNaN (timestamp latest) = false /\
    (forall f, In f before -> of_session sessionId f = true ->
               isNaN (timestamp (backup_of f)) = false ->
               older (timestamp (backup_of f)) (timestamp latest)) /\
    (forall f, In f after -> of_session sessionId f = true ->
               isNaN (timestamp (backup_of f)) = false ->
               no_newer (timestamp (backup_of f)) (timestamp latest)).
Proof.
  unfold findLatestBackup, sessionBackups.
  destruct (BoundaryDetector.Array_sort _ _) as [|first rest] eqn:Hsort;
    [discriminate|].
  intros [= ->].
  apply first_of_sorted in Hsort as (l1 & l2 & Hl & H1 & H2);
    [|apply selected_not_NaN].
  apply selected_split in Hl
    as (before & after & -> & Hm & Hs & Hn & -> & ->).
  exists before, after. repeat (split; [assumption || reflexivity|]).
  split.
  - now apply (selected_Forall sessionId before
                 (fun t => older t (timestamp latest))).
  - now apply (selected_Forall sessionId after
                 (fun t => no_newer t (timestamp latest))).
Qed.

Lemma latest_none (backupFiles : list string) (sessionId : string) :
  findLatestBackup backupFiles sessionId = None <->
  (forall f, In f backupFiles -> of_session sessionId f = true ->
             isNaN (timestamp (backup_of f)) = true).
Proof.
  unfold findLatestBackup, sessionBackups.
  destruct (BoundaryDetector.Array_sort _ _) as [|first rest] eqn:Hsort.
  - split; [intros _|reflexivity]. intros f Hf Hs.
    destruct (isNaN (timestamp (backup_of f))) eqn:Hn; [reflexivity|].
    exfalso.
    assert (Hin : In (backup_of f)
                    (BoundaryDetector.Array_sort latest_first
                       (filter (fun backup => negb (isNaN (timestamp backup)))
                          (map backup_of
                             (filter (of_session sessionId) backupFiles))))).
    { apply Array_sort_In_iff. apply filter_In. split; [|now rewrite Hn].
      apply in_map. apply filter_In. now split. }
    now rewrite Hsort in Hin.
  - split; [discriminate|]. intros H. exfalso.
    assert (Hin : In first
                    (filter (fun backup => negb (isNaN (timestamp backup)))
                       (map backup_of
                          (filter (of_session sessionId) backupFiles)))).
    { apply (Array_sort_In_iff latest_first). rewrite Hsort. now left. }
    apply filter_In in Hin as [Hin Hn].
    apply in_map_iff in Hin as (f & <- & Hf).
    apply filter_In in Hf as [Hf Hs].
    rewrite (H f Hf Hs) in Hn. discriminate.
Qed.

End Latest.



(** ** The name of a backup and its timestamp *)

Section BackupNames.
Import Restore.

Lemma prefix_append (a b : string) : String.prefix a (a ++ b) = true.
Proof.
  induction a as [|c a IH]; cbn; [now destruct b|].
  now destruct (ascii_dec c c).
Qed.

Lemma pop_app {A : Type} (l1 l2 : list A) :
  l2 <> [] -> pop (l1 ++ l2) = pop l2.
Proof.
  intros H. induction l1 as [|x l1 IH]; [reflexivity|].
  cbn [app pop]. destruct (l1 ++ l2) eqn:E; [|assumption].
  apply app_eq_nil in E as [_ E]. contradiction.
Qed.

Lemma split_not_nil (sep : ascii) (s : string) : split sep s <> [].
Proof.
  destruct s as [|c s]; cbn; [discriminate|].
  destruct (c =? sep)%char; [discriminate|].
  destruct (split sep s); discriminate.
Qed.

Lemma split_append (sep : ascii) (a d : string) :
  exists pieces,
    pieces <> [] /\
    split sep (a ++ String sep d) = pieces ++ split sep d.
Proof.
  induction a as [|c a (pieces & Hp & IH)]; cbn [append split].
  - exists [EmptyString]. rewrite Ascii.eqb_refl. now split.
  - rewrite IH. destruct (c =? sep)%char.
    + exists (EmptyString :: pieces). now split.
    + destruct pieces as [|p ps]; [contradiction|].
      exists (String c p :: ps). now split.
Qed.

Lemma pop_split_append (sep : ascii) (a d : string) :
  pop (split sep (a ++ String sep d)) = pop (split sep d).
Proof.
  destruct (split_append sep a d) as (pieces & _ & ->).
  apply pop_app, split_not_nil.
Qed.

Lemma split_digits (u : Decimal.uint) :
  split "." (NilEmpty.string_of_uint u) = [NilEmpty.string_of_uint u].
Proof. induction u; cbn [NilEmpty.string_of_uint split]; try rewrite IHu; reflexivity. Qed.

Lemma Number_toString_digits (n : Z) :
  (0 <= n)%Z ->
  exists u, u <> Decimal.Nil /\
            Number_toString n = NilEmpty.string_of_uint u /\
            Z.of_int (Decimal.Pos u) = n.
Proof.
  intros Hn. unfold Number_toString.
  pose proof (DecimalZ.of_to n) as Hof.
  destruct n as [|p|p]; [|clear Hn|lia].
  - exists (Decimal.D0 Decimal.Nil). now repeat split.
  - cbn [Z.to_int NilZero.string_of_int] in *.
    pose proof (Unsigned.to_uint_nonnil p) as Hnil.
    exists (Pos.to_uint p). split; [assumption|]. split; [|assumption].
    now apply RefJSONFacts.string_of_uint_nonnil.
Qed.

Lemma digits_not_empty (u : Decimal.uint) :
  u <> Decimal.Nil -> NilEmpty.string_of_uint u <> EmptyString.
Proof. destruct u; [contradiction|discriminate..]. Qed.

Lemma backupName_suffix (sessionId : string) (now : Z) :
  (0 <= now)%Z ->
  or_string (pop (split "." (backupName sessionId now))) "0"
  = Number_toString now.
Proof.
  intros Hn. unfold backupName.
  change (".jsonl." ++ Number_toString now)%string
    with (".jsonl" ++ String "." (Number_toString now))%string.
  rewrite <- RefJSONFacts.sapp_assoc, pop_split_append.
  destruct (Number_toString_digits now Hn) as (u & Hnil & -> & _).
  rewrite split_digits. cbn [pop or_string].
  pose proof (digits_not_empty u Hnil).
  now destruct (NilEmpty.string_of_uint u).
Qed.

Lemma backupName_of_session (sessionId : string) (now : Z) :
  of_session sessionId (backupName sessionId now) = true.
Proof.
  unfold of_session, backupName.
  rewrite <- RefJSONFacts.sapp_assoc. apply prefix_append.
Qed.

Context {N : NumberRuntime} {NL : NumberLaws N}.

Lemma backup_of_backupName (sessionId : string) (now : Z) :
  (0 <= now < 2 ^ 53)%Z ->
  backup_of (backupName sessionId now) =
  {| name := backupName sessionId now; timestamp := Finite now |}.
Proof.
  intros Hn. unfold backup_of.
  rewrite backupName_suffix by lia. now rewrite parseInt_toString.
Qed.

End BackupNames.

Lemma latest_is_the_backup_named
    {N : Restore.NumberRuntime} {NL : Restore.NumberLaws N}
    (backupFiles : list string) (sessionId : string) (now : Z) :
  (0 <= now < 2 ^ 53)%Z ->
  In (Restore.backupName sessionId now) backupFiles ->
  (forall f, In f backupFiles -> f <> Restore.backupName sessionId now ->
     Restore.of_session sessionId f = true ->
     Restore.isNaN (Restore.timestamp (Restore.backup_of f)) = false ->
     Restore.older (Restore.timestamp (Restore.backup_of f))
       (Restore.Finite now)) ->
  Restore.findLatestBackup backupFiles sessionId =
  Some {| Restore.name := Restore.backupName sessionId now;
          Restore.timestamp := Restore.Finite now |}.
Proof.
  intros Hn Hin Hold.
  pose proof (backup_of_backupName sessionId now Hn) as Hb.
  pose proof (backupName_of_session sessionId now) as Hs.
  destruct (Restore.findLatestBackup backupFiles sessionId) as [latest|] eqn:E.
  - apply latest_spec in E
      as (before & after & Hfiles & Hl & Hsl & Hnl & Hbefore & Hafter).
    destruct (string_dec (Restore.name latest)
                (Restore.backupName sessionId now)) as [Heq|Hne].
    + rewrite Hl, Heq. now rewrite Hb.
    + exfalso.
      assert (Hlo : Restore.older (Restore.timestamp latest)
                      (Restore.Finite now)).
      { rewrite Hl. apply Hold; [|assumption|assumption|now rewrite <- Hl].
        rewrite Hfiles. apply in_elt. }
      rewrite Hfiles in Hin. apply in_app_iff in Hin as [Hin|[Hin|Hin]].
      * specialize (Hbefore _ Hin Hs). rewrite Hb in Hbefore.
        apply (older_irrefl _ _ Hlo). apply older_no_newer.
        now apply Hbefore.
      * exact (Hne Hin).
      * specialize (Hafter _ Hin Hs). rewrite Hb in Hafter.
        apply (older_irrefl _ _ Hlo). now apply Hafter.
  - exfalso. rewrite latest_none in E. specialize (E _ Hin Hs).
    rewrite Hb in E. discriminate.
Qed.

(** X16. A backup that [main] or [boundaryPrune] names at time [now] is
    found again: [findLatestBackup] reads the timestamp [now] back from the
    name [sessionId.jsonl.now], and returns this backup from any list that
    holds it in which the other backups of the session are older. *)
Theorem backup_written_last_is_found
    {N : Restore.NumberRuntime} {NL : Restore.NumberLaws N}
    (backupFiles : list string) (sessionId : string) (now : Z) :
  (0 <= now < 2 ^ 53)%Z ->
  In (Restore.backupName sessionId now) backupFiles ->
  (forall f, In f backupFiles -> f <> Restore.backupName sessionId now ->
     Restore.of_session sessionId f = true ->
     Restore.isNaN (Restore.timestamp (Restore.backup_of f)) = false ->
     Restore.older (Restore.timestamp (Restore.backup_of f))
       (Restore.Finite now)) ->
  Restore.findLatestBackup backupFiles sessionId =
  Some {| Restore.name := Restore.backupName sessionId now;
          Restore.timestamp := Restore.Finite now |}.
Proof. apply latest_is_the_backup_named. Qed.

(** ** The reference [parseInt] reads back what [toString] prints *)

Section ReferenceNumbers.
Import Restore.

Lemma digits_head (u : Decimal.uint) :
  u <> Decimal.Nil ->
  exists c rest,
    NilEmpty.string_of_uint u = String c rest /\
    is_space c = false /\
    (c =? "-")%char = false /\ (c =? "+")%char = false.
Proof.
  destruct u; [contradiction|..]; intros _;
    eexists; eexists; (split; [reflexivity|]); now repeat split.
Qed.

Lemma hex_prefix_digits (u : Decimal.uint) :
  RefNumber.hex_prefix (NilEmpty.string_of_uint u) = None.
Proof. destruct u as [|u|u|u|u|u|u|u|u|u|u]; try reflexivity; now destruct u. Qed.

Lemma RefNumber_parseInt_digits (u : Decimal.uint) :
  u <> Decimal.Nil ->
  RefNumber.parseInt (NilEmpty.string_of_uint u)
  = Finite (Z.of_int (Decimal.Pos u)).
Proof.
  intros Hnil. unfold RefNumber.parseInt.
  destruct (digits_head u Hnil) as (c & rest & Hs & H1 & H2 & H3).
  rewrite Hs. cbn [trim_start]. rewrite H1, H2, H3. rewrite <- Hs.
  unfold RefNumber.unsigned. rewrite hex_prefix_digits.
  rewrite <- (RefJSONFacts.sapp_nil_r (NilEmpty.string_of_uint u)).
  rewrite RefJSONFacts.parse_digits_print by exact I.
  now destruct u.
Qed.

End ReferenceNumbers.

Lemma RefNumber_laws : Restore.NumberLaws RefNumber.runtime.
Proof.
  constructor. intros n [Hn _].
  destruct (Number_toString_digits n Hn) as (u & Hnil & -> & <-).
  now apply RefNumber_parseInt_digits.
Qed.

(** ** The transcript file *)

Section Framing.
Import Transcript.

Lemma no_line_end_split (l rest : string) :
  no_line_end l = true ->
  split_lines (l ++ String LF rest) = l :: split_lines rest.
Proof.
  induction l as [|c l IH]; intros H.
  - cbn [append split_lines]. now rewrite Ascii.eqb_refl.
  - cbn [no_line_end] in H.
    apply andb_true_iff in H as [H Hl].
    apply andb_true_iff in H as [Hc Hend].
    apply negb_true_iff in Hc.
    specialize (IH Hl).
    cbn [append]. cbn [split_lines]. rewrite Hc.
    fold split_lines. rewrite IH.
    destruct l as [|c' l]; cbn [append].
    + apply negb_true_iff in Hend. rewrite Hend. reflexivity.
    + cbn [no_line_end] in Hl.
      apply andb_true_iff in Hl as [Hl _].
      apply andb_true_iff in Hl as [Hc' _].
      apply negb_true_iff in Hc'. rewrite Hc'.
      now rewrite andb_false_r.
Qed.

Lemma readLines_cons (l rest : string) :
  line_like l = true ->
  readLines (l ++ String LF rest) = l :: readLines rest.
Proof.
  intros H. apply andb_true_iff in H as [Hne Hl].
  unfold readLines. rewrite no_line_end_split by assumption.
  cbn [filter]. now rewrite Hne.
Qed.

Lemma written_cons (l : string) (rest : list string) :
  written (l :: rest) =
  (l ++ String LF (match rest with
                   | [] => EmptyString
                   | _ :: _ => written rest
                   end))%string.
Proof.
  unfold written. destruct rest as [|x rest]; [reflexivity|].
  cbn [join]. now rewrite !RefJSONFacts.sapp_assoc.
Qed.

Lemma readLines_written (lines : list string) :
  forallb line_like lines = true -> readLines (written lines) = lines.
Proof.
  destruct lines as [|l lines]; [reflexivity|]. revert l.
  induction lines as [|x lines IH]; intros l H;
    cbn [forallb] in H; apply andb_true_iff in H as [Hl H];
    rewrite written_cons, readLines_cons by assumption.
  - reflexivity.
  - f_equal. now apply IH.
Qed.

Lemma includes_LF_cons (c : ascii) (s : string) :
  (c =? LF)%char = false ->
  includes (String c s) (String LF EmptyString)
  = includes s (String LF EmptyString).
Proof.
  intros Hc. cbn [includes String.prefix].
  destruct (ascii_dec LF c) as [<-|]; [|reflexivity].
  now rewrite Ascii.eqb_refl in Hc.
Qed.

Lemma split_lines_no_LF (raw ln : string) :
  In ln (split_lines raw) -> includes ln (String LF EmptyString) = false.
Proof.
  revert ln. induction raw as [|c raw IH]; intros ln.
  - intros [<-|[]]. reflexivity.
  - cbn [split_lines].
    assert (Hwithin :
      In ln (match split_lines raw with
             | piece :: pieces => String c piece :: pieces
             | [] => [String c EmptyString]
             end) ->
      (c =? LF)%char = false ->
      includes ln (String LF EmptyString) = false).
    { intros H Hc. destruct (split_lines raw) as [|piece pieces].
      - destruct H as [<-|[]]. now rewrite includes_LF_cons.
      - destruct H as [<-|H]; [|apply IH; now right].
        rewrite includes_LF_cons by assumption. apply IH. now left. }
    destruct (c =? LF)%char eqn:Hc.
    + intros [<-|H]; [reflexivity|now apply IH].
    + destruct raw as [|c' raw']; [now intros H; apply Hwithin|].
      destruct ((c =? CR)%char && (c' =? LF)%char) eqn:Hcr;
        [|now intros H; apply Hwithin].
      intros [<-|H]; [reflexivity|].
      apply IH. cbn [split_lines].
      apply andb_true_iff in Hcr as [_ ->]. now right.
Qed.

End Framing.

(** X17. The lines [main] and [boundaryPrune] read from a transcript file
    are never empty and hold no line feed: a blank line of the file is not
    a line of the transcript. *)
Theorem lines_read_are_lines (raw ln : string) :
  In ln (Transcript.readLines raw) ->
  ln <> EmptyString /\
  includes ln (String Transcript.LF EmptyString) = false.
Proof.
  unfold Transcript.readLines. intros H. apply filter_In in H as [H Hne].
  split.
  - intros ->. discriminate.
  - now apply (split_lines_no_LF raw).
Qed.

Section WindowsLineEnds.
Import Transcript.

Lemma no_line_end_split_CRLF (l rest : string) :
  no_line_end l = true ->
  split_lines (l ++ String CR (String LF rest)) = l :: split_lines rest.
Proof.
  induction l as [|c l IH]; intros H.
  - reflexivity.
  - cbn [no_line_end] in H.
    apply andb_true_iff in H as [H Hl].
    apply andb_true_iff in H as [Hc Hend].
    apply negb_true_iff in Hc.
    specialize (IH Hl).
    cbn [append]. cbn [split_lines]. rewrite Hc.
    fold split_lines. rewrite IH.
    destruct l as [|c' l]; cbn [append].
    + now rewrite andb_false_r.
    + cbn [no_line_end] in Hl.
      apply andb_true_iff in Hl as [Hl _].
      apply andb_true_iff in Hl as [Hc' _].
      apply negb_true_iff in Hc'. rewrite Hc'.
      now rewrite andb_false_r.
Qed.

Lemma no_line_end_single (l : string) :
  no_line_end l = true -> split_lines l = [l].
Proof.
  induction l as [|c l IH]; intros H; [reflexivity|].
  cbn [no_line_end] in H.
  apply andb_true_iff in H as [H Hl].
  apply andb_true_iff in H as [Hc Hend].
  apply negb_true_iff in Hc.
  specialize (IH Hl).
  cbn [split_lines]. rewrite Hc. fold split_lines. rewrite IH.
  destruct l as [|c' l]; [reflexivity|].
  cbn [no_line_end] in Hl.
  apply andb_true_iff in Hl as [Hl _].
  apply andb_true_iff in Hl as [Hc' _].
  apply negb_true_iff in Hc'. rewrite Hc'.
  now rewrite andb_false_r.
Qed.

Lemma readLines_CRLF (lines : list string) :
  forallb line_like lines = true ->
  readLines (join (String CR (String LF EmptyString)) lines) = lines.
Proof.
  induction lines as [|l lines IH]; intros H; [reflexivity|].
  cbn [forallb] in H. apply andb_true_iff in H as [Hl H].
  specialize (IH H).
  apply andb_true_iff in Hl as [Hne Hl].
  destruct lines as [|x lines].
  - cbn [join]. unfold readLines. rewrite no_line_end_single by assumption.
    cbn [filter]. now rewrite Hne.
  - change (join (String CR (String LF EmptyString)) (l :: x :: lines))
      with (l ++ String CR (String LF
                   (join (String CR (String LF EmptyString)) (x :: lines))))%string.
    unfold readLines in *.
    rewrite no_line_end_split_CRLF by assumption.
    cbn [filter]. rewrite Hne. cbn [negb]. now rewrite IH.
Qed.

End WindowsLineEnds.

(** X18. What is written is read back: lines that are not empty, hold no
    line feed and do not end in a carriage return, joined and ended by a
    line feed as [main] and [boundaryPrune] write them, are read as the same
    lines.  So are they from a text that has a carriage return and a line
    feed between them. *)
Theorem written_lines_are_read_back (lines : list string) :
  forallb line_like lines = true ->
  Transcript.readLines (Transcript.written lines) = lines /\
  Transcript.readLines
    (join (String Transcript.CR (String Transcript.LF EmptyString)) lines)
  = lines.
Proof.
  intros H. split; [now apply readLines_written|now apply readLines_CRLF].
Qed.

(** ** The file after a run *)

Section AfterARun.
Context {R : Runtime}.

Lemma candidates_line_like (lines : list string) :
  (forall v, line_like (JSON_stringify v) = true) ->
  forallb line_like lines = true ->
  forallb line_like (candidates lines) = true.
Proof.
  intros Hv Hl. rewrite forallb_forall in *. intros x Hx.
  apply In_nth_error in Hx as [i Hi].
  rewrite candidates_nth_error in Hi.
  destruct (nth_error lines i) as [ln|] eqn:Hn; [|discriminate].
  injection Hi as <-. apply nth_error_In in Hn.
  destruct (i =? 0)%nat; [now apply Hl|].
  destruct (processLine_cases (lastNonZeroCacheLineIndex lines) ln i)
    as [->|(_ & obj & obj' & _ & _ & ->)]; [now apply Hl|apply Hv].
Qed.

Lemma selection_line_like (out lines : list string) :
  subsequence out (candidates lines) ->
  (forall v, line_like (JSON_stringify v) = true) ->
  forallb line_like lines = true ->
  forallb line_like out = true.
Proof.
  intros Hsub Hv Hl.
  pose proof (candidates_line_like lines Hv Hl) as Hc.
  rewrite forallb_forall in *. intros x Hx.
  apply Hc. now apply (subsequence_In out).
Qed.

End AfterARun.

(** X19. What [main] and [boundaryPrune] write over a transcript reads back
    as the lines the pruning returned, so that a later run starts from the
    output of this one.  This needs that no line of the file ends in a
    carriage return and that [JSON.stringify] gives a text that is not
    empty and holds neither a line feed nor a carriage return. *)
Theorem pruned_file_reads_as_the_output {R : Runtime}
    (raw : string) (keep : Z) (lineNumber : nat) :
  (forall v, line_like (JSON_stringify v) = true) ->
  forallb line_like (Transcript.readLines raw) = true ->
  Transcript.readLines (Transcript.main_writes raw keep) =
    outLines (Index.pruneSessionLines (Transcript.readLines raw) keep) /\
  Transcript.readLines (Transcript.boundaryPrune_writes raw lineNumber) =
    outLines (BoundaryDetector.pruneToBoundary (Transcript.readLines raw)
                (Z.of_nat lineNumber)).
Proof.
  intros Hv Hl.
  unfold Transcript.main_writes, Transcript.boundaryPrune_writes.
  split; apply readLines_written.
  - apply (selection_line_like _ (Transcript.readLines raw));
      [apply session_selects|assumption..].
  - apply (selection_line_like _ (Transcript.readLines raw));
      [apply boundary_selects|assumption..].
Qed.

(** ** The reference serializer writes one line *)

Section OneLine.
Import RefJSON.

Lemma no_break_app (a b : string) :
  no_break (a ++ b) = no_break a && no_break b.
Proof.
  induction a as [|c a IH]; cbn [append no_break]; [reflexivity|].
  rewrite IH. now rewrite andb_assoc.
Qed.

Lemma no_break_join (sep : string) (parts : list string) :
  no_break sep = true ->
  Forall (fun p => no_break p = true) parts ->
  no_break (join sep parts) = true.
Proof.
  intros Hsep H. induction H as [|p parts Hp H IH]; [reflexivity|].
  destruct parts as [|q parts]; [assumption|].
  cbn [join] in *. rewrite !no_break_app, Hp, Hsep. exact IH.
Qed.

Lemma no_break_escape_char (c : ascii) : no_break (escape_char c) = true.
Proof. destruct c as [[] [] [] [] [] [] [] []]; reflexivity. Qed.

Lemma no_break_escape (s : string) : no_break (escape s) = true.
Proof.
  induction s as [|c s IH]; [reflexivity|].
  cbn [escape]. now rewrite no_break_app, no_break_escape_char.
Qed.

Lemma no_break_print_string (s : string) : no_break (print_string s) = true.
Proof.
  unfold print_string. cbn [no_break].
  now rewrite no_break_app, no_break_escape.
Qed.

Lemma no_break_digits (u : Decimal.uint) :
  no_break (NilEmpty.string_of_uint u) = true.
Proof. induction u; cbn [NilEmpty.string_of_uint no_break]; try rewrite IHu; reflexivity. Qed.

Lemma no_break_Number_toString (n : Z) : no_break (Number_toString n) = true.
Proof.
  unfold Number_toString.
  destruct (Z.to_int n) as [u|u]; cbn [NilZero.string_of_int];
    destruct u; try reflexivity;
    cbn [NilZero.string_of_uint no_break];
    try (rewrite <- (no_break_digits u); reflexivity);
    cbn [NilEmpty.string_of_uint no_break];
    rewrite (no_break_digits u); reflexivity.
Qed.

Lemma no_break_stringify (v : json) : no_break (stringify v) = true.
Proof.
  induction v as [ |[]|n|s|items IH|members IH] using RefJSONFacts.json_induction;
    try reflexivity.
  - apply no_break_Number_toString.
  - apply no_break_print_string.
  - cbn [stringify]. cbn [append no_break]. rewrite no_break_app.
    rewrite no_break_join; [reflexivity|reflexivity|].
    apply Forall_map. exact IH.
  - cbn [stringify]. cbn [append no_break]. rewrite no_break_app.
    rewrite no_break_join; [reflexivity|reflexivity|].
    apply Forall_map. eapply Forall_impl; [|exact IH].
    intros [k x] Hx. cbn [snd] in Hx.
    rewrite no_break_app, no_break_print_string. cbn [append no_break].
    exact Hx.
Qed.

Lemma no_break_line_like (s : string) :
  s <> EmptyString -> no_break s = true -> line_like s = true.
Proof.
  intros Hne H. unfold line_like.
  destruct s as [|c s]; [contradiction|]. cbn [String.eqb negb andb].
  clear Hne. revert c H. induction s as [|c' s IH]; intros c H;
    cbn [no_break no_line_end] in *.
  - apply andb_true_iff in H as [H _].
    apply andb_true_iff in H as [-> ->]. reflexivity.
  - apply andb_true_iff in H as [H Hs].
    apply andb_true_iff in H as [-> _]. cbn [andb].
    now apply IH.
Qed.

End OneLine.

Lemma RefJSON_writes_one_line (v : json) :
  line_like (RefJSON.stringify v) = true.
Proof.
  apply no_break_line_like; [|apply no_break_stringify].
  pose proof (RefJSONFacts.stringify_value_start v EmptyString) as H.
  rewrite RefJSONFacts.sapp_nil_r in H.
  now destruct (RefJSON.stringify v).
Qed.

(** ** The counters that are left *)

Section CountersLeft.
Context {R : Runtime} {L : RuntimeLaws R}.

Lemma subsequence_filter_length {A : Type} (p : A -> bool) (s l : list A) :
  subsequence s l ->
  List.length (filter p s) <= List.length (filter p l).
Proof.
  induction 1 as [|x s l H IH|x s l H IH]; cbn [filter];
    [lia|destruct (p x); simpl; lia|destruct (p x); simpl; lia].
Qed.

Lemma zeroed_not_cacheBearing (ln : string) (obj obj' : json) :
  JSON_parse ln = Some obj -> zeroCache obj = Some obj' ->
  cacheTokens obj' = Some (JNum 0) ->
  cacheBearing (JSON_stringify obj') = false.
Proof.
  intros Hp Hz H0. unfold cacheBearing.
  rewrite (parse_stringify ln obj obj' Hp Hz). cbn [bind].
  unfold cacheTokens in H0.
  destruct (usageObj obj') as [u|]; [|reflexivity].
  cbn [bind try_catch]. now rewrite H0.
Qed.

Lemma last_line (lines : list string) (j : nat) :
  lastNonZeroCacheLineIndex lines = Z.of_nat j ->
  exists ln, nth_error lines j = Some ln /\ cacheBearing ln = true.
Proof.
  intros Hj. unfold lastNonZeroCacheLineIndex, forEach in Hj.
  destruct (last_from_spec lines 0 (-1)%Z) as [[H _]|(n & ln & H & Hn & Hc)];
    cbv zeta in H; rewrite Hj in H; [lia|].
  exists ln. assert (j = n) as -> by lia. now split.
Qed.

Lemma one_fewer (p : string -> bool) (f : string -> nat -> string)
    (l : list string) (i j : nat) (ln : string) :
  i <= j ->
  nth_error l (j - i) = Some ln ->
  p ln = true -> p (f ln j) = false ->
  (forall x n, n <> j -> f x n = x) ->
  List.length (filter p (map_from f l i)) + 1 = List.length (filter p l).
Proof.
  intros Hij Hn Hp Hf Hid. revert i Hij Hn.
  induction l as [|x l IH]; intros i Hij Hn; [now destruct (j - i)|].
  cbn [map_from filter].
  destruct (Nat.eq_dec i j) as [->|Hne].
  - rewrite Nat.sub_diag in Hn. injection Hn as ->.
    rewrite Hf, Hp. rewrite map_from_id; [simpl; lia|].
    intros y n _. apply Hid. lia.
  - rewrite (Hid x i Hne).
    replace (j - i) with (S (j - S i)) in Hn by lia. cbn [nth_error] in Hn.
    specialize (IH (S i) ltac:(lia) Hn).
    destruct (p x); simpl; lia.
Qed.

Lemma candidates_one_fewer (lines : list string) :
  (1 <= lastNonZeroCacheLineIndex lines)%Z ->
  List.length (filter cacheBearing (body (processedLines lines))) + 1
  = List.length (filter cacheBearing (body lines)).
Proof.
  intros H1.
  assert (Hpos : (0 <= lastNonZeroCacheLineIndex lines)%Z) by lia.
  destruct (Z_of_nat_complete _ Hpos) as [j Hj].
  destruct (last_line lines j Hj) as (ln & Hn & Hc).
  destruct (cacheBearing_parse ln Hc) as [obj Hp].
  destruct (processLine_last lines j ln obj Hj Hn Hp) as (obj' & Hz & H0 & Hl).
  rewrite body_processedLines.
  apply (one_fewer cacheBearing _ (body lines) 1 j ln).
  - lia.
  - rewrite body_nth_error. now replace (S (j - 1)) with j by lia.
  - exact Hc.
  - rewrite Hl. now apply (zeroed_not_cacheBearing ln obj).
  - intros x n Hne. unfold processLine. rewrite Hj.
    destruct (Z.eqb_spec (Z.of_nat n) (Z.of_nat j)); [lia|reflexivity].
Qed.

End CountersLeft.

(** X20. Each run leaves fewer records for the next one to rewrite.  The
    scan takes a record as cache-bearing when the usage object it reads,
    [usage] when that is truthy and else [message.usage], has a
    [cache_read_input_tokens] that is set and greater than 0.  When the last
    such record of the input is not the head, the output of both operations
    has, after its head, fewer such records than the input has after its
    head. *)
Theorem fewer_counters_after_a_run {R : Runtime} {L : RuntimeLaws R}
    (lines : list string) (keepN boundaryLineNumber : Z)
    (j : nat) (ln : string) :
  nth_error lines j = Some ln ->
  cache_bearing ln ->
  (forall m lm, j < m -> nth_error lines m = Some lm -> ~ cache_bearing lm) ->
  1 <= j ->
  let session := outLines (Index.pruneSessionLines lines keepN) in
  let boundary :=
    outLines (BoundaryDetector.pruneToBoundary lines boundaryLineNumber) in
  exists recognised : string -> bool,
    (forall x, recognised x = true <-> cache_bearing x) /\
    List.length (filter recognised (body session))
    < List.length (filter recognised (body lines)) /\
    List.length (filter recognised (body boundary))
    < List.length (filter recognised (body lines)).
Proof.
  intros Hn Hb Hafter Hj. cbv zeta.
  assert (H1 : (1 <= lastNonZeroCacheLineIndex lines)%Z).
  { rewrite (last_cache_index lines j ln Hn); [lia|now apply cacheBearing_iff|].
    intros m lm Hm Hl. destruct (cacheBearing lm) eqn:E; [|reflexivity].
    exfalso. apply (Hafter m lm Hm Hl). now apply cacheBearing_iff. }
  exists cacheBearing. split; [intros x; apply cacheBearing_iff|].
  pose proof (candidates_one_fewer lines H1) as Hc.
  rewrite session_run, boundary_run. cbn [outLines].
  rewrite !body_out by apply filter_from_body_empty.
  split.
  - pose proof (subsequence_filter_length cacheBearing _ _
                  (filter_from_subsequence
                     (session_keeps (Index.cut lines keepN)
                        (Index.keptToolUseIds lines keepN))
                     (body (processedLines lines)) 1)).
    lia.
  - pose proof (subsequence_filter_length cacheBearing _ _
                  (filter_from_subsequence
                     (boundary_keeps boundaryLineNumber
                        (BoundaryDetector.keptToolUseIds lines
                           boundaryLineNumber))
                     (body (processedLines lines)) 1)).
    lia.
Qed.

(** ** The time shown for a line *)

Section Shown.
Context {R : Runtime} {L : RuntimeLaws R} {D : Display.DateRuntime}.

Lemma extractTimestamp_field (line : string) :
  Display.extractTimestamp line =
  match field line "timestamp" with
  | Some timestamp =>
      if truthy timestamp then option_map Display.toLocaleString timestamp
      else
        match field line "created_at" with
        | Some created_at =>
            if truthy created_at
            then option_map Display.toLocaleString created_at
            else None
        | None => None
        end
  | None => None
  end.
Proof.
  unfold Display.extractTimestamp, field, try_catch, bind.
  destruct (JSON_parse line) as [obj|]; [|reflexivity].
  destruct (prop (Some obj) "timestamp") as [timestamp|]; [|reflexivity].
  destruct (truthy timestamp) eqn:Ht.
  - now destruct timestamp.
  - destruct (prop (Some obj) "created_at") as [created_at|]; [|reflexivity].
    destruct (truthy created_at) eqn:Hc; [|reflexivity].
    now destruct created_at.
Qed.

End Shown.

(** X21. The rewrite of the usage counter does not change the time that
    [extractTimestamp] shows for a line: the rewritten line has the
    [timestamp] and the [created_at] of the line it replaces. *)
Theorem rewrite_keeps_the_time_shown
    {R : Runtime} {L : RuntimeLaws R} {D : Display.DateRuntime}
    (lines : list string) (ln : string) (i : nat) :
  Display.extractTimestamp
    (processLine (lastNonZeroCacheLineIndex lines) ln i)
  = Display.extractTimestamp ln.
Proof.
  rewrite !extractTimestamp_field.
  now rewrite !processLine_field by discriminate.
Qed.

(** ** A marker that is pruned to is found again *)

Section FoundAgain.
Context {R : Runtime} {L : RuntimeLaws R}.

Lemma skipn_nth_error {A : Type} (l : list A) (n : nat) (x : A) :
  nth_error l n = Some x -> skipn n l = x :: skipn (S n) l.
Proof.
  revert n. induction l as [|y l IH]; intros [|n] H; try discriminate.
  - now injection H as ->.
  - cbn [nth_error] in H. cbn [skipn]. now apply IH.
Qed.

Lemma opaque_at_boundary (lines : list string) (i : nat) (line : string) :
  1 <= i ->
  nth_error lines i = Some line ->
  JSON_parse line = None ->
  nth_error (outLines (BoundaryDetector.pruneToBoundary lines (Z.of_nat i))) 1
  = Some line.
Proof.
  intros Hi Hn Hp. rewrite boundary_run. cbn [outLines].
  rewrite boundary_after, Nat2Z.id.
  destruct lines as [|l0 ls]; [now destruct i|].
  cbn [firstn app nth_error].
  assert (Hx : nth_error (body (processedLines (l0 :: ls))) (i - 1)
               = Some line).
  { rewrite body_nth_error, processedLines_nth_error.
    replace (S (i - 1)) with i by lia. rewrite Hn. cbn [option_map].
    now rewrite opaque_processLine. }
  rewrite (skipn_nth_error _ _ _ Hx). cbn [filter].
  unfold kept_after at 1. now rewrite (opaque_shouldKeep _ line Hp), orb_true_r.
Qed.

End FoundAgain.

(** X22. A marker that is pruned to is found again: when line [i], after
    the head, holds the boundary marker and is not JSON, [pruneToBoundary]
    at [i] emits it as the first line after the head, and [detectBoundaries]
    on the output has a boundary of type [intent] on line [1]. *)
Theorem marker_pruned_to_is_found_again {R : Runtime} {L : RuntimeLaws R}
    (lines : list string) (i : nat) (line : string) :
  1 <= i ->
  nth_error lines i = Some line ->
  has_marker line = true ->
  JSON_parse line = None ->
  let out := outLines (BoundaryDetector.pruneToBoundary lines (Z.of_nat i)) in
  nth_error out 1 = Some line /\
  exists b,
    In b (BoundaryDetector.boundaries (BoundaryDetector.detectBoundaries out)) /\
    BoundaryDetector.lineNumber b = 1 /\
    BoundaryDetector.type b = BoundaryDetector.Intent.
Proof.
  intros Hi Hn Hm Hp. cbv zeta.
  pose proof (opaque_at_boundary lines i line Hi Hn Hp) as Hout.
  split; [exact Hout|].
  destruct (proj2 (marker_is_found
                     (outLines (BoundaryDetector.pruneToBoundary lines
                                  (Z.of_nat i))) 1))
    as (b & Hb & Hl & Ht); [now exists line|].
  exists b. split; [|now split].
  cbn [BoundaryDetector.boundaries BoundaryDetector.detectBoundaries].
  now apply Array_sort_In_iff.
Qed.

(** ** The most recent session *)

Section MostRecent.
Import Sessions.

Lemma head_of_sorted_is_greatest {A : Type} (key : A -> Z) (l : list A)
    (x : A) (rest : list A) :
  BoundaryDetector.Array_sort (fun a b => (key b - key a)%Z) l = x :: rest ->
  forall y, In y l -> (key y <= key x)%Z.
Proof.
  revert x rest. induction l as [|a l IH]; intros x rest H y Hy; [destruct Hy|].
  unfold BoundaryDetector.Array_sort in *. cbn [fold_right] in H.
  destruct (fold_right
              (BoundaryDetector.insert_sorted (fun a b => (key b - key a)%Z))
              [] l) as [|y0 sorted] eqn:Hsorted.
  - assert (l = []) as ->.
    { apply length_zero_iff_nil.
      rewrite <- (Array_sort_length (fun a b => (key b - key a)%Z) l).
      unfold BoundaryDetector.Array_sort. now rewrite Hsorted. }
    cbn in H. injection H as <- <-. destruct Hy as [<-|[]]. lia.
  - specialize (IH y0 sorted eq_refl).
    cbn [BoundaryDetector.insert_sorted] in H.
    destruct (Z.leb_spec (key y0 - key a) 0) as [Hle|Hgt];
      injection H as <- <-.
    + destruct Hy as [<-|Hy]; [lia|]. specialize (IH y Hy). lia.
    + destruct Hy as [<-|Hy]; [lia|]. now apply IH.
Qed.

Lemma not_null_In {A : Type} (l : list (option A)) (x : A) :
  In x (not_null l) <-> In (Some x) l.
Proof.
  induction l as [|[y|] l IH]; cbn [not_null In].
  - reflexivity.
  - rewrite IH. split; intros [H|H]; auto; left; congruence.
  - rewrite IH. split; [auto|intros [H|H]; [discriminate|assumption]].
Qed.

Lemma valid_session_In (d : ProjectDir) (files : list string)
    (s : SessionStat) :
  In s (validSessions d files) <->
  In (sessionId s) (sessionFiles files) /\
  stat d (sessionId s ++ ".jsonl") = Some (mtime s).
Proof.
  unfold validSessions. rewrite Array_sort_In_iff, not_null_In, in_map_iff.
  unfold session_stat. split.
  - intros (id & H & Hid).
    destruct (stat d (id ++ ".jsonl")) as [t|] eqn:Ht; [|discriminate].
    injection H as <-. now split.
  - intros [Hid Ht]. exists (sessionId s). split; [|assumption].
    rewrite Ht. now destruct s.
Qed.

Lemma most_recent_spec (d : ProjectDir) (id : string) :
  findMostRecentSession d = Some id ->
  pathExists d = true /\
  exists files t,
    readdir d = Some files /\
    In id (sessionFiles files) /\
    stat d (id ++ ".jsonl") = Some t /\
    forall id' t',
      In id' (sessionFiles files) ->
      stat d (id' ++ ".jsonl") = Some t' -> (t' <= t)%Z.
Proof.
  unfold findMostRecentSession.
  destruct (pathExists d); [|discriminate]. cbn [negb].
  destruct (readdir d) as [files|]; [|discriminate].
  destruct (sessionFiles files) as [|x ids] eqn:Hids; [discriminate|].
  destruct (validSessions d files) as [|latest rest] eqn:Hvalid;
    [discriminate|].
  intros [= <-]. split; [reflexivity|]. exists files, (mtime latest).
  assert (Hin : In latest (validSessions d files))
    by (rewrite Hvalid; now left).
  apply valid_session_In in Hin as [Hin Ht].
  split; [reflexivity|]. split; [assumption|]. split; [assumption|].
  intros id' t' Hid' Ht'.
  unfold validSessions in Hvalid.
  apply (head_of_sorted_is_greatest mtime _ _ _ Hvalid
           {| sessionId := id'; mtime := t' |}).
  apply not_null_In, in_map_iff. exists id'. unfold session_stat.
  rewrite Ht'. now split.
Qed.

Lemma most_recent_none (d : ProjectDir) :
  findMostRecentSession d = None <->
  pathExists d = false \/
  readdir d = None \/
  exists files,
    readdir d = Some files /\
    forall id, In id (sessionFiles files) -> stat d (id ++ ".jsonl") = None.
Proof.
  unfold findMostRecentSession.
  destruct (pathExists d); cbn [negb]; [|split; [now left|reflexivity]].
  destruct (readdir d) as [files|];
    [|split; [now right; left|reflexivity]].
  assert (Hvalid : validSessions d files = [] <->
                   forall id, In id (sessionFiles files) ->
                              stat d (id ++ ".jsonl") = None).
  { split.
    - intros H id Hid.
      destruct (stat d (id ++ ".jsonl")) as [t|] eqn:Ht; [|reflexivity].
      exfalso.
      assert (Hin : In {| sessionId := id; mtime := t |}
                      (validSessions d files))
        by (apply valid_session_In; now split).
      now rewrite H in Hin.
    - intros H. destruct (validSessions d files) as [|s rest] eqn:E;
        [reflexivity|]. exfalso.
      assert (Hin : In s (validSessions d files)) by (rewrite E; now left).
      apply valid_session_In in Hin as [Hin Ht].
      rewrite (H _ Hin) in Ht. discriminate. }
  destruct (sessionFiles files) as [|x ids] eqn:Hids.
  - split; [intros _|reflexivity]. right; right. exists files.
    split; [reflexivity|]. rewrite Hids. intros id [].
  - destruct Hvalid as [Hnone Hall].
    destruct (validSessions d files) as [|latest rest] eqn:E.
    + split; [intros _|reflexivity]. right; right. exists files.
      split; [reflexivity|]. rewrite Hids. now apply Hnone.
    + split; [discriminate|].
      intros [H|[H|(files' & [= <-] & H)]]; try discriminate.
      rewrite Hids in H. specialize (Hall H). discriminate.
Qed.

End MostRecent.

(** X23. The session [findMostRecentSession] returns comes from an entry of
    the project directory that ends in [.jsonl] and holds no [.jsonl.], so
    not from a backup: it is that entry without its first [.jsonl].  The
    file [sessionId.jsonl] could be examined, and no file of such an entry
    that could be examined was changed later. *)
Theorem most_recent_session_is_the_newest
    (d : Sessions.ProjectDir) (id : string) :
  Sessions.findMostRecentSession d = Some id ->
  Sessions.pathExists d = true /\
  exists files t,
    Sessions.readdir d = Some files /\
    (exists f, In f files /\
       Sessions.endsWith f ".jsonl" = true /\
       includes f ".jsonl." = false /\
       id = Sessions.remove_first ".jsonl" f) /\
    Sessions.stat d (id ++ ".jsonl") = Some t /\
    forall id' t',
      In id' (Sessions.sessionFiles files) ->
      Sessions.stat d (id' ++ ".jsonl") = Some t' -> (t' <= t)%Z.
Proof.
  intros H. apply most_recent_spec in H as (He & files & t & Hr & Hid & Ht & Hmax).
  split; [exact He|]. exists files, t.
  split; [exact Hr|]. split; [|now split].
  unfold Sessions.sessionFiles in Hid.
  apply in_map_iff in Hid as (f & <- & Hf).
  apply filter_In in Hf as [Hf Hc]. apply andb_true_iff in Hc as [Hend Hinc].
  exists f. split; [exact Hf|]. split; [exact Hend|].
  split; [now apply negb_true_iff|reflexivity].
Qed.

(** X24. [findMostRecentSession] returns [null] exactly when the project
    directory does not exist, or cannot be read, or none of its entries
    that end in [.jsonl] and hold no [.jsonl.] gives a file that can be
    examined. *)
Theorem no_session_exactly_when_none_is_found (d : Sessions.ProjectDir) :
  Sessions.findMostRecentSession d = None <->
  Sessions.pathExists d = false \/
  Sessions.readdir d = None \/
  exists files,
    Sessions.readdir d = Some files /\
    forall id, In id (Sessions.sessionFiles files) ->
               Sessions.stat d (id ++ ".jsonl") = None.
Proof. apply most_recent_none. Qed.

(** ** The commands *)

Section CommandFacts.
Import Commands.
Context {R : Runtime} {N : Restore.NumberRuntime}.

Lemma backup_and_write_effects (w : World) (sessionId text : string)
    (f : Path) (t : string) :
  In (WriteFile f t) (backup_and_write w sessionId text) ->
  f = file w sessionId /\ t = text /\
  ensureDir w (backupDir w) = true /\
  copyFile w (file w sessionId)
    (backupDir w ++ [Restore.backupName sessionId (now w)]) = true /\
  backup_and_write w sessionId text =
  [EnsureDir (backupDir w);
   CopyFile (file w sessionId)
     (backupDir w ++ [Restore.backupName sessionId (now w)]);
   WriteFile (file w sessionId) text].
Proof.
  unfold backup_and_write.
  destruct (ensureDir w (backupDir w)); [|intros [H|[]]; discriminate].
  destruct (copyFile w _ _); [|intros [H|[H|[]]]; discriminate].
  intros [H|[H|[H|[]]]]; try discriminate.
  injection H as <- <-. now repeat split.
Qed.

Lemma main_writes_after_backup (w : World) (sessionId : string) (keep : Z)
    (dryRun : bool) (f : Path) (text : string) :
  In (WriteFile f text) (main w sessionId keep dryRun) ->
  exists raw,
    readFile w (file w sessionId) = Some raw /\
    f = file w sessionId /\
    text = Transcript.main_writes raw keep /\
    dryRun = false /\
    (isTTY w = true -> confirm w = true) /\
    copyFile w (file w sessionId)
      (backupDir w ++ [Restore.backupName sessionId (now w)]) = true /\
    main w sessionId keep dryRun =
    [EnsureDir (backupDir w);
     CopyFile (file w sessionId)
       (backupDir w ++ [Restore.backupName sessionId (now w)]);
     WriteFile (file w sessionId) text].
Proof.
  unfold main.
  destruct (pathExists w (file w sessionId)); cbn [negb];
    [|intros [H|[]]; discriminate].
  destruct (negb dryRun && isTTY w && negb (confirm w)) eqn:Hc;
    [intros [H|[]]; discriminate|].
  destruct (readFile w (file w sessionId)) as [raw|]; [|intros []].
  destruct dryRun; [intros []|]. cbn [negb andb] in Hc.
  intros H. apply backup_and_write_effects in H as (-> & -> & _ & Hcopy & ->).
  exists raw. repeat (split; [reflexivity|]).
  split; [|now split].
  intros Ht. rewrite Ht in Hc. now destruct (confirm w).
Qed.

Lemma restore_effects (w : World) (sessionId : string) (dryRun : bool)
    (e : Effect) :
  In e (restore w sessionId dryRun) ->
  changes_files e = true ->
  exists backupFiles latestBackup,
    readdir w (backupDir w) = Some backupFiles /\
    Restore.findLatestBackup backupFiles sessionId = Some latestBackup /\
    e = CopyFile (backupDir w ++ [Restore.name latestBackup])
          (file w sessionId) /\
    hd_error (restore w sessionId dryRun) = Some e /\
    dryRun = false /\
    (isTTY w = true -> confirm w = true).
Proof.
  unfold restore.
  destruct (pathExists w (backupDir w)); cbn [negb];
    [|intros [<-|[]]; discriminate].
  destruct (readdir w (backupDir w)) as [backupFiles|] eqn:Hr;
    [|intros [<-|[]]; discriminate].
  destruct (Restore.findLatestBackup backupFiles sessionId)
    as [latestBackup|] eqn:Hl; [|intros [<-|[]]; discriminate].
  destruct dryRun; [intros []|].
  destruct (isTTY w && negb (confirm w)) eqn:Hc;
    [intros [<-|[]]; discriminate|].
  intros He Hch. exists backupFiles, latestBackup.
  assert (e = CopyFile (backupDir w ++ [Restore.name latestBackup])
                (file w sessionId)) as ->.
  { destruct He as [<-|He]; [reflexivity|].
    destruct (copyFile w _ _); [destruct He|].
    destruct He as [<-|[]]. discriminate. }
  split; [reflexivity|]. split; [exact Hl|].
  repeat (split; [reflexivity|]).
  intros Ht. rewrite Ht in Hc. now destruct (confirm w).
Qed.

End CommandFacts.

(** X25. A dry run changes no file: with [--dry-run], [main], [restore]
    and [boundaryPrune] make no directory, copy no file and write no file,
    whatever they are answered. *)
Theorem dry_run_changes_no_file {R : Runtime} {N : Restore.NumberRuntime}
    (w : Commands.World) (sessionId : string) (keep : Z) (e : Commands.Effect) :
  (In e (Commands.main w sessionId keep true) ->
   Commands.changes_files e = false) /\
  (In e (Commands.restore w sessionId true) ->
   Commands.changes_files e = false) /\
  (In e (Commands.boundaryPrune w sessionId true) ->
   Commands.changes_files e = false).
Proof.
  split; [|split].
  - unfold Commands.main.
    destruct (Commands.pathExists w _); cbn [negb andb];
      [|intros [<-|[]]; reflexivity].
    destruct (Commands.readFile w _); intros [].
  - unfold Commands.restore.
    destruct (Commands.pathExists w _); cbn [negb];
      [|intros [<-|[]]; reflexivity].
    destruct (Commands.readdir w _) as [backupFiles|];
      [|intros [<-|[]]; reflexivity].
    destruct (Restore.findLatestBackup backupFiles sessionId);
      [intros []|intros [<-|[]]; reflexivity].
  - unfold Commands.boundaryPrune.
    destruct (Commands.pathExists w _); cbn [negb andb];
      [|intros [<-|[]]; reflexivity].
    destruct (Commands.readFile w _); [|intros []].
    destruct (BoundaryDetector.boundaries _); [intros []|].
    destruct (Commands.selected w); intros [].
Qed.

(** X26. [main] overwrites the transcript only after it has copied it: when
    [main] writes a file, the run was no dry run, the prompt, if there was
    one, was answered with yes, the file is the transcript of the session
    and the text is the pruned transcript; and before that [main] has made
    the backup directory and copied the transcript to
    [sessionId.jsonl.now] in it, without an error.  It does nothing else to
    the file system. *)
Theorem main_overwrites_after_the_backup
    {R : Runtime} (w : Commands.World) (sessionId : string) (keep : Z)
    (dryRun : bool) (f : Commands.Path) (text : string) :
  In (Commands.WriteFile f text) (Commands.main w sessionId keep dryRun) ->
  exists raw,
    Commands.readFile w (Commands.file w sessionId) = Some raw /\
    f = Commands.file w sessionId /\
    text = Transcript.main_writes raw keep /\
    dryRun = false /\
    (Commands.isTTY w = true -> Commands.confirm w = true) /\
    Commands.copyFile w (Commands.file w sessionId)
      (Commands.backupDir w
       ++ [Restore.backupName sessionId (Commands.now w)]) = true /\
    Commands.main w sessionId keep dryRun =
    [Commands.EnsureDir (Commands.backupDir w);
     Commands.CopyFile (Commands.file w sessionId)
       (Commands.backupDir w
        ++ [Restore.backupName sessionId (Commands.now w)]);
     Commands.WriteFile (Commands.file w sessionId) text].
Proof. apply main_writes_after_backup. Qed.

(** X27. [boundaryPrune] overwrites the transcript only after it has copied
    it: when it writes a file, the run was no dry run, a boundary was
    selected, the prompt, if there was one, was answered with yes, the file
    is the transcript of the session and the text is the transcript pruned
    to the line of the selected boundary; and before that it has made the
    backup directory and copied the transcript to [sessionId.jsonl.now] in
    it, without an error.  It does nothing else to the file system. *)
Theorem boundaryPrune_overwrites_after_the_backup
    {R : Runtime} (w : Commands.World) (sessionId : string)
    (dryRun : bool) (f : Commands.Path) (text : string) :
  In (Commands.WriteFile f text) (Commands.boundaryPrune w sessionId dryRun) ->
  exists raw selectedBoundary,
    Commands.readFile w (Commands.file w sessionId) = Some raw /\
    Commands.selected w = Some selectedBoundary /\
    f = Commands.file w sessionId /\
    text = Transcript.boundaryPrune_writes raw
             (BoundaryDetector.lineNumber selectedBoundary) /\
    dryRun = false /\
    (Commands.isTTY w = true -> Commands.confirm w = true) /\
    Commands.copyFile w (Commands.file w sessionId)
      (Commands.backupDir w
       ++ [Restore.backupName sessionId (Commands.now w)]) = true /\
    Commands.boundaryPrune w sessionId dryRun =
    [Commands.EnsureDir (Commands.backupDir w);
     Commands.CopyFile (Commands.file w sessionId)
       (Commands.backupDir w
        ++ [Restore.backupName sessionId (Commands.now w)]);
     Commands.WriteFile (Commands.file w sessionId) text].
Proof.
  unfold Commands.boundaryPrune.
  destruct (Commands.pathExists w _); cbn [negb];
    [|intros [H|[]]; discriminate].
  destruct (Commands.readFile w _) as [raw|]; [|intros []].
  destruct (BoundaryDetector.boundaries _); [intros []|].
  destruct (Commands.selected w) as [selectedBoundary|]; [|intros []].
  destruct (negb dryRun && Commands.isTTY w && negb (Commands.confirm w))
    eqn:Hc; [intros []|].
  destruct dryRun; [intros []|]. cbn [negb andb] in Hc.
  intros H. apply backup_and_write_effects in H as (-> & -> & _ & Hcopy & ->).
  exists raw, selectedBoundary. repeat (split; [reflexivity|]).
  split; [|now split].
  intros Ht. rewrite Ht in Hc. now destruct (Commands.confirm w).
Qed.

(** X28. [restore] changes one file at most, and only from the latest
    backup: what it does to the file system is to copy, first of all, the
    backup that [findLatestBackup] picks among the entries of the backup
    directory onto the transcript of the session, in a run that is no dry
    run and after a yes to the prompt, if there was one. *)
Theorem restore_copies_the_latest_backup
    {N : Restore.NumberRuntime} (w : Commands.World) (sessionId : string)
    (dryRun : bool) (e : Commands.Effect) :
  In e (Commands.restore w sessionId dryRun) ->
  Commands.changes_files e = true ->
  exists backupFiles latestBackup,
    Commands.readdir w (Commands.backupDir w) = Some backupFiles /\
    Restore.findLatestBackup backupFiles sessionId = Some latestBackup /\
    e = Commands.CopyFile
          (Commands.backupDir w ++ [Restore.name latestBackup])
          (Commands.file w sessionId) /\
    hd_error (Commands.restore w sessionId dryRun) = Some e /\
    dryRun = false /\
    (Commands.isTTY w = true -> Commands.confirm w = true).
Proof. apply restore_effects. Qed.

(** X29. [restore] undoes [main]: if [main] has overwritten a transcript at
    time [now], and [restore] then runs for the same session from the same
    directory, finds the backup of [main] among the entries of the backup
    directory with every other backup of the session older, and is not
    answered no, then the first thing it does is to copy the file that
    [main] copied the transcript to onto the file that [main] overwrote. *)
Theorem restore_undoes_main
    {R : Runtime} {N : Restore.NumberRuntime} {NL : Restore.NumberLaws N}
    (w w' : Commands.World) (sessionId : string) (keep : Z)
    (f : Commands.Path) (text : string) (backupFiles : list string) :
  In (Commands.WriteFile f text) (Commands.main w sessionId keep false) ->
  Commands.homedir w' = Commands.homedir w ->
  Commands.cwd w' = Commands.cwd w ->
  (0 <= Commands.now w < 2 ^ 53)%Z ->
  Commands.pathExists w' (Commands.backupDir w') = true ->
  Commands.readdir w' (Commands.backupDir w') = Some backupFiles ->
  In (Restore.backupName sessionId (Commands.now w)) backupFiles ->
  (forall other, In other backupFiles ->
     other <> Restore.backupName sessionId (Commands.now w) ->
     Restore.of_session sessionId other = true ->
     Restore.isNaN (Restore.timestamp (Restore.backup_of other)) = false ->
     Restore.older (Restore.timestamp (Restore.backup_of other))
       (Restore.Finite (Commands.now w))) ->
  (Commands.isTTY w' = true -> Commands.confirm w' = true) ->
  exists backup,
    In (Commands.CopyFile f backup) (Commands.main w sessionId keep false) /\
    hd_error (Commands.restore w' sessionId false)
    = Some (Commands.CopyFile backup f).
Proof.
  intros Hmain Hhome Hcwd Hnow Hexists Hdir Hin Hold Hyes.
  apply main_writes_after_backup in Hmain
    as (raw & _ & -> & -> & _ & _ & _ & Heffects).
  exists (Commands.backupDir w
          ++ [Restore.backupName sessionId (Commands.now w)]).
  split; [rewrite Heffects; right; now left|].
  assert (Hd : Commands.backupDir w' = Commands.backupDir w).
  { unfold Commands.backupDir, Commands.cwdProject. now rewrite Hhome, Hcwd. }
  assert (Hf : Commands.file w' sessionId = Commands.file w sessionId).
  { unfold Commands.file, Commands.cwdProject. now rewrite Hhome, Hcwd. }
  unfold Commands.restore. rewrite Hexists, Hdir. cbn [negb].
  rewrite (latest_is_the_backup_named backupFiles sessionId (Commands.now w)
             Hnow Hin Hold).
  cbn [Restore.name]. rewrite Hd, Hf.
  destruct (Commands.isTTY w') eqn:Ht; [rewrite (Hyes eq_refl)|];
    reflexivity.
Qed.

(** * The further properties on sample inputs *)

Section OnMoreSamples.
#[local] Existing Instance RefJSON.runtime.
#[local] Existing Instance RefNumber.runtime.
Import Samples MoreSamples.

(** ** The repository's tests of [findLatestBackup] *)

(** 'should find the latest backup by timestamp' *)
Example finds_the_latest_backup :
  Restore.findLatestBackup backups "abc123"
  = Some {| Restore.name := "abc123.jsonl.1641081600000";
            Restore.timestamp := Restore.Finite 1641081600000 |}.
Proof. vm_compute. reflexivity. Qed.

(** 'should return null when no backups found for session' and 'should
    handle empty backup files array' *)
Example finds_no_backup :
  Restore.findLatestBackup other_sessions "abc123" = None /\
  Restore.findLatestBackup [] "abc123" = None.
Proof. vm_compute. split; reflexivity. Qed.

(** 'should filter out files that do not match session pattern' and
    'should handle malformed timestamps gracefully' *)
Example passes_over_other_files :
  Restore.findLatestBackup other_files "abc123"
  = Some {| Restore.name := "abc123.jsonl.1640995200000";
            Restore.timestamp := Restore.Finite 1640995200000 |} /\
  Restore.findLatestBackup malformed_backups "abc123"
  = Some {| Restore.name := "abc123.jsonl.1640995200000";
            Restore.timestamp := Restore.Finite 1640995200000 |}.
Proof. vm_compute. split; reflexivity. Qed.

(** 'should sort by timestamp correctly with multiple valid backups' *)
Example sorts_by_timestamp :
  Restore.findLatestBackup
    ["abc123.jsonl.1000"; "abc123.jsonl.3000"; "abc123.jsonl.2000"] "abc123"
  = Some {| Restore.name := "abc123.jsonl.3000";
            Restore.timestamp := Restore.Finite 3000 |}.
Proof. vm_compute. reflexivity. Qed.

(** 'should handle malformed JSON gracefully' *)
Example keeps_malformed_lines :
  let r := Index.pruneSessionLines malformed 1 in
  (outLines r, kept r, dropped r, Index.assistantCount r)
  = (malformed, 2, 0, 1).
Proof. vm_compute. reflexivity. Qed.

(** 'should handle boundary detection and pruning together' *)
Example detects_and_prunes :
  let found := BoundaryDetector.boundaries
                 (BoundaryDetector.detectBoundaries phases) in
  let r := BoundaryDetector.pruneToBoundary phases 5 in
  (map BoundaryDetector.lineNumber found,
   List.length (outLines r), kept r, dropped r)
  = ([5; 2], 3, 1, 3).
Proof. vm_compute. reflexivity. Qed.

(** A file with a blank line and with line ends of both kinds. *)
Example reads_the_lines :
  Transcript.readLines file_text = one_turn.
Proof. vm_compute. reflexivity. Qed.

(** 'should prefer timestamp over created_at' *)
Example prefers_timestamp :
  Display.extractTimestamp (D := RefDate.runtime) timed
  = Some "2024-01-15T10:30:00Z".
Proof. vm_compute. reflexivity. Qed.

(** ** The properties at sample inputs *)

(** X1 on the transcript of 'should keep messages from last N assistant
    messages', with [keepN = 2] and with the boundary on line 3. *)
Lemma counters_account_witness :
  let session := Index.pruneSessionLines three_turns 2 in
  let boundary := BoundaryDetector.pruneToBoundary three_turns 3 in
  kept session + dropped session
  = List.length (filter isMsg (body three_turns)) /\
  kept boundary + dropped boundary
  = List.length (filter isMsg (body three_turns)).
Proof. exact (counters_account (L := RefJSON_laws) three_turns 2 3). Defined.

(** X4 on that transcript with [keepN = 2]. *)
Lemma keeps_the_last_assistants_witness :
  let r := Index.pruneSessionLines three_turns 2 in
  let assistants := filter is_assistant (body (candidates three_turns)) in
  Index.assistantCount r = List.length (filter is_assistant (body three_turns)) /\
  List.length assistants = Index.assistantCount r /\
  filter is_assistant (body (outLines r)) =
  skipn (List.length assistants - Z.to_nat 2) assistants.
Proof.
  exact (keeps_the_last_assistants (L := RefJSON_laws) three_turns 2).
Defined.

(** X21 on a record with a [timestamp] and a positive usage counter, at
    index 1. *)
Lemma rewrite_keeps_the_time_shown_witness :
  Display.extractTimestamp (D := RefDate.runtime)
    (processLine (lastNonZeroCacheLineIndex [summary; timed]) timed 1)
  = Display.extractTimestamp (D := RefDate.runtime) timed.
Proof.
  exact (rewrite_keeps_the_time_shown (L := RefJSON_laws)
           (D := RefDate.runtime) [summary; timed] timed 1).
Defined.

(** X5 on the transcript of 'should keep all messages if assistant count
    <= keepN'. *)
Lemma nothing_to_cut_witness :
  let r := Index.pruneSessionLines two_turns 5 in
  dropped r = 0 /\
  kept r = List.length (filter isMsg (body two_turns)) /\
  exists stays : string -> bool,
    (forall ln, stays ln = false <-> unread_result (body two_turns) ln) /\
    outLines r = firstn 1 two_turns ++ filter stays (body (candidates two_turns)).
Proof.
  apply (nothing_to_cut (L := RefJSON_laws) two_turns 5).
  vm_compute. discriminate.
Defined.

(** X6 on the transcript of 'should handle boundary at line 1'. *)
Lemma boundary_at_the_start_witness :
  let r := BoundaryDetector.pruneToBoundary one_turn 1 in
  dropped r = 0 /\
  kept r = List.length (filter isMsg (body one_turn)) /\
  exists stays : string -> bool,
    (forall ln, stays ln = false <-> unread_result (body one_turn) ln) /\
    outLines r = firstn 1 one_turn ++ filter stays (body (candidates one_turn)).
Proof.
  apply (boundary_at_the_start (L := RefJSON_laws) one_turn 1). lia.
Defined.

(** X8 on the transcript of 'should handle malformed JSON gracefully': the
    line at index 4 stays with [keepN = 1], and with the boundary on
    line 3. *)
Lemma opaque_lines_stay_witness :
  In "{ invalid json" (outLines (Index.pruneSessionLines malformed 1)) /\
  In "{ invalid json" (outLines (BoundaryDetector.pruneToBoundary malformed 3)).
Proof.
  destruct (opaque_lines_stay (L := RefJSON_laws) malformed 1 3 4
              "{ invalid json") as [Hs Hb].
  - reflexivity.
  - vm_compute. reflexivity.
  - split; [exact Hs|]. apply Hb. right. lia.
Defined.

(** X9 on the transcript of 'should keep messages from last N assistant
    messages', with [keepN = 1] and [keepN = 2]. *)
Lemma greater_keepN_keeps_more_witness :
  let less := Index.pruneSessionLines three_turns 1 in
  let more := Index.pruneSessionLines three_turns 2 in
  subsequence (outLines less) (outLines more) /\
  kept less <= kept more /\
  dropped more <= dropped less.
Proof.
  apply (greater_keepN_keeps_more (L := RefJSON_laws) three_turns 1 2). lia.
Defined.

(** X10 on the transcript of 'should prune to boundary correctly', with
    the boundary on line 1 and on line 3. *)
Lemma later_boundary_keeps_less_witness :
  let early := BoundaryDetector.pruneToBoundary two_turns 1 in
  let late := BoundaryDetector.pruneToBoundary two_turns 3 in
  subsequence (outLines late) (outLines early) /\
  kept late <= kept early /\
  dropped early <= dropped late.
Proof.
  apply (later_boundary_keeps_less (L := RefJSON_laws) two_turns 1 3). lia.
Defined.

(** X12 on the transcript of 'should calculate retention percentages
    correctly': 27 of 39 characters from the marker on. *)
Lemma characterCount_is_the_text_from_the_line_witness :
  let lines := ["line1"; "line2"; "===INTENT_BOUNDARY==="; "line4"] in
  let analysis := BoundaryDetector.detectBoundaries lines in
  BoundaryDetector.totalCharacters analysis = text_from lines 0 /\
  BoundaryDetector.characterCount (marker_on 2 69 27) =
    Z.of_nat (text_from lines 2) /\
  (0 < BoundaryDetector.characterCount (marker_on 2 69 27)
   <= Z.of_nat (BoundaryDetector.totalCharacters analysis))%Z.
Proof.
  apply (characterCount_is_the_text_from_the_line (L := RefJSON_laws)
           ["line1"; "line2"; "===INTENT_BOUNDARY==="; "line4"]
           (marker_on 2 69 27)).
  vm_compute. left. reflexivity.
Defined.

(** X13 on a transcript with a marker on line 1 and on line 3. *)
Lemma later_boundary_retains_less_witness :
  (BoundaryDetector.characterCount (marker_on 3 38 21)
   < BoundaryDetector.characterCount (marker_on 1 89 49))%Z.
Proof.
  apply (later_boundary_retains_less (L := RefJSON_laws) marked
           (marker_on 1 89 49) (marker_on 3 38 21)).
  - vm_compute. right. left. reflexivity.
  - vm_compute. left. reflexivity.
  - simpl. lia.
Defined.


(** X16 for a backup written at time [1641081600000] beside an older one
    and one of another session. *)
Lemma backup_written_last_is_found_witness :
  Restore.findLatestBackup
    ["abc123.jsonl.1640995200000"; Restore.backupName "abc123" 1641081600000;
     "def456.jsonl.1641999999999"] "abc123"
  = Some {| Restore.name := Restore.backupName "abc123" 1641081600000;
            Restore.timestamp := Restore.Finite 1641081600000 |}.
Proof.
  apply (backup_written_last_is_found (NL := RefNumber_laws)).
  - lia.
  - right. left. reflexivity.
  - intros f [<-|[<-|[<-|[]]]] Hne Hs Hn.
    + vm_compute. reflexivity.
    + now contradiction Hne.
    + vm_compute in Hs. discriminate.
Defined.

(** X17 on the text of a file with a blank line. *)
Lemma lines_read_are_lines_witness :
  summary <> EmptyString /\
  includes summary (String Transcript.LF EmptyString) = false.
Proof.
  apply (lines_read_are_lines file_text summary).
  vm_compute. left. reflexivity.
Defined.

(** X18 on the transcript of 'should handle keepN = 0'. *)
Lemma written_lines_are_read_back_witness :
  Transcript.readLines (Transcript.written two_turns) = two_turns /\
  Transcript.readLines
    (join (String Transcript.CR (String Transcript.LF EmptyString)) two_turns)
  = two_turns.
Proof.
  apply (written_lines_are_read_back two_turns). vm_compute. reflexivity.
Defined.

(** X19 on the text of a file with a blank line, with [keepN = 1] and with
    the boundary on line 1. *)
Lemma pruned_file_reads_as_the_output_witness :
  Transcript.readLines (Transcript.main_writes file_text 1) =
    outLines (Index.pruneSessionLines (Transcript.readLines file_text) 1) /\
  Transcript.readLines (Transcript.boundaryPrune_writes file_text 1) =
    outLines (BoundaryDetector.pruneToBoundary
                (Transcript.readLines file_text) (Z.of_nat 1)).
Proof.
  apply (pruned_file_reads_as_the_output file_text 1 1).
  - exact RefJSON_writes_one_line.
  - vm_compute. reflexivity.
Defined.

(** X20 on the transcript of 'should zero out the last non-zero
    cache_read_input_tokens': three cache-bearing records before the run,
    the last of them on line 3, and two after it. *)
Lemma fewer_counters_after_a_run_witness :
  let session := outLines (Index.pruneSessionLines cached 10) in
  let boundary := outLines (BoundaryDetector.pruneToBoundary cached 1) in
  exists recognised : string -> bool,
    (forall x, recognised x = true <-> cache_bearing x) /\
    List.length (filter recognised (body session))
    < List.length (filter recognised (body cached)) /\
    List.length (filter recognised (body boundary))
    < List.length (filter recognised (body cached)).
Proof.
  apply (fewer_counters_after_a_run (L := RefJSON_laws) cached 10 1 3
           (with_cache "user" "3" 1500)).
  - reflexivity.
  - apply cacheBearing_iff. vm_compute. reflexivity.
  - intros m lm Hm Hn Hc. apply cacheBearing_iff in Hc. revert Hc.
    do 4 (destruct m as [|m]; [lia|]).
    destruct m as [|[|m]]; [injection Hn as <- | discriminate..].
    vm_compute. discriminate.
  - lia.
Defined.

(** X22 on a transcript like that of 'should handle boundary detection and
    pruning together', pruned to the marker on line 5. *)
Lemma marker_pruned_to_is_found_again_witness :
  let marker := "===INTENT_BOUNDARY=== 2024-01-15T11:00:00 | Second phase" in
  let out := outLines (BoundaryDetector.pruneToBoundary phases (Z.of_nat 5)) in
  nth_error out 1 = Some marker /\
  exists b,
    In b (BoundaryDetector.boundaries (BoundaryDetector.detectBoundaries out)) /\
    BoundaryDetector.lineNumber b = 1 /\
    BoundaryDetector.type b = BoundaryDetector.Intent.
Proof.
  apply (marker_pruned_to_is_found_again (L := RefJSON_laws) phases 5
           "===INTENT_BOUNDARY=== 2024-01-15T11:00:00 | Second phase").
  - lia.
  - reflexivity.
  - vm_compute. reflexivity.
  - vm_compute. reflexivity.
Defined.

(** X23 on a project directory with two sessions and a backup. *)
Lemma most_recent_session_is_the_newest_witness :
  Sessions.pathExists project = true /\
  exists files t,
    Sessions.readdir project = Some files /\
    (exists f, In f files /\
       Sessions.endsWith f ".jsonl" = true /\
       includes f ".jsonl." = false /\
       "def456" = Sessions.remove_first ".jsonl" f) /\
    Sessions.stat project ("def456" ++ ".jsonl") = Some t /\
    forall id' t',
      In id' (Sessions.sessionFiles files) ->
      Sessions.stat project (id' ++ ".jsonl") = Some t' -> (t' <= t)%Z.
Proof.
  apply (most_recent_session_is_the_newest project "def456").
  vm_compute. reflexivity.
Defined.

(** X26 for [main] with [keep = 1] in a process that is not a terminal. *)
Lemma main_overwrites_after_the_backup_witness :
  let text :=
    Transcript.main_writes (join (String Transcript.LF EmptyString) phases) 1 in
  exists raw,
    Commands.readFile world (Commands.file world "abc123") = Some raw /\
    Commands.file world "abc123" = Commands.file world "abc123" /\
    text = Transcript.main_writes raw 1 /\
    false = false /\
    (Commands.isTTY world = true -> Commands.confirm world = true) /\
    Commands.copyFile world (Commands.file world "abc123")
      (Commands.backupDir world
       ++ [Restore.backupName "abc123" (Commands.now world)]) = true /\
    Commands.main world "abc123" 1 false =
    [Commands.EnsureDir (Commands.backupDir world);
     Commands.CopyFile (Commands.file world "abc123")
       (Commands.backupDir world
        ++ [Restore.backupName "abc123" (Commands.now world)]);
     Commands.WriteFile (Commands.file world "abc123") text].
Proof.
  apply (main_overwrites_after_the_backup world "abc123" 1 false
           (Commands.file world "abc123")).
  vm_compute. right. right. left. reflexivity.
Defined.

(** X27 for [boundaryPrune] with the boundary on line 5 selected. *)
Lemma boundaryPrune_overwrites_after_the_backup_witness :
  let text :=
    Transcript.boundaryPrune_writes
      (join (String Transcript.LF EmptyString) phases) 5 in
  exists raw selectedBoundary,
    Commands.readFile world (Commands.file world "abc123") = Some raw /\
    Commands.selected world = Some selectedBoundary /\
    Commands.file world "abc123" = Commands.file world "abc123" /\
    text = Transcript.boundaryPrune_writes raw
             (BoundaryDetector.lineNumber selectedBoundary) /\
    false = false /\
    (Commands.isTTY world = true -> Commands.confirm world = true) /\
    Commands.copyFile world (Commands.file world "abc123")
      (Commands.backupDir world
       ++ [Restore.backupName "abc123" (Commands.now world)]) = true /\
    Commands.boundaryPrune world "abc123" false =
    [Commands.EnsureDir (Commands.backupDir world);
     Commands.CopyFile (Commands.file world "abc123")
       (Commands.backupDir world
        ++ [Restore.backupName "abc123" (Commands.now world)]);
     Commands.WriteFile (Commands.file world "abc123") text].
Proof.
  apply (boundaryPrune_overwrites_after_the_backup world "abc123" false
           (Commands.file world "abc123")).
  vm_compute. right. right. left. reflexivity.
Defined.

(** X28 for [restore] in a backup directory with two backups of the
    session. *)
Lemma restore_copies_the_latest_backup_witness :
  let e :=
    Commands.CopyFile
      (Commands.backupDir world
       ++ [Restore.backupName "abc123" 1641081600000])
      (Commands.file world "abc123") in
  exists backupFiles latestBackup,
    Commands.readdir world (Commands.backupDir world) = Some backupFiles /\
    Restore.findLatestBackup backupFiles "abc123" = Some latestBackup /\
    e = Commands.CopyFile
          (Commands.backupDir world ++ [Restore.name latestBackup])
          (Commands.file world "abc123") /\
    hd_error (Commands.restore world "abc123" false) = Some e /\
    false = false /\
    (Commands.isTTY world = true -> Commands.confirm world = true).
Proof.
  apply (restore_copies_the_latest_backup world "abc123" false).
  - vm_compute. left. reflexivity.
  - reflexivity.
Defined.

(** X29 for [main] with [keep = 1] and a [restore] after it. *)
Lemma restore_undoes_main_witness :
  exists backup,
    In (Commands.CopyFile (Commands.file world "abc123") backup)
       (Commands.main world "abc123" 1 false) /\
    hd_error (Commands.restore world "abc123" false)
    = Some (Commands.CopyFile backup (Commands.file world "abc123")).
Proof.
  apply (restore_undoes_main (NL := RefNumber_laws) world world "abc123" 1
           (Commands.file world "abc123")
           (Transcript.main_writes
              (join (String Transcript.LF EmptyString) phases) 1)
           ["abc123.jsonl.1640995200000";
            Restore.backupName "abc123" 1641081600000;
            "def456.jsonl.1641999999999"]).
  - vm_compute. right. right. left. reflexivity.
  - reflexivity.
  - reflexivity.
  - vm_compute. split; [discriminate|reflexivity].
  - reflexivity.
  - reflexivity.
  - right. left. reflexivity.
  - intros other [<-|[<-|[<-|[]]]] Hne Hs Hn.
    + vm_compute. reflexivity.
    + now contradiction Hne.
    + vm_compute in Hs. discriminate.
  - intros Ht. vm_compute in Ht. discriminate.
Defined.

End OnMoreSamples.
